(** * pytrends/research.py: chunked acquisition, scaling and the dataset store

    A shallow embedding of [src/pytrends/research.py] and the properties of
    its chunking loop, retry loop, scaling engine and database operations.

    Modelling conventions.
    - [datetime.date] is a record of year, month and day; its constructor,
      [timedelta] and [relativedelta] additions raise as Python's do when
      the result leaves the years 1..9999.
    - Exceptions and loops: a computation returns [Ok], [Raise] or, for a
      [while] loop that was cut by its fuel, [OutOfFuel].
    - Table cells are pandas float64 values without rounding: an exact
      rational, an infinity or NaN (the missing value).  The rounded
      arithmetic of the scaling is in [F64], on binary64 numbers. *)

From Stdlib Require Import ZArith List Lia Bool String Ascii QArith Qcanon.
From Stdlib Require Import DecimalString Lqa.
From Stdlib Require PrimFloat Uint63.
From stdpp Require Import base tactics option list sorting numbers strings gmap.
Import ListNotations.
Local Open Scope Z_scope.

(** ** Exceptions and results *)

Inductive exn :=
| ValueError      (* date out of range, empty or non-integer randrange *)
| OverflowError   (* date + timedelta beyond date.max *)
| KeyError        (* missing column or sheet *)
| ResponseError   (* pytrends.exceptions.ResponseError: the retryable one *)
| OtherError (tag : nat).

Inductive result (A : Type) :=
| Ok (a : A)
| Raise (e : exn)
| OutOfFuel.
Arguments Ok {A} a.
Arguments Raise {A} e.
Arguments OutOfFuel {A}.

Definition rbind {A B} (r : result A) (k : A -> result B) : result B :=
  match r with
  | Ok a => k a
  | Raise e => Raise e
  | OutOfFuel => OutOfFuel
  end.

Notation "'let*' x ':=' r 'in' k" := (rbind r (fun x => k))
  (at level 10, x pattern, r at level 100, k at level 200).

(** ** Calendar dates *)

Module Cal.

Record date := mkdate { year : Z; month : Z; day : Z }.

Definition isleap (y : Z) : bool :=
  (y mod 4 =? 0) && (negb (y mod 100 =? 0) || (y mod 400 =? 0)).

(** [calendar.mdays] *)
Definition mdays (m : Z) : Z :=
  nth (Z.to_nat m) [0; 31; 28; 31; 30; 31; 30; 31; 31; 30; 31; 30; 31] 0.

(** [calendar.monthrange(y, m)[1]]: the number of days of the month. *)
Definition monthrange (y m : Z) : Z :=
  mdays m + (if (m =? 2) && isleap y then 1 else 0).

Definition valid_ymd (y m d : Z) : bool :=
  (1 <=? y) && (y <=? 9999) && (1 <=? m) && (m <=? 12)
  && (1 <=? d) && (d <=? monthrange y m).

(** [date(y, m, d)] *)
Definition mk (y m d : Z) : result date :=
  if valid_ymd y m d then Ok (mkdate y m d) else Raise ValueError.

Definition valid (d : date) : Prop := valid_ymd (year d) (month d) (day d) = true.

(** Comparison of dates is lexicographic on (year, month, day). *)
Definition ltb (a b : date) : bool :=
  (year a <? year b)
  || ((year a =? year b)
      && ((month a <? month b) || ((month a =? month b) && (day a <? day b)))).

Definition eqb (a b : date) : bool :=
  (year a =? year b) && (month a =? month b) && (day a =? day b).

Definition leb (a b : date) : bool := negb (ltb b a).

(** Python's [min([a, b])] returns the first of the least elements. *)
Definition min2 (a b : date) : date := if ltb b a then b else a.

(** [d + timedelta(days=1)] *)
Definition succ (d : date) : result date :=
  if day d <? monthrange (year d) (month d) then
    Ok (mkdate (year d) (month d) (day d + 1))
  else if month d <? 12 then Ok (mkdate (year d) (month d + 1) 1)
  else if year d <? 9999 then Ok (mkdate (year d + 1) 1 1)
  else Raise OverflowError.

(** [d + relativedelta(months=n)] for 0 <= n <= 11: the month is advanced,
    the year carried, and the day clipped to the length of the new month. *)
Definition add_months (d : date) (n : Z) : result date :=
  let m := month d + n in
  let '(y, m) := if 12 <? m then (year d + 1, m - 12) else (year d, m) in
  mk y m (Z.min (monthrange y m) (day d)).

(** The last day of the month of [d]:
    [date(d.year, d.month, monthrange(d.year, d.month)[1])]. *)
Definition month_end (d : date) : result date :=
  mk (year d) (month d) (monthrange (year d) (month d)).

End Cal.

Abbreviation date := Cal.date.

(** ** The chunking loop of [_getRawDailyData] *)

(** The [while current < stop_date] loop, lines 63 to 80, without the fetch
    it performs on each chunk: the dates do not depend on what is fetched. *)
Fixpoint chunk_loop (fuel : nat) (hiprecision : bool) (stop_date current : date)
  : result (list (date * date)) :=
  if Cal.ltb current stop_date then
    match fuel with
    | O => OutOfFuel
    | S fuel' =>
        let* month_last := Cal.month_end current in
        let* tentative :=
          (if negb hiprecision then Cal.add_months month_last 7 else Ok month_last) in
        let lastDateOfDailyChunk := Cal.min2 stop_date tentative in
        let* next := Cal.succ lastDateOfDailyChunk in
        let* rest := chunk_loop fuel' hiprecision stop_date next in
        Ok ((current, lastDateOfDailyChunk) :: rest)
    end
  else Ok [].

(** One iteration advances by at least a month, so twelve per year of the
    range, and one more, are enough. *)
Definition chunk_fuel (start_year stop_year : Z) : nat :=
  Z.to_nat (12 * (stop_year - start_year + 1) + 1).

(** The dates of the chunks requested by [_getRawDailyData]. *)
Definition daily_chunks (hiprecision : bool) (start_year stop_year : Z) (today : date)
  : result (list (date * date)) :=
  let* start_date := Cal.mk start_year 1 1 in
  let* stop_end := Cal.mk stop_year 12 31 in
  let stop_date := Cal.min2 stop_end today in
  chunk_loop (chunk_fuel start_year stop_year) hiprecision stop_date start_date.

(** ** The chunk-end rule, as the specification words it *)

(** The last day of the calendar month that is [n] months after the month
    of [d]. *)
Definition month_end_after (d : date) (n : Z) : date :=
  let k := 12 * Cal.year d + (Cal.month d - 1) + n in
  Cal.mkdate (k / 12) (k mod 12 + 1) (Cal.monthrange (k / 12) (k mod 12 + 1)).

(** [max_span_months] of the two modes of [_getRawDailyData]. *)
Definition max_span_months (hiprecision : bool) : Z := if hiprecision then 1 else 8.

(** A list of chunks that starts at [cur], follows the chunk-end rule with a
    window of [n + 1] months and stops as the loop does. *)
Inductive chain (n : Z) (stop : date) : date -> list (date * date) -> Prop :=
| chain_end cur :
    Cal.ltb cur stop = false -> chain n stop cur []
| chain_step cur next rest :
    Cal.ltb cur stop = true ->
    Cal.leb cur (Cal.min2 stop (month_end_after cur n)) = true ->
    Cal.succ (Cal.min2 stop (month_end_after cur n)) = Ok next ->
    chain n stop next rest ->
    chain n stop cur ((cur, Cal.min2 stop (month_end_after cur n)) :: rest).

(** The loop invariant on [current]: the first day of a month; in the
    eight-month mode the month is January, May or September. *)
Definition start_inv (hiprecision : bool) (cur : date) : Prop :=
  Cal.day cur = 1 /\ 1 <= Cal.year cur /\ 1 <= Cal.month cur <= 12 /\
  (hiprecision = false -> Cal.month cur = 1 \/ Cal.month cur = 5 \/ Cal.month cur = 9).

Definition month_index (d : date) : Z := 12 * Cal.year d + Cal.month d.

(** The days of a chunk, and of a list of chunks. *)
Definition covers (c : date * date) (d : date) : bool :=
  Cal.leb c.1 d && Cal.leb d c.2.

Definition covered (chunks : list (date * date)) (d : date) : bool :=
  existsb (fun c => covers c d) chunks.


(** ** Cell values *)

(** A float64 cell without rounding: an exact rational, an infinity, or NaN,
    which pandas uses for a missing value.  Signed zeros are not
    distinguished: a division by zero takes the sign of the numerator.
    What is proved of these cells is proved of the exact quotients, sums
    and products; where the rounding of float64 matters, the arithmetic is
    that of [F64] below. *)
Inductive value :=
| Fin (q : Qc)
| PInf
| NInf
| NaN.

Definition isna (v : value) : bool :=
  match v with NaN => true | _ => false end.

Definition notna (v : value) : bool := negb (isna v).

Definition sgn (q : Qc) : comparison := (q ?= Q2Qc 0)%Qc.

Definition inf_of_sign (c : comparison) : value :=
  match c with Gt => PInf | Lt => NInf | Eq => NaN end.

Definition vadd (a b : value) : value :=
  match a, b with
  | NaN, _ | _, NaN => NaN
  | Fin x, Fin y => Fin (x + y)%Qc
  | PInf, NInf | NInf, PInf => NaN
  | PInf, _ | _, PInf => PInf
  | NInf, _ | _, NInf => NInf
  end.

Definition vmul (a b : value) : value :=
  match a, b with
  | NaN, _ | _, NaN => NaN
  | Fin x, Fin y => Fin (x * y)%Qc
  | Fin x, PInf | PInf, Fin x => inf_of_sign (sgn x)
  | Fin x, NInf | NInf, Fin x => inf_of_sign (CompOpp (sgn x))
  | PInf, PInf | NInf, NInf => PInf
  | PInf, NInf | NInf, PInf => NInf
  end.

(** numpy's true division: a division by zero does not raise, it gives an
    infinity, or NaN for 0/0. *)
Definition vdiv (a b : value) : value :=
  match a, b with
  | NaN, _ | _, NaN => NaN
  | Fin x, Fin y =>
      match sgn y with
      | Eq => inf_of_sign (sgn x)
      | _ => Fin (x / y)%Qc
      end
  | Fin _, (PInf | NInf) => Fin (Q2Qc 0)
  | PInf, Fin y => match sgn y with Lt => NInf | _ => PInf end
  | NInf, Fin y => match sgn y with Lt => PInf | _ => NInf end
  | (PInf | NInf), (PInf | NInf) => NaN
  end.

(** The order in which values are sorted: NaN comes last, as in numpy. *)
Definition vleb (a b : value) : bool :=
  match a, b with
  | _, NaN => true
  | NaN, _ => false
  | NInf, _ => true
  | _, NInf => false
  | _, PInf => true
  | PInf, _ => false
  | Fin x, Fin y => match (x ?= y)%Qc with Gt => false | _ => true end
  end.

Definition vle (a b : value) : Prop := vleb a b = true.

#[global] Instance vle_dec : RelDecision vle.
Proof. intros a b. unfold vle. apply _. Defined.

Definition vsum (l : list value) : value := foldr vadd (Fin (Q2Qc 0)) l.

(** [mean] and [median] skip missing values (pandas' [skipna=True]); of no
    value at all they are NaN.  The mean is the exact quotient of the exact
    sum by the count, not the rounded one of float64 (for which see
    [F64.mean]). *)
Definition mean (l : list value) : value :=
  let xs := filter (fun v => notna v = true) l in
  match xs with
  | [] => NaN
  | _ => vdiv (vsum xs) (Fin (Qc_of_Z (Z.of_nat (length xs))))
  end.

Definition median (l : list value) : value :=
  let xs := merge_sort vle (filter (fun v => notna v = true) l) in
  let n := length xs in
  match n with
  | O => NaN
  | _ =>
      if Nat.even n then
        vdiv (vadd (nth (n / 2 - 1)%nat xs NaN) (nth (n / 2)%nat xs NaN))
             (Fin (Qc_of_Z 2))
      else nth (n / 2)%nat xs NaN
  end.

(** ** Tables *)

Abbreviation column := (list value).

(** A DataFrame with a date index: the index and the named columns, each as
    long as the index. *)
Record frame := mkframe { index : list date; columns : list (string * column) }.

Definition empty_frame : frame := mkframe [] [].

Definition names (fr : frame) : list string := map fst (columns fr).

Definition has_name (n : string) (ns : list string) : bool := existsb (String.eqb n) ns.

Fixpoint assoc (n : string) (cols : list (string * column)) : option column :=
  match cols with
  | [] => None
  | (m, c) :: rest => if String.eqb m n then Some c else assoc n rest
  end.

(** [fr[n]] *)
Definition getcol (fr : frame) (n : string) : result column :=
  match assoc n (columns fr) with
  | Some c => Ok c
  | None => Raise KeyError
  end.

Fixpoint set_assoc (n : string) (c : column) (cols : list (string * column))
  : list (string * column) :=
  match cols with
  | [] => [(n, c)]
  | (m, c') :: rest =>
      if String.eqb m n then (m, c) :: rest else (m, c') :: set_assoc n c rest
  end.

(** [fr[n] = c]: the column is replaced where it stands, or added last. *)
Definition setcol (fr : frame) (n : string) (c : column) : frame :=
  mkframe (index fr) (set_assoc n c (columns fr)).

(** [fr.drop(columns=ns)]: a label that is not there is a KeyError. *)
Definition drop_columns (ns : list string) (fr : frame) : result frame :=
  if forallb (fun n => has_name n (names fr)) ns then
    Ok (mkframe (index fr)
          (filter (fun nc => has_name nc.1 ns = false) (columns fr)))
  else Raise KeyError.

(** [fr.rename(columns={old: new})]: labels that are not there are ignored. *)
Definition rename_column (old new : string) (fr : frame) : frame :=
  mkframe (index fr)
    (map (fun nc => (if String.eqb nc.1 old then new else nc.1, nc.2)) (columns fr)).

(** The value of a column at the first row labelled [d], NaN when no row is. *)
Fixpoint find_date (d : date) (idx : list date) (col : column) : value :=
  match idx, col with
  | i :: idx', v :: col' => if Cal.eqb i d then v else find_date d idx' col'
  | _, _ => NaN
  end.

(** [col.reindex(new_idx)] *)
Definition reindex_col (idx : list date) (col : column) (new_idx : list date) : column :=
  map (fun d => find_date d idx col) new_idx.

(** [col.ffill()]: a missing cell takes the last value seen above it. *)
Fixpoint ffill_from (last : value) (col : column) : column :=
  match col with
  | [] => []
  | v :: rest =>
      let v' := if isna v then last else v in
      v' :: ffill_from v' rest
  end.

Definition ffill (col : column) : column := ffill_from NaN col.

(** [fr[n].ffill(inplace=True)] *)
Definition ffill_column (fr : frame) (n : string) : result frame :=
  let* c := getcol fr n in
  Ok (setcol fr n (ffill c)).


(** *** Resampling to months *)

(** The month of number [k] (see [month_index]) and its last day, the
    label of a bin of [resample('M')]. *)
Definition month_end_of_index (k : Z) : date :=
  let y := (k - 1) / 12 in
  let m := (k - 1) mod 12 + 1 in
  Cal.mkdate y m (Cal.monthrange y m).

(** The cells of a column in the rows of month [k]. *)
Fixpoint month_cells (k : Z) (idx : list date) (col : column) : list value :=
  match idx, col with
  | d :: idx', v :: col' =>
      if month_index d =? k then v :: month_cells k idx' col'
      else month_cells k idx' col'
  | _, _ => []
  end.

(** The months from the earliest to the latest date of an index. *)
Definition month_span (idx : list date) : list Z :=
  match idx with
  | [] => []
  | d :: ds =>
      let lo := foldr Z.min (month_index d) (map month_index ds) in
      let hi := foldr Z.max (month_index d) (map month_index ds) in
      map (fun i => lo + Z.of_nat i) (seq 0 (Z.to_nat (hi - lo + 1)))
  end.

(** [fr.resample('M').mean()]: one row per month from the first to the last
    month of the index, labelled with the month's last day, holding the mean
    of each column over the rows of that month (NaN for a month without). *)
Definition resample_M_mean (fr : frame) : frame :=
  let months := month_span (index fr) in
  mkframe (map month_end_of_index months)
    (map (fun nc => (nc.1, map (fun k => mean (month_cells k (index fr) nc.2)) months))
       (columns fr)).

(** [fr.index = fr.index.values.astype('<M8[M]')]: every label is cut to
    its month, which as a date is the first day of the month. *)
Definition month_start (d : date) : date := Cal.mkdate (Cal.year d) (Cal.month d) 1.

Definition truncate_index_to_month (fr : frame) : frame :=
  mkframe (map month_start (index fr)) (columns fr).

(** [fr[n] = other] for a one-column table [other]: its column is aligned on
    the index of [fr]. *)
Definition setcol_frame (fr : frame) (n : string) (other : frame) : result frame :=
  match columns other with
  | [(_, c)] => Ok (setcol fr n (reindex_col (index other) c (index fr)))
  | _ => Raise ValueError
  end.

(** *** Joins *)

Definition suffixed (others : list string) (sfx n : string) : string :=
  if has_name n others then (n ++ sfx)%string else n.

Definition overlap (l r : frame) : bool :=
  existsb (fun n => has_name n (names r)) (names l).

(** [l.join(r, lsuffix=.., rsuffix=..)]: the rows of [l], with the columns of
    [r] looked up by date; a name on both sides takes its side's suffix. *)
Definition join_left (l r : frame) (lsuffix rsuffix : string) : result frame :=
  if overlap l r && String.eqb lsuffix "" && String.eqb rsuffix "" then Raise ValueError
  else
    Ok (mkframe (index l)
          (map (fun nc => (suffixed (names r) lsuffix nc.1, nc.2)) (columns l)
           ++ map (fun nc => (suffixed (names l) rsuffix nc.1,
                              reindex_col (index r) nc.2 (index l))) (columns r))).

Fixpoint insert_date (d : date) (l : list date) : list date :=
  match l with
  | [] => [d]
  | x :: l' =>
      if Cal.ltb d x then d :: l
      else if Cal.eqb d x then l
      else x :: insert_date d l'
  end.

(** The sorted union of two indexes. *)
Definition union_index (a b : list date) : list date := foldr insert_date [] (a ++ b).

Definition reindex (fr : frame) (idx : list date) : list (string * column) :=
  map (fun nc => (nc.1, reindex_col (index fr) nc.2 idx)) (columns fr).

(** [l.join(r, how='outer')] *)
Definition join_outer (l r : frame) : result frame :=
  if overlap l r then Raise ValueError
  else
    let idx := union_index (index l) (index r) in
    Ok (mkframe idx (reindex l idx ++ reindex r idx)).

(** *** Concatenation, slices, rows *)

Fixpoint union_names (seen : list string) (frs : list frame) : list string :=
  match frs with
  | [] => []
  | fr :: rest =>
      let fresh := filter (fun n => has_name n seen = false) (names fr) in
      fresh ++ union_names (seen ++ fresh) rest
  end.

(** [pd.concat(frs)]: the rows of the tables one after the other, a column a
    table does not have being missing in its rows; of no table at all it is
    a ValueError. *)
Definition concat (frs : list frame) : result frame :=
  match frs with
  | [] => Raise ValueError
  | _ =>
      Ok (mkframe (flat_map index frs)
            (map (fun n =>
                    (n, flat_map (fun fr =>
                           match assoc n (columns fr) with
                           | Some c => c
                           | None => repeat NaN (length (index fr))
                           end) frs))
               (union_names [] frs)))
  end.

Fixpoint keep_rows (keep : date -> bool) (idx : list date) (col : column) : column :=
  match idx, col with
  | d :: idx', v :: col' =>
      if keep d then v :: keep_rows keep idx' col' else keep_rows keep idx' col'
  | _, _ => []
  end.

(** [fr[start:stop]]: the rows whose date is between the two, inclusive. *)
Definition slice (fr : frame) (start stop : date) : frame :=
  let keep d := Cal.leb start d && Cal.leb d stop in
  mkframe (filter (fun d => keep d = true) (index fr))
    (map (fun nc => (nc.1, keep_rows keep (index fr) nc.2)) (columns fr)).

(** The cells of row [i], one per column. *)
Definition row (fr : frame) (i : nat) : list value :=
  map (fun nc => nth i nc.2 NaN) (columns fr).

(** [pd.DataFrame(fr.T.median(), columns=[n])]: the median of every row. *)
Definition median_frame (fr : frame) (n : string) : frame :=
  mkframe (index fr) [(n, map (fun i => median (row fr i)) (seq 0 (length (index fr))))].

(** ** The scaling engine of [getDailyDataOnce], lines 158 to 170 *)

Section Scaling.
Context (word geo : string).
Local Open Scope string_scope.

Definition col_avg : string := word ++ "_" ++ geo ++ "_avg".
Definition col_unscaled : string := word ++ "_" ++ geo ++ "_unscaled".
Definition col_monthly : string := word ++ "_" ++ geo ++ "_monthly".
Definition col_scaled : string := word ++ "_" ++ geo.

(** [results] are the tables of the daily chunks in the order they were
    fetched, [monthly] the table of the single monthly query. *)
Definition scale_once (results : list frame) (monthly : frame) : result frame :=
  let* fetched := concat results in
  let* daily := drop_columns ["isPartial"] fetched in
  let dailyaverage := resample_M_mean daily in
  let dailyaverage := truncate_index_to_month dailyaverage in
  let* daily := setcol_frame daily col_avg dailyaverage in
  let* daily := ffill_column daily col_avg in
  let* complete :=
    join_left daily monthly ("_" ++ geo ++ "_unscaled") ("_" ++ geo ++ "_monthly") in
  let* complete := ffill_column complete col_monthly in
  let* c_monthly := getcol complete col_monthly in
  let* c_avg := getcol complete col_avg in
  let complete := setcol complete "scale" (zip_with vdiv c_monthly c_avg) in
  let* c_unscaled := getcol complete col_unscaled in
  let* c_scale := getcol complete "scale" in
  let complete := setcol complete col_scaled (zip_with vmul c_unscaled c_scale) in
  drop_columns ["isPartial"; col_avg] complete.

End Scaling.


(** ** The world the functions run in *)

(** Modelled from the spec: the query capability ([TrendReq] of
    pytrends/request.py, not part of the sources at hand), a collaborator
    that answers a request with a time series for the keyword or raises, a
    rate-limit error being the distinguished retryable one.  An answer is
    the list of its rows: date, value and the [isPartial] flag. *)
Inductive reply :=
| Answer (rows : list (date * value * bool))
| Failure (e : exn).

Inductive event :=
| EvTrendReq                            (* a client is constructed *)
| EvBuildPayload (timeframe : string)   (* request made by build_payload *)
| EvInterestOverTime                    (* request made by interest_over_time *)
| EvSleep (seconds : Q)
| EvPrint (line : string)
| EvWrite (path : string).

(** A workbook is a set of named sheets, each a table. *)
Abbreviation workbook := (gmap string frame).

Record world := mkworld {
  service : nat -> reply;        (* the answer the n-th request will get *)
  asked : nat;                   (* the requests made so far *)
  entropy : nat -> Z;            (* what the n-th random draw will be *)
  drawn : nat;                   (* the draws made so far *)
  files : gmap string workbook;  (* the workbooks on disk, by path *)
  trace : list event             (* what happened, oldest first *)
}.

(** The world [w] once [asked'] requests have been made and the events
    [evs] have happened; the files and the random source are those of [w]. *)
Definition with_trace (w : world) (asked' : nat) (evs : list event) : world :=
  mkworld (service w) asked' (entropy w) (drawn w) (files w) (trace w ++ evs).

(** A computation: from a world to a result and the world it leaves. *)
Definition M (A : Type) : Type := world -> result A * world.

Definition ret {A} (a : A) : M A := fun w => (Ok a, w).

Definition bind {A B} (m : M A) (k : A -> M B) : M B :=
  fun w =>
    match m w with
    | (Ok a, w') => k a w'
    | (Raise e, w') => (Raise e, w')
    | (OutOfFuel, w') => (OutOfFuel, w')
    end.

Definition lift {A} (r : result A) : M A := fun w => (r, w).

Notation "'let!' x ':=' m 'in' k" := (bind m (fun x => k))
  (at level 10, x pattern, m at level 100, k at level 200).

Definition emit (e : event) : M unit :=
  fun w => (Ok tt, mkworld (service w) (asked w) (entropy w) (drawn w) (files w)
                     (trace w ++ [e])).

Definition print (line : string) : M unit := emit (EvPrint line).

Definition sleep (seconds : Q) : M unit := emit (EvSleep seconds).

(** One request: the service's next answer is consumed. *)
Definition request (e : event) : M (list (date * value * bool)) :=
  fun w =>
    let w' := mkworld (service w) (S (asked w)) (entropy w) (drawn w) (files w)
                (trace w ++ [e]) in
    match service w (asked w) with
    | Answer rows => (Ok rows, w')
    | Failure err => (Raise err, w')
    end.

(** [TrendReq(hl='en-US', tz=tz)] *)
Definition TrendReq : M unit := emit EvTrendReq.

(** [build_payload(timeframe=timeframe)] *)
Definition build_payload (timeframe : string) : M unit :=
  let! _ := request (EvBuildPayload timeframe) in ret tt.

Definition flag (b : bool) : value := Fin (Qc_of_Z (if b then 1 else 0)).

(** [pytrends.interest_over_time()]: a table with a column named after the
    keyword and the column [isPartial]; an empty table when the service has
    no data. *)
Definition interest_over_time (word : string) : M frame :=
  let! rows := request EvInterestOverTime in
  match rows with
  | [] => ret empty_frame
  | _ => ret (mkframe (map (fun r => r.1.1) rows)
                [(word, map (fun r => r.1.2) rows);
                 ("isPartial"%string, map (fun r => flag r.2) rows)])
  end.

(** [random.randrange(start, stop)] for an integer [start] and a [stop]
    that may be a float: a ValueError when [stop] is not integral or the
    range is empty. *)
Definition randrange (start : Z) (stop : Q) : M Z :=
  fun w =>
    let s := Qred stop in
    if negb (Pos.eqb (Qden s) 1) then (Raise ValueError, w)
    else
      let width := Qnum s - start in
      if 0 <? width then
        (Ok (start + entropy w (drawn w) mod width),
         mkworld (service w) (asked w) (entropy w) (S (drawn w)) (files w) (trace w))
      else (Raise ValueError, w).

(** *** Text *)

Definition digits (n : Z) : string := NilZero.string_of_int (Z.to_int n).

Fixpoint pad (width : nat) (s : string) : string :=
  match width with
  | O => s
  | S w => if (String.length s <? width)%nat then pad w ("0" ++ s)%string else s
  end.

(** [d.strftime('%Y-%m-%d')] *)
Definition iso (d : date) : string :=
  (pad 4 (digits (Cal.year d)) ++ "-" ++ pad 2 (digits (Cal.month d)) ++ "-"
   ++ pad 2 (digits (Cal.day d)))%string.

(** [getTimeframe(start, stop)] *)
Definition getTimeframe (start stop : date) : string :=
  (iso start ++ " " ++ iso stop)%string.

(** [word + date.today().strftime("_%m_%d_%Y")]: the label of the columns
    acquired on day [today]. *)
Definition pull_label (word : string) (today : date) : string :=
  (word ++ "_" ++ pad 2 (digits (Cal.month today)) ++ "_"
   ++ pad 2 (digits (Cal.day today)) ++ "_" ++ pad 4 (digits (Cal.year today)))%string.

(** [f'{dbpath}/{cat}_{word}_{geo}.xlsx'] *)
Definition db_file (dbpath : string) (cat : Z) (word geo : string) : string :=
  (dbpath ++ "/" ++ digits cat ++ "_" ++ word ++ "_" ++ geo ++ ".xlsx")%string.

(** ** [_fetchData] *)

(** The [while not fetched] loop: a [ResponseError] of [build_payload] is
    printed, slept on and retried; any other exception leaves the loop. *)
Fixpoint fetch_loop (fuel : nat) (timeframe : string) (attempts : Z) : M unit :=
  fun w =>
    match fuel with
    | O => (OutOfFuel, w)
    | S fuel' =>
        match build_payload timeframe w with
        | (Raise ResponseError, w1) =>
            (let! _ := print "ResponseError" in
             let! _ := print ("Trying again in " ++ digits (60 + 5 * attempts)
                               ++ " seconds.")%string in
             let! _ := sleep (inject_Z (60 + 5 * attempts)) in
             fetch_loop fuel' timeframe (attempts + 1)) w1
        | other => other
        end
    end.

Definition _fetchData (fuel : nat) (word timeframe : string) : M frame :=
  let! _ := fetch_loop fuel timeframe 0 in
  interest_over_time word.


(** ** [_getRawDailyData] *)

Section Acquisition.
Context (fuel : nat).        (* the patience of every retry loop *)
Context (today : date).      (* [date.today()] *)
Local Open Scope string_scope.

(** The [while current < stop_date] loop with its fetches; [results] is the
    dictionary of the chunks' tables, in insertion order. *)
Fixpoint raw_loop (n : nat) (word geo : string) (cat : Z) (verbose hiprecision : bool)
    (wait_time : Q) (stop_date current : date) (results : list (date * frame))
  : M (list (date * frame)) :=
  if Cal.ltb current stop_date then
    match n with
    | O => lift OutOfFuel
    | S n' =>
        let! month_last := lift (Cal.month_end current) in
        let! tentative :=
          lift (if negb hiprecision then Cal.add_months month_last 7 else Ok month_last) in
        let lastDateOfDailyChunk := Cal.min2 stop_date tentative in
        let timeframe := getTimeframe current lastDateOfDailyChunk in
        let! _ := (if verbose
                   then print ("Category" ++ digits cat ++ "/" ++ word ++ "/" ++ geo
                               ++ ":" ++ timeframe)
                   else ret tt) in
        let! fetched := _fetchData fuel word timeframe in
        let results := (results ++ [(current, fetched)])%list in
        let! current := lift (Cal.succ lastDateOfDailyChunk) in
        let! pause := randrange 0 (10 * wait_time)%Q in
        let! _ := sleep (Qmake pause 10) in
        raw_loop n' word geo cat verbose hiprecision wait_time stop_date current results
    end
  else ret results.

Definition _getRawDailyData (word : string) (start_year stop_year : Z) (geo : string)
    (tz cat : Z) (verbose hiprecision : bool) (wait_time : Q) : M frame :=
  let! start_date := lift (Cal.mk start_year 1 1) in
  let! stop_end := lift (Cal.mk stop_year 12 31) in
  let stop_date := Cal.min2 stop_end today in
  let! _ := TrendReq in
  let! results :=
    raw_loop (chunk_fuel start_year stop_year) word geo cat verbose hiprecision
      wait_time stop_date start_date [] in
  let! fetched := lift (concat (map snd results)) in
  lift (drop_columns ["isPartial"] fetched).

(** ** [getDailyDataOnce] *)

(** The month-by-month loop, lines 148 to 156. *)
Fixpoint once_loop (n : nat) (word geo : string) (verbose : bool) (wait_time : Q)
    (stop_date current : date) (results : list (date * frame))
  : M (list (date * frame)) :=
  if Cal.ltb current stop_date then
    match n with
    | O => lift OutOfFuel
    | S n' =>
        let! lastDateOfMonth := lift (Cal.month_end current) in
        let timeframe := getTimeframe current lastDateOfMonth in
        let! _ := (if verbose then print (word ++ "/" ++ geo ++ ":" ++ timeframe)
                   else ret tt) in
        let! fetched := _fetchData fuel word timeframe in
        let results := (results ++ [(current, fetched)])%list in
        let! current := lift (Cal.succ lastDateOfMonth) in
        let! pause := randrange 10 (10 * wait_time)%Q in
        let! _ := sleep (Qmake pause 10) in
        once_loop n' word geo verbose wait_time stop_date current results
    end
  else ret results.

Definition getDailyDataOnce (word : string) (start_year stop_year : Z) (geo : string)
    (tz cat : Z) (verbose : bool) (wait_time : Q) : M frame :=
  let! start_date := lift (Cal.mk start_year 1 1) in
  let! stop_end := lift (Cal.mk stop_year 12 31) in
  let stop_date := Cal.min2 stop_end today in
  let! _ := TrendReq in
  let! first_day := lift (Cal.mk 2004 1 1) in
  let! fetched := _fetchData fuel word (getTimeframe first_day stop_date) in
  let monthly := slice fetched start_date stop_date in
  let! results :=
    once_loop (chunk_fuel start_year stop_year) word geo verbose wait_time
      stop_date start_date [] in
  lift (scale_once word geo (map snd results) monthly).

(** ** The database *)

Definition isfile (path : string) : M bool :=
  fun w => (Ok (bool_decide (is_Some (files w !! path))), w).

(** [pd.read_excel(path, sheet_name=sheet).set_index('date')] *)
Definition read_excel (path sheet : string) : M frame :=
  fun w =>
    match files w !! path with
    | Some book =>
        match book !! sheet with
        | Some table => (Ok table, w)
        | None => (Raise ValueError, w)
        end
    | None => (Raise (OtherError 0), w)
    end.

(** Leaving a [with pd.ExcelWriter(path) as writer] block, normally or by an
    exception, saves the sheets written so far as the workbook at [path]. *)
Definition save_excel (path : string) (book : workbook) : M unit :=
  fun w => (Ok tt, mkworld (service w) (asked w) (entropy w) (drawn w)
                     (<[path := book]> (files w)) (trace w ++ [EvWrite path])).

Definition already_present (word geo : string) : string :=
  "Today's data already present in the database for search term '"
  ++ word ++ "/" ++ geo ++ "'".

Definition buildDatabase (dbpath word geo : string) (cat tz : Z) (hiprecision : bool)
  : M unit :=
  let path := db_file dbpath cat word geo in
  let! present := isfile path in
  let! data_m := (if present then read_excel path "monthly" else ret empty_frame) in
  let! data_d := (if present then read_excel path "daily" else ret empty_frame) in
  if has_name (pull_label word today) (names data_m) then
    print (already_present word geo)
  else
    let! stop_date := ret today in
    let! _ := TrendReq in
    let! first_day := lift (Cal.mk 2004 1 1) in
    let! fetched := _fetchData fuel word (getTimeframe first_day stop_date) in
    let! monthly := lift (drop_columns ["isPartial"] fetched) in
    let monthly := rename_column word (pull_label word today) monthly in
    let! daily :=
      _getRawDailyData word 2004 (Cal.year stop_date) geo tz cat true hiprecision 1%Q in
    let daily := rename_column word (pull_label word today) daily in
    let! data_m := lift (join_outer data_m monthly) in
    let book : workbook := {[ "monthly" := data_m ]} in
    fun w =>
      match join_outer data_d daily with
      | Ok data_d => save_excel path (<["daily" := data_d]> book) w
      | other =>
          let '(_, w') := save_excel path book w in
          (match other with Raise e => Raise e | _ => OutOfFuel end, w')
      end.

Definition buildMonthlyDatabase (dbpath word geo : string) (cat tz : Z) : M unit :=
  let path := db_file dbpath cat word geo in
  let! present := isfile path in
  let! data_m := (if present then read_excel path "monthly" else ret empty_frame) in
  if has_name (pull_label word today) (names data_m) then
    print (already_present word geo)
  else
    let! start_date := lift (Cal.mk 2004 1 1) in
    let! stop_date := ret today in
    let! _ := TrendReq in
    let! fetched := _fetchData fuel word (getTimeframe start_date stop_date) in
    let! monthly := lift (drop_columns ["isPartial"] fetched) in
    let monthly := rename_column word (pull_label word today) monthly in
    let! data_m := lift (join_outer data_m monthly) in
    save_excel path {[ "monthly" := data_m ]}.

Definition no_data (word geo : string) (cat : Z) : string :=
  "No data found for search term 'Category" ++ digits cat ++ "/" ++ word ++ "/" ++ geo ++ "'".

(** [getMonthlyDataFromDB]; [None] is Python's [None]. *)
Definition getMonthlyDataFromDB (dbpath word geo : string) (cat start_year stop_year : Z)
    (uniformdata : bool) : M (option frame) :=
  let! start_date := lift (Cal.mk start_year 1 1) in
  let! stop_end := lift (Cal.mk stop_year 12 31) in
  let stop_date := Cal.min2 stop_end today in
  let path := db_file dbpath cat word geo in
  let! present := isfile path in
  if present then
    let! sheet := read_excel path "monthly" in
    let data_m := slice sheet start_date stop_date in
    let monthly_med := median_frame data_m (col_scaled word geo) in
    ret (Some monthly_med)
  else
    let! _ := print (no_data word geo cat) in
    ret None.

End Acquisition.


(** ** The read path of [getDailyDataFromDB] *)

(** [fr.iloc[:, 0]] *)
Definition first_column (fr : frame) : result column :=
  match columns fr with
  | (_, c) :: _ => Ok c
  | [] => Raise (OtherError 1)
  end.

(** [fr.div(s, axis='index')] for a series [s] with index [sidx]: rows are
    matched by date over the union of the two indexes. *)
Definition div_by_series (fr : frame) (sidx : list date) (s : column) : frame :=
  let idx := union_index (index fr) sidx in
  let divisor := reindex_col sidx s idx in
  mkframe idx
    (map (fun nc => (nc.1, zip_with vdiv (reindex_col (index fr) nc.2 idx) divisor))
       (columns fr)).

(** [a.div(b)] for two tables: cells are matched by date and by column
    name; a column only one of the two has is missing throughout. *)
Definition div_frames (a b : frame) : frame :=
  mkframe (index a)
    (map (fun nc =>
            (nc.1,
             match assoc nc.1 (columns b) with
             | Some c => zip_with vdiv nc.2 (reindex_col (index b) c (index a))
             | None => map (fun _ => NaN) nc.2
             end)) (columns a)
     ++ map (fun nc => (nc.1, map (fun _ => NaN) (index a)))
          (filter (fun nc => has_name nc.1 (names a) = false) (columns b))).

Section Robust.
Context (word geo : string).
Local Open Scope string_scope.

Definition col_med : string := word ++ "_" ++ geo.

(** [uniformdata=True], lines 254 to 266. *)
Definition robust_uniform (data_d monthly_med : frame) (start_date stop_date : date)
  : result frame :=
  let daily_med := median_frame (slice data_d start_date stop_date) col_med in
  let dailyaverage := resample_M_mean daily_med in
  let dailyaverage := truncate_index_to_month dailyaverage in
  let* daily_med := setcol_frame daily_med (col_med ++ "_avg") dailyaverage in
  let* daily_med := ffill_column daily_med (col_med ++ "_avg") in
  let* complete := join_left daily_med monthly_med "_dailyraw" "_monthly" in
  let* complete := ffill_column complete (col_med ++ "_monthly") in
  let* c_monthly := getcol complete (col_med ++ "_monthly") in
  let* c_avg := getcol complete (col_med ++ "_avg") in
  let complete := setcol complete "scale" (zip_with vdiv c_monthly c_avg) in
  let* c_raw := getcol complete (col_med ++ "_dailyraw") in
  let* c_scale := getcol complete "scale" in
  let complete := setcol complete col_med (zip_with vmul c_raw c_scale) in
  drop_columns [col_med ++ "_dailyraw"; col_med ++ "_avg"; "scale"] complete.

(** [scale_d] of [uniformdata=False], lines 269 to 273: for every pull the
    quotient of its month mean by the monthly baseline, on the rows of the
    month starts, spread over the daily rows and filled forward. *)
Definition mixed_scale (data_d monthly_med : frame) : result frame :=
  let dailyaverage := resample_M_mean data_d in
  let dailyaverage := truncate_index_to_month dailyaverage in
  let* baseline := first_column monthly_med in
  let scale_m := div_by_series dailyaverage (index monthly_med) baseline in
  let* joined :=
    join_left (mkframe (index data_d) (take 1 (columns data_d))) scale_m "_d" "" in
  Ok (mkframe (index joined) (map (fun nc => (nc.1, ffill nc.2)) (drop 1 (columns joined)))).

(** [uniformdata=False], lines 269 to 284. *)
Definition robust_mixed (data_d monthly_med : frame) : result frame :=
  let dailyaverage := resample_M_mean data_d in
  let dailyaverage := truncate_index_to_month dailyaverage in
  let* baseline := first_column monthly_med in
  let scale_m := div_by_series dailyaverage (index monthly_med) baseline in
  let* joined :=
    join_left (mkframe (index data_d) (take 1 (columns data_d))) scale_m "_d" "" in
  let scale_d :=
    mkframe (index joined) (map (fun nc => (nc.1, ffill nc.2)) (drop 1 (columns joined))) in
  let data_d_scaled := div_frames data_d scale_d in
  let daily_scaled_med := median_frame data_d_scaled col_med in
  let* complete := join_left daily_scaled_med monthly_med "" "_monthly" in
  ffill_column complete (col_med ++ "_monthly").

End Robust.

Section ReadPath.
Context (today : date).
Local Open Scope string_scope.

(** [getDailyDataFromDB]; [None] is Python's [None]. *)
Definition getDailyDataFromDB (dbpath word geo : string) (cat start_year stop_year : Z)
    (uniformdata : bool) : M (option frame) :=
  let! start_date := lift (Cal.mk start_year 1 1) in
  let! stop_end := lift (Cal.mk stop_year 12 31) in
  let stop_date := Cal.min2 stop_end today in
  let path := db_file dbpath cat word geo in
  let! present := isfile path in
  if present then
    let! sheet_m := read_excel path "monthly" in
    let data_m := slice sheet_m start_date stop_date in
    let! sheet_d := read_excel path "daily" in
    let data_d := slice sheet_d start_date stop_date in
    let monthly_med := median_frame data_m (col_med word geo) in
    if uniformdata then
      let! complete := lift (robust_uniform word geo data_d monthly_med start_date stop_date) in
      ret (Some complete)
    else
      let! complete := lift (robust_mixed word geo data_d monthly_med) in
      ret (Some complete)
  else
    let! _ := print (no_data word geo cat) in
    ret None.

End ReadPath.


(** ** The columns of the engine's output, for the statements *)

(** The month means of the daily data on the daily rows: the mean of a month
    stands on the row of the month's first day and is forwarded below it. *)
Definition avg_column (idx : list date) (raw : column) : column :=
  let months := month_span idx in
  ffill (reindex_col (map month_start (map month_end_of_index months))
           (map (fun k => mean (month_cells k idx raw)) months) idx).

(** The monthly baseline on the daily rows, forwarded. *)
Definition baseline_column (idx midx : list date) (base : column) : column :=
  ffill (reindex_col midx base idx).

Definition scale_column (idx : list date) (raw : column) (midx : list date) (base : column)
  : column :=
  zip_with vdiv (baseline_column idx midx base) (avg_column idx raw).

Definition scaled_column (idx : list date) (raw : column) (midx : list date) (base : column)
  : column :=
  zip_with vmul raw (scale_column idx raw midx base).

(** Dates in chronological order, without repetition. *)
Definition chronological (idx : list date) : Prop :=
  StronglySorted (fun a b => Cal.ltb a b = true) idx.


(** ** Sample data: a keyword with the same value on every day of a month *)

Definition month_days (y m : Z) : list date :=
  map (fun i => Cal.mkdate y m (Z.of_nat i + 1)) (seq 0 (Z.to_nat (Cal.monthrange y m))).

(** The table a daily chunk of the month brings when the value is [v] on
    every day. *)
Definition constant_chunk (word : string) (y m : Z) (v : Z) : frame :=
  mkframe (month_days y m)
    [(word, map (fun _ => Fin (Qc_of_Z v)) (month_days y m));
     ("isPartial"%string, map (fun _ => flag false) (month_days y m))].

(** The table of a monthly query: one row per month start. *)
Definition monthly_table (word : string) (rows : list (date * Z)) : frame :=
  mkframe (map fst rows)
    [(word, map (fun r => Fin (Qc_of_Z r.2)) rows);
     ("isPartial"%string, map (fun _ => flag false) rows)].

(** The rational a cell holds, if it holds one. *)
Definition rational (v : value) : option Q :=
  match v with Fin q => Some (this q) | _ => None end.


(** A column without a missing cell below a cell that is not missing. *)
Definition gap_free (c : column) : Prop :=
  forall (i j : nat) v,
    c !! i = Some v -> isna v = false -> (i <= j < length c)%nat ->
    exists v', c !! j = Some v' /\ isna v' = false.

(** ** The arithmetic of the scaling in binary64 *)

(** The cells of a pandas column are IEEE binary64 numbers, and every sum,
    quotient and product of lines 159 to 168 is rounded to the nearest of
    them.  [F64] is that arithmetic on the rows of one month whose first
    day is among them and none of whose cells is missing: the month's
    average, line 159, the scale, line 167, and the scaled rows, line 168. *)
Module F64.
Import PrimFloat.

(** An integer cell, as the service returns it. *)
Definition of_Z (z : Z) : float := of_uint63 (Uint63.of_Z z).

(** The sum of a column from its first row on. *)
Definition sum (l : list float) : float := fold_left add l 0%float.

(** [mean()] of a column without missing cell. *)
Definition mean (l : list float) : float :=
  (sum l / of_Z (Z.of_nat (length l)))%float.

(** [complete['scale']] on the rows of the month: the baseline [k] of the
    month by the month's average. *)
Definition scale (k : float) (raw : list float) : float := (k / mean raw)%float.

(** The scaled column on the rows of the month. *)
Definition scaled (k : float) (raw : list float) : list float :=
  map (fun x => (x * scale k raw)%float) raw.

End F64.

(* ================================================================== *)
(** * Properties *)

(** ** Facts about dates *)

Module CalFacts.
Import Cal.

Lemma andb_prop_eq (a b : bool) : a && b = true <-> a = true /\ b = true.
Proof. destruct a, b; simpl; intuition congruence. Qed.

(** Turn boolean comparisons of integers into propositions. *)
Ltac zify_bool :=
  repeat match goal with
  | H : _ && _ = true |- _ => apply andb_prop_eq in H; destruct H
  | H : _ || _ = true |- _ => apply orb_true_iff in H
  | H : negb _ = true |- _ => apply negb_true_iff in H
  | H : (_ <? _) = true |- _ => apply Z.ltb_lt in H
  | H : (_ <? _) = false |- _ => apply Z.ltb_ge in H
  | H : (_ <=? _) = true |- _ => apply Z.leb_le in H
  | H : (_ <=? _) = false |- _ => apply Z.leb_gt in H
  | H : (_ =? _) = true |- _ => apply Z.eqb_eq in H
  | H : (_ =? _) = false |- _ => apply Z.eqb_neq in H
  end.

Lemma ltb_lt (a b : date) :
  ltb a b = true <->
  year a < year b \/ (year a = year b /\
    (month a < month b \/ (month a = month b /\ day a < day b))).
Proof.
  unfold ltb.
  rewrite orb_true_iff, andb_prop_eq, orb_true_iff, andb_prop_eq.
  rewrite !Z.ltb_lt, !Z.eqb_eq. tauto.
Qed.

Lemma ltb_ge (a b : date) :
  ltb a b = false <->
  year b < year a \/ (year a = year b /\
    (month b < month a \/ (month a = month b /\ day b <= day a))).
Proof.
  rewrite <- not_true_iff_false, ltb_lt. lia.
Qed.

Lemma leb_le (a b : date) :
  leb a b = true <->
  year a < year b \/ (year a = year b /\
    (month a < month b \/ (month a = month b /\ day a <= day b))).
Proof.
  unfold leb. rewrite negb_true_iff, ltb_ge. lia.
Qed.

Lemma date_eq (a b : date) :
  year a = year b -> month a = month b -> day a = day b -> a = b.
Proof. destruct a, b; simpl; congruence. Qed.

Lemma monthrange_bounds y m : 1 <= m <= 12 -> 28 <= monthrange y m <= 31.
Proof.
  intros Hm. unfold monthrange.
  assert (m = 1 \/ m = 2 \/ m = 3 \/ m = 4 \/ m = 5 \/ m = 6 \/ m = 7 \/ m = 8
          \/ m = 9 \/ m = 10 \/ m = 11 \/ m = 12) as Hc by lia.
  destruct (isleap y);
    repeat (destruct Hc as [-> | Hc]; [vm_compute; intuition discriminate |]);
    subst; vm_compute; intuition discriminate.
Qed.

Lemma valid_iff d :
  valid d <->
  1 <= year d <= 9999 /\ 1 <= month d <= 12 /\ 1 <= day d <= monthrange (year d) (month d).
Proof.
  unfold valid, valid_ymd.
  rewrite !andb_prop_eq, !Z.leb_le. tauto.
Qed.

Lemma mk_ok y m d :
  1 <= y <= 9999 -> 1 <= m <= 12 -> 1 <= d <= monthrange y m ->
  mk y m d = Ok (mkdate y m d).
Proof.
  intros Hy Hm Hd. unfold mk.
  replace (valid_ymd y m d) with true; [done |].
  symmetry. unfold valid_ymd. rewrite !andb_prop_eq, !Z.leb_le. lia.
Qed.

Lemma min2_le (a b : date) : leb a b = true -> min2 a b = a.
Proof. unfold leb, min2. intros H%negb_true_iff. by rewrite H. Qed.

End CalFacts.

Module ChunkFacts.
Import Cal CalFacts.

Lemma divmod12 y c : 0 <= c < 12 -> (12 * y + c) / 12 = y /\ (12 * y + c) mod 12 = c.
Proof.
  intros Hc. split.
  - symmetry. apply (Z.div_unique _ _ _ c); lia.
  - symmetry. apply (Z.mod_unique _ _ y c); lia.
Qed.

Lemma month_end_after_eq y m d n :
  1 <= m <= 12 -> 0 <= n <= 11 ->
  month_end_after (mkdate y m d) n =
    if 12 <? m + n then mkdate (y + 1) (m + n - 12) (monthrange (y + 1) (m + n - 12))
    else mkdate y (m + n) (monthrange y (m + n)).
Proof.
  intros Hm Hn. unfold month_end_after. simpl.
  destruct (Z.ltb_spec 12 (m + n)).
  - replace (12 * y + (m - 1) + n) with (12 * (y + 1) + (m + n - 13)) by lia.
    destruct (divmod12 (y + 1) (m + n - 13)) as [-> ->]; [lia |].
    by replace (m + n - 13 + 1) with (m + n - 12) by lia.
  - replace (12 * y + (m - 1) + n) with (12 * y + (m + n - 1)) by lia.
    destruct (divmod12 y (m + n - 1)) as [-> ->]; [lia |].
    by replace (m + n - 1 + 1) with (m + n) by lia.
Qed.

(** What the loop computes before clamping is the month end of the rule. *)
Lemma tentative_end hiprecision cur :
  start_inv hiprecision cur -> year cur <= 9998 ->
  exists month_last,
    month_end cur = Ok month_last /\
    (if negb hiprecision then add_months month_last 7 else Ok month_last)
    = Ok (month_end_after cur (max_span_months hiprecision - 1)).
Proof.
  destruct cur as [y m d]. intros (Hd & Hy & Hm & Hlow) Hy'. simpl in *. subst d.
  unfold month_end. simpl.
  rewrite mk_ok by (pose proof (monthrange_bounds y m Hm); lia).
  eexists; split; [done |].
  destruct hiprecision; simpl negb; cbv iota.
  - change (max_span_months true - 1) with 0.
    rewrite month_end_after_eq by lia.
    destruct (Z.ltb_spec 12 (m + 0)); [lia |]. by rewrite Z.add_0_r.
  - change (max_span_months false - 1) with 7.
    rewrite month_end_after_eq by lia.
    destruct Hlow as [-> | [-> | ->]]; try done; unfold add_months; simpl.
    + rewrite mk_ok; [done | lia | lia | vm_compute; intuition discriminate].
    + rewrite mk_ok; [done | lia | lia | vm_compute; intuition discriminate].
    + rewrite mk_ok; [done | lia | lia | vm_compute; intuition discriminate].
Qed.

Lemma succ_month_end y m :
  1 <= m <= 12 -> y < 9999 ->
  succ (mkdate y m (monthrange y m))
  = Ok (if m <? 12 then mkdate y (m + 1) 1 else mkdate (y + 1) 1 1).
Proof.
  intros Hm Hy. unfold succ. simpl.
  rewrite Z.ltb_irrefl.
  destruct (Z.ltb_spec m 12); [done |].
  destruct (Z.ltb_spec y 9999); [done | lia].
Qed.

(** The day after a date is later than the date. *)
Lemma succ_later d :
  valid d -> year d <= 9998 ->
  exists next, succ d = Ok next /\ ltb d next = true.
Proof.
  intros (Hy & Hm & Hd)%valid_iff Hy'. unfold succ.
  destruct (Z.ltb_spec (day d) (monthrange (year d) (month d))).
  { eexists; split; [done |]. apply ltb_lt; simpl; lia. }
  destruct (Z.ltb_spec (month d) 12).
  { eexists; split; [done |]. apply ltb_lt; simpl; lia. }
  destruct (Z.ltb_spec (year d) 9999); [| lia].
  eexists; split; [done |]. apply ltb_lt; simpl; lia.
Qed.

Lemma ltb_asym a b : ltb a b = true -> ltb b a = false.
Proof. rewrite ltb_lt, ltb_ge. lia. Qed.

(** The month end of the rule for a start that satisfies the invariant. *)
Lemma month_end_after_shape hiprecision cur :
  start_inv hiprecision cur ->
  forall e, e = month_end_after cur (max_span_months hiprecision - 1) ->
  1 <= month e <= 12 /\ day e = monthrange (year e) (month e) /\
  month_index e = month_index cur + (max_span_months hiprecision - 1) /\
  (hiprecision = false -> month e = 8 \/ month e = 12 \/ month e = 4).
Proof.
  destruct cur as [y m d]. intros (Hd & Hy & Hm & Hlow) e ->.
  simpl in Hd, Hy, Hm, Hlow.
  assert (0 <= max_span_months hiprecision - 1 <= 11) by (destruct hiprecision; simpl; lia).
  rewrite month_end_after_eq by lia. unfold month_index.
  destruct hiprecision; simpl max_span_months in *.
  - destruct (Z.ltb_spec 12 (m + (1 - 1))); simpl; lia.
  - destruct Hlow as [-> | [-> | ->]]; try done; simpl; lia.
Qed.

Lemma chain_step' n stop cur last next rest :
  ltb cur stop = true ->
  last = min2 stop (month_end_after cur n) ->
  leb cur last = true ->
  succ last = Ok next ->
  chain n stop next rest ->
  chain n stop cur ((cur, last) :: rest).
Proof. intros ? -> ? ? ?. by econstructor. Qed.

(** With fuel for the months that remain, the loop returns a chain. *)
Lemma chunk_loop_chain hiprecision stop :
  valid stop -> year stop <= 9998 ->
  forall fuel cur,
    start_inv hiprecision cur ->
    month_index stop - month_index cur < Z.of_nat fuel ->
    exists chunks,
      chunk_loop fuel hiprecision stop cur = Ok chunks /\
      chain (max_span_months hiprecision - 1) stop cur chunks.
Proof.
  intros Hstop Hstopy fuel.
  induction fuel as [| fuel IH]; intros cur Hinv Hfuel.
  - exists []. simpl.
    destruct (ltb cur stop) eqn:Hlt.
    + apply ltb_lt in Hlt. unfold month_index in Hfuel.
      destruct Hinv as (_ & _ & ? & _). apply valid_iff in Hstop. lia.
    + split; [done | by constructor].
  - simpl. destruct (ltb cur stop) eqn:Hlt; [| exists []; split; [done | by constructor]].
    assert (year cur <= 9998) as Hcy by (apply ltb_lt in Hlt; lia).
    destruct (tentative_end hiprecision cur Hinv Hcy) as (ml & Hml & Htent).
    rewrite Hml. cbn [rbind]. rewrite Htent. cbn [rbind].
    remember (month_end_after cur (max_span_months hiprecision - 1)) as e eqn:He.
    pose proof (month_end_after_shape hiprecision cur Hinv e He) as (Hem & Hed & Hei & Hel).
    assert (leb cur e = true) as Hce.
    { apply leb_le. destruct Hinv as (Hd & _ & Hcm & _).
      pose proof (monthrange_bounds (year e) (month e) Hem).
      unfold month_index, max_span_months in Hei. destruct hiprecision; lia. }
    unfold min2 at 1 2. destruct (ltb e stop) eqn:Hes.
    + (* the window ends before stop_date: the next chunk starts a month later *)
      assert (year e <= 9998) as Hey by (apply ltb_lt in Hes; lia).
      assert (succ e = Ok (if month e <? 12 then mkdate (year e) (month e + 1) 1
                           else mkdate (year e + 1) 1 1)) as Hsucc.
      { transitivity (succ (mkdate (year e) (month e) (monthrange (year e) (month e)))).
        - f_equal; try by apply date_eq.
        - apply succ_month_end; lia. }
      rewrite Hsucc. simpl.
      set (next := if month e <? 12 then _ else _) in *.
      assert (start_inv hiprecision next /\ month_index next = month_index e + 1) as [Hnext Hni].
      { destruct Hinv as (_ & Hy & Hcm & _). unfold start_inv, month_index, next.
        assert (year cur <= year e)
          by (unfold month_index, max_span_months in Hei; destruct hiprecision; lia).
        destruct (Z.ltb_spec (month e) 12); simpl; repeat split; try lia;
          intros Hlow; specialize (Hel Hlow); lia. }
      destruct (IH next Hnext) as (rest & -> & Hchain).
      { apply ltb_lt in Hes. unfold month_index in *. destruct hiprecision; simpl in *; lia. }
      eexists; split; [done |].
      subst e. eapply chain_step'; [done | | | done | done].
      * unfold min2. by rewrite Hes.
      * done.
    + (* the window reaches stop_date: this is the last chunk *)
      destruct (succ_later stop Hstop Hstopy) as (next & Hsucc & Hlater).
      rewrite Hsucc. simpl.
      assert (chunk_loop fuel hiprecision stop next = Ok []) as ->.
      { destruct fuel; simpl; by rewrite (ltb_asym _ _ Hlater). }
      eexists; split; [done |].
      subst e. eapply chain_step'; [done | | | done | constructor; by apply ltb_asym].
      * unfold min2. by rewrite Hes.
      * apply leb_le. apply ltb_lt in Hlt. lia.
Qed.

Lemma min2_valid a b : valid a -> valid b -> valid (min2 a b).
Proof. unfold min2. by destruct (ltb b a). Qed.

Lemma min2_year_le a b : year (min2 a b) <= year b.
Proof.
  unfold min2. destruct (ltb b a) eqn:H; [lia |]. apply ltb_ge in H. lia.
Qed.

(** [daily_chunks] returns, and what it returns is a chain from the first
    of January of [start_year] up to [min(31 December of stop_year, today)]. *)
Lemma daily_chunks_chain hiprecision start_year stop_year today :
  1 <= start_year <= 9999 -> 1 <= stop_year <= 9999 ->
  valid today -> year today <= 9998 ->
  exists chunks,
    daily_chunks hiprecision start_year stop_year today = Ok chunks /\
    chain (max_span_months hiprecision - 1)
      (min2 (mkdate stop_year 12 31) today) (mkdate start_year 1 1) chunks.
Proof.
  intros Hs He Ht Hty. unfold daily_chunks.
  rewrite !mk_ok by (try lia; vm_compute; intuition discriminate). cbn [rbind].
  apply chunk_loop_chain.
  - apply min2_valid; [| done]. apply valid_iff. simpl.
    split; [lia |]. vm_compute; intuition discriminate.
  - pose proof (min2_year_le (mkdate stop_year 12 31) today). lia.
  - unfold start_inv; simpl. repeat split; try lia; auto.
  - unfold chunk_fuel, month_index. simpl.
    assert (year (min2 (mkdate stop_year 12 31) today) <= stop_year).
    { unfold min2. destruct (ltb _ _) eqn:H; [| simpl; lia].
      apply ltb_lt in H. simpl in H. lia. }
    assert (month (min2 (mkdate stop_year 12 31) today) <= 12).
    { unfold min2. destruct (ltb _ _); [| simpl; lia]. apply valid_iff in Ht. lia. }
    lia.
Qed.

(** Consequences of the rule for a list of chunks. *)
Lemma chain_ends n stop cur chunks :
  chain n stop cur chunks ->
  forall c, c ∈ chunks -> c.2 = min2 stop (month_end_after c.1 n).
Proof.
  induction 1 as [| cur next rest Hlt Hle Hsucc Hchain IH]; intros c Hc.
  - by apply elem_of_nil in Hc.
  - apply elem_of_cons in Hc as [-> | Hc]; [done | by apply IH].
Qed.

Lemma chain_head n stop cur chunks c :
  chain n stop cur chunks -> chunks !! 0%nat = Some c -> c.1 = cur.
Proof. destruct 1; simpl; intros [= <-]; done. Qed.

Lemma chain_adjacent n stop cur chunks :
  chain n stop cur chunks ->
  forall (i : nat) c c',
    chunks !! i = Some c -> chunks !! S i = Some c' -> succ c.2 = Ok c'.1.
Proof.
  induction 1 as [| cur next rest Hlt Hle Hsucc Hchain IH]; intros i c c' Hi Hi'.
  - done.
  - destruct i as [| i]; simpl in *.
    + injection Hi as <-. simpl.
      by rewrite (chain_head _ _ _ _ _ Hchain Hi').
    + by eapply IH.
Qed.

Lemma succ_spec e next : succ e = Ok next -> ltb e next = true.
Proof.
  unfold succ. intros H. apply ltb_lt.
  destruct (Z.ltb_spec (day e) (monthrange (year e) (month e)));
    [injection H as <-; simpl; lia |].
  destruct (Z.ltb_spec (month e) 12); [injection H as <-; simpl; lia |].
  destruct (Z.ltb_spec (year e) 9999); [injection H as <-; simpl; lia | done].
Qed.

(** No date lies between a date and the day after it. *)
Lemma succ_least e next d :
  succ e = Ok next -> valid d -> ltb e d = true -> leb next d = true.
Proof.
  unfold succ. intros H (Hy & Hm & Hd)%valid_iff Hlt%ltb_lt. apply leb_le.
  destruct (Z.ltb_spec (day e) (monthrange (year e) (month e)));
    [injection H as <-; simpl; lia |].
  destruct (Z.ltb_spec (month e) 12).
  { injection H as <-; simpl.
    destruct (Z.eq_dec (year e) (year d)) as [Hye |]; [| lia].
    destruct (Z.eq_dec (month e) (month d)) as [Hme |]; [| lia].
    rewrite Hye, Hme in *. lia. }
  destruct (Z.ltb_spec (year e) 9999); [| done].
  injection H as <-; simpl.
  destruct (Z.eq_dec (year e) (year d)) as [Hye |]; [| lia].
  destruct (Z.eq_dec (month e) (month d)) as [Hme |]; [| lia].
  rewrite Hye, Hme in *. lia.
Qed.

Lemma min2_le_l a b : leb (min2 a b) a = true.
Proof.
  unfold min2. destruct (ltb b a) eqn:H; apply leb_le.
  - apply ltb_lt in H. lia.
  - lia.
Qed.

(** Every chunk of a chain starts at or after the chain's start, has its
    start before or on its end, and ends at or before [stop]. *)
Lemma chain_bounds n stop cur chunks :
  chain n stop cur chunks ->
  forall c, c ∈ chunks ->
    leb cur c.1 = true /\ leb c.1 c.2 = true /\ leb c.2 stop = true.
Proof.
  induction 1 as [| cur next rest Hlt Hle Hsucc Hchain IH]; intros c Hc.
  - by apply elem_of_nil in Hc.
  - apply elem_of_cons in Hc as [-> | Hc]; simpl.
    + repeat split; [apply leb_le; lia | done | apply min2_le_l].
    + destruct (IH c Hc) as (H1 & H2 & H3). repeat split; try done.
      apply succ_spec in Hsucc.
      apply leb_le. apply leb_le in H1, Hle. apply ltb_lt in Hsucc. lia.
Qed.

(** Chunks are in chronological order and do not overlap: a chunk ends
    before any later chunk starts. *)
Lemma chain_ordered n stop cur chunks :
  chain n stop cur chunks ->
  forall (i j : nat) c c',
    (i < j)%nat -> chunks !! i = Some c -> chunks !! j = Some c' ->
    ltb c.2 c'.1 = true.
Proof.
  induction 1 as [| cur next rest Hlt Hle Hsucc Hchain IH]; intros i j c c' Hij Hi Hj.
  - done.
  - destruct j as [| j]; [lia |]. simpl in Hj.
    destruct i as [| i]; simpl in Hi.
    + injection Hi as <-. simpl.
      apply list_elem_of_lookup_2 in Hj.
      destruct (chain_bounds _ _ _ _ Hchain c' Hj) as (H1 & _).
      apply succ_spec in Hsucc.
      apply ltb_lt. apply leb_le in H1. apply ltb_lt in Hsucc. lia.
    + eapply (IH i j); [lia | done | done].
Qed.

(** The days covered by a chain are days from its start to [stop], and
    every day from its start up to the day before [stop] is covered. *)
Lemma chain_covered_within n stop cur chunks d :
  chain n stop cur chunks -> covered chunks d = true ->
  leb cur d = true /\ leb d stop = true.
Proof.
  intros Hchain (c & Hc & Hcov)%existsb_exists.
  apply list_elem_of_In in Hc.
  destruct (chain_bounds _ _ _ _ Hchain c Hc) as (H1 & H2 & H3).
  unfold covers in Hcov. apply andb_prop_eq in Hcov as [Ha Hb].
  split; apply leb_le; apply leb_le in H1, H2, H3, Ha, Hb; lia.
Qed.

Lemma chain_covers n stop cur chunks :
  chain n stop cur chunks ->
  forall d, valid d -> leb cur d = true -> ltb d stop = true ->
  covered chunks d = true.
Proof.
  induction 1 as [| cur next rest Hlt Hle Hsucc Hchain IH]; intros d Hd Hcd Hds.
  - apply ltb_ge in H. apply leb_le in Hcd. apply ltb_lt in Hds. lia.
  - simpl. unfold covers at 1. simpl. rewrite Hcd. simpl.
    destruct (leb d (min2 stop (month_end_after cur n))) eqn:Hde; [done |]. simpl.
    apply IH; [done | | done].
    eapply succ_least; [done | done |].
    unfold leb in Hde. by apply negb_false_iff in Hde.
Qed.

End ChunkFacts.

Example daily_chunks_2020 :
  daily_chunks false 2020 2020 (Cal.mkdate 2026 11 4)
  = Ok [(Cal.mkdate 2020 1 1, Cal.mkdate 2020 8 31);
        (Cal.mkdate 2020 9 1, Cal.mkdate 2020 12 31)].
Proof. reflexivity. Qed.

Example daily_chunks_first_of_month :
  daily_chunks false 2020 2020 (Cal.mkdate 2020 9 1)
  = Ok [(Cal.mkdate 2020 1 1, Cal.mkdate 2020 8 31)].
Proof. reflexivity. Qed.

(** ** The chunker: what holds for every range *)

(** For every range the chunks come back (the loop neither raises nor runs
    out of fuel), in chronological order, without overlap, each starting on
    or before its end; they cover no day outside [start, stop_date] and
    every day from the start up to the day before [stop_date]. *)
Lemma daily_chunks_cover hiprecision start_year stop_year today :
  1 <= start_year <= 9999 -> 1 <= stop_year <= 9999 ->
  Cal.valid today -> Cal.year today <= 9998 ->
  let start_date := Cal.mkdate start_year 1 1 in
  let stop_date := Cal.min2 (Cal.mkdate stop_year 12 31) today in
  exists chunks,
    daily_chunks hiprecision start_year stop_year today = Ok chunks /\
    (forall c, c ∈ chunks -> Cal.leb c.1 c.2 = true) /\
    (forall (i j : nat) c c', (i < j)%nat -> chunks !! i = Some c -> chunks !! j = Some c' ->
       Cal.ltb c.2 c'.1 = true) /\
    (forall d, covered chunks d = true ->
       Cal.leb start_date d = true /\ Cal.leb d stop_date = true) /\
    (forall d, Cal.valid d -> Cal.leb start_date d = true -> Cal.ltb d stop_date = true ->
       covered chunks d = true).
Proof.
  intros Hs He Ht Hty start_date stop_date.
  destruct (ChunkFacts.daily_chunks_chain hiprecision start_year stop_year today)
    as (chunks & Hrun & Hchain); try done.
  exists chunks. split; [done |]. split; [| split; [| split]].
  - intros c Hc. by destruct (ChunkFacts.chain_bounds _ _ _ _ Hchain c Hc) as (_ & ? & _).
  - by apply (ChunkFacts.chain_ordered _ _ _ _ Hchain).
  - intros d Hd. by eapply ChunkFacts.chain_covered_within.
  - by apply (ChunkFacts.chain_covers _ _ _ _ Hchain).
Qed.

(** C2, at the input where it fails: on 1 September 2020 the range of the
    year 2020 is [2020-01-01, 2020-09-01]; the loop stops when
    [current = stop_date], so the only chunk ends on 31 August and the
    last day of the range is in no chunk. *)
Theorem chunker_drops_stop_date_at_chunk_start :
  let today := Cal.mkdate 2020 9 1 in
  let start_date := Cal.mkdate 2020 1 1 in
  let stop_date := Cal.min2 (Cal.mkdate 2020 12 31) today in
  daily_chunks false 2020 2020 today
    = Ok [(Cal.mkdate 2020 1 1, Cal.mkdate 2020 8 31)] /\
  Cal.valid stop_date /\
  Cal.leb start_date stop_date = true /\
  covered [(Cal.mkdate 2020 1 1, Cal.mkdate 2020 8 31)] stop_date = false.
Proof. repeat split. Qed.

(** C3: in the eight-month mode every chunk ends on the last day of the
    month seven months after the month of its start, clamped to
    [stop_date]; a chunk starts on the day after the end of the chunk before
    it; and for the year 2020, once the year is over, the chunks are
    (2020-01-01, 2020-08-31) and (2020-09-01, 2020-12-31). *)
Theorem chunk_end_rule (start_year stop_year : Z) (today : date) :
  1 <= start_year <= 9999 -> 1 <= stop_year <= 9999 ->
  Cal.valid today -> Cal.year today <= 9998 ->
  let stop_date := Cal.min2 (Cal.mkdate stop_year 12 31) today in
  exists chunks,
    daily_chunks false start_year stop_year today = Ok chunks /\
    (forall c, c ∈ chunks -> c.2 = Cal.min2 stop_date (month_end_after c.1 7)) /\
    (forall (i : nat) c c', chunks !! i = Some c -> chunks !! S i = Some c' ->
       Cal.succ c.2 = Ok c'.1) /\
    (start_year = 2020 -> stop_year = 2020 ->
     Cal.leb (Cal.mkdate 2020 12 31) today = true ->
     chunks = [(Cal.mkdate 2020 1 1, Cal.mkdate 2020 8 31);
               (Cal.mkdate 2020 9 1, Cal.mkdate 2020 12 31)]).
Proof.
  intros Hs He Ht Hty stop_date.
  destruct (ChunkFacts.daily_chunks_chain false start_year stop_year today)
    as (chunks & Hrun & Hchain); try done.
  exists chunks. split; [done |]. split; [| split].
  - by apply (ChunkFacts.chain_ends _ _ _ _ Hchain).
  - by apply (ChunkFacts.chain_adjacent _ _ _ _ Hchain).
  - intros -> -> Hover.
    unfold daily_chunks in Hrun. simpl in Hrun.
    rewrite (CalFacts.min2_le _ _ Hover) in Hrun.
    vm_compute in Hrun. by injection Hrun as <-.
Qed.

Lemma chunk_end_rule_witness :
  let today := Cal.mkdate 2026 11 4 in
  exists chunks,
    daily_chunks false 2020 2020 today = Ok chunks /\
    (forall c, c ∈ chunks ->
       c.2 = Cal.min2 (Cal.min2 (Cal.mkdate 2020 12 31) today) (month_end_after c.1 7)) /\
    (forall (i : nat) c c', chunks !! i = Some c -> chunks !! S i = Some c' ->
       Cal.succ c.2 = Ok c'.1) /\
    (2020 = 2020 -> 2020 = 2020 ->
     Cal.leb (Cal.mkdate 2020 12 31) today = true ->
     chunks = [(Cal.mkdate 2020 1 1, Cal.mkdate 2020 8 31);
               (Cal.mkdate 2020 9 1, Cal.mkdate 2020 12 31)]).
Proof.
  apply (chunk_end_rule 2020 2020 (Cal.mkdate 2026 11 4)); [lia | lia | reflexivity | simpl; lia].
Defined.

(** ** The monthly read path *)

(** C9: [getMonthlyDataFromDB] does not look at its [uniformdata] flag: with
    the flag set and with the flag cleared it returns the same result and
    leaves the same world, for every database, keyword and range. *)
Theorem monthly_read_ignores_uniformdata
    (today : date) (dbpath word geo : string) (cat start_year stop_year : Z) (w : world) :
  getMonthlyDataFromDB today dbpath word geo cat start_year stop_year true w
  = getMonthlyDataFromDB today dbpath word geo cat start_year stop_year false w.
Proof. reflexivity. Qed.

(** What it returns: the row medians of the stored monthly table, cut to
    the requested range. *)
Lemma monthly_read_returns today dbpath word geo cat start_year stop_year uniformdata w
    book sheet :
  1 <= start_year <= 9999 -> 1 <= stop_year <= 9999 ->
  files w !! db_file dbpath cat word geo = Some book ->
  book !! "monthly"%string = Some sheet ->
  getMonthlyDataFromDB today dbpath word geo cat start_year stop_year uniformdata w
  = (Ok (Some (median_frame
                 (slice sheet (Cal.mkdate start_year 1 1)
                    (Cal.min2 (Cal.mkdate stop_year 12 31) today))
                 (col_scaled word geo))), w).
Proof.
  intros Hs He Hbook Hsheet. unfold getMonthlyDataFromDB, bind, lift, isfile, read_excel.
  rewrite !CalFacts.mk_ok by (try lia; vm_compute; intuition discriminate).
  rewrite Hbook. rewrite bool_decide_eq_true_2 by done.
  cbv beta iota. by rewrite Hbook, Hsheet.
Qed.

(** ** The retry loop of [_fetchData] *)

Module FetchFacts.

(** What [k] rate-limited attempts leave in the trace, when the attempt
    counter stood at [a] before them. *)
Fixpoint retries (timeframe : string) (a : Z) (k : nat) : list event :=
  match k with
  | O => []
  | S k' =>
      [EvBuildPayload timeframe; EvPrint "ResponseError";
       EvPrint ("Trying again in " ++ digits (60 + 5 * a) ++ " seconds.")%string;
       EvSleep (inject_Z (60 + 5 * a))]
      ++ retries timeframe (a + 1) k'
  end.

Lemma with_trace_trace w n evs n' evs' :
  with_trace (with_trace w n evs) n' evs' = with_trace w n' (evs ++ evs').
Proof. unfold with_trace. simpl. by rewrite app_assoc. Qed.

(** After [k] rate-limit errors the loop is at its next attempt, having
    slept 60 + 5 a, 60 + 5 (a + 1), ... seconds: the counter is never reset. *)
Lemma fetch_loop_retries timeframe k : forall fuel a w,
  (forall i, (i < k)%nat -> service w (asked w + i) = Failure ResponseError) ->
  fetch_loop (k + fuel) timeframe a w
  = fetch_loop fuel timeframe (a + Z.of_nat k)
      (with_trace w (asked w + k) (retries timeframe a k)).
Proof.
  induction k as [| k IH]; intros fuel a w Hfail.
  - simpl. rewrite Z.add_0_r. f_equal. unfold with_trace.
    destruct w; simpl. by rewrite Nat.add_0_r, app_nil_r.
  - cbn [Nat.add fetch_loop].
    unfold build_payload at 1, bind at 1, request at 1.
    pose proof (Hfail 0%nat ltac:(lia)) as H0. rewrite Nat.add_0_r in H0. rewrite H0.
    unfold bind, print, sleep, emit. cbn [service asked entropy drawn files trace].
    rewrite IH.
    + f_equal; [lia |]. unfold with_trace. simpl.
      rewrite <- !app_assoc. simpl. f_equal. lia.
    + intros i Hi. simpl. rewrite <- (Hfail (S i)) by lia. f_equal. lia.
Qed.

(** An attempt that the service answers ends the loop. *)
Lemma fetch_loop_answer timeframe fuel a w rows :
  service w (asked w) = Answer rows ->
  fetch_loop (S fuel) timeframe a w
  = (Ok tt, with_trace w (S (asked w)) [EvBuildPayload timeframe]).
Proof.
  intros H. cbn [fetch_loop]. unfold build_payload, bind, request, ret. by rewrite H.
Qed.

(** An error that is not a [ResponseError] leaves the loop at once: nothing
    is printed, slept or retried. *)
Lemma fetch_loop_other timeframe fuel a w e :
  service w (asked w) = Failure e -> e <> ResponseError ->
  fetch_loop (S fuel) timeframe a w
  = (Raise e, with_trace w (S (asked w)) [EvBuildPayload timeframe]).
Proof.
  intros H He. cbn [fetch_loop]. unfold build_payload, bind, request, ret. rewrite H.
  by destruct e.
Qed.

(** [_fetchData] when the service answers both requests. *)
Lemma fetchData_answers fuel word timeframe w rows rows' :
  service w (asked w) = Answer rows ->
  service w (S (asked w)) = Answer rows' ->
  exists fr,
    _fetchData (S fuel) word timeframe w
    = (Ok fr, with_trace w (S (S (asked w))) [EvBuildPayload timeframe; EvInterestOverTime])
    /\ (fr = empty_frame \/ names fr = [word; "isPartial"%string]).
Proof.
  intros H0 H1. unfold _fetchData, bind at 1.
  rewrite (fetch_loop_answer _ _ _ _ _ H0).
  unfold interest_over_time, bind, request, with_trace. simpl. rewrite H1.
  destruct rows' as [| r rows'].
  - eexists; split; [unfold ret; by rewrite <- app_assoc | by left].
  - eexists; split; [unfold ret; by rewrite <- app_assoc | by right].
Qed.

End FetchFacts.

(** C5, at the input where it fails: the service answers the request of
    [build_payload] and rate-limits the request of
    [pytrends.interest_over_time()], which [_fetchData] makes outside its
    [try]: the [ResponseError] reaches the caller, with no sleep and no
    retry. *)
Theorem fetchData_surfaces_rate_limit_of_interest_over_time
    (fuel : nat) (word timeframe : string) :
  let service n := match n with O => Answer [] | _ => Failure ResponseError end in
  _fetchData (S fuel) word timeframe (mkworld service 0 (fun _ => 0) 0 ∅ [])
  = (Raise ResponseError,
     mkworld service 2 (fun _ => 0) 0 ∅ [EvBuildPayload timeframe; EvInterestOverTime]).
Proof. reflexivity. Qed.

(** ** The pacing delay of [getDailyDataOnce] *)

Module PaceFacts.
Import FetchFacts.

Lemma bind_ok {A B} (m : M A) (k : A -> M B) w a w1 :
  m w = (Ok a, w1) -> bind m k w = k a w1.
Proof. unfold bind. by intros ->. Qed.

Lemma bind_raise {A B} (m : M A) (k : A -> M B) w e w1 :
  m w = (Raise e, w1) -> bind m k w = (Raise e, w1).
Proof. unfold bind. by intros ->. Qed.

Lemma bind_lift_ok {A B} (a : A) (k : A -> M B) w : bind (lift (Ok a)) k w = k a w.
Proof. done. Qed.

Lemma bind_emit {B} (e : event) (k : unit -> M B) w :
  bind (emit e) k w = k tt (with_trace w (asked w) [e]).
Proof. done. Qed.

(** [randrange(start, stop)] raises when [stop <= start]. *)
Lemma randrange_empty start stop w :
  (stop <= inject_Z start)%Q -> randrange start stop w = (Raise ValueError, w).
Proof.
  intros Hle. unfold randrange.
  destruct (Pos.eqb_spec (Qden (Qred stop)) 1) as [Hden | Hden]; [| done]. simpl.
  assert (Qnum (Qred stop) <= start) as Hnum.
  { pose proof (Qred_correct stop) as Heq.
    rewrite <- Heq in Hle. unfold Qle in Hle. rewrite Hden in Hle. simpl in Hle. lia. }
  destruct (Z.ltb_spec 0 (Qnum (Qred stop) - start)); [lia | done].
Qed.

End PaceFacts.

(** C10: with [wait_time <= 1.0] and a range that needs a daily chunk,
    [getDailyDataOnce] ends in the ValueError of
    [randrange(10, 10*wait_time)], although the service answered every
    request: the monthly query and the query of the first chunk, two
    requests each, have been made when it raises.  So the error cannot be
    avoided unless [wait_time > 1.0]. *)
Theorem pacing_fails_for_small_wait_time
    (fuel : nat) (today : date) (word : string) (start_year stop_year : Z) (geo : string)
    (tz cat : Z) (verbose : bool) (wait_time : Q) (w : world) :
  (wait_time <= 1)%Q ->
  1 <= start_year <= 9999 -> 1 <= stop_year <= 9999 ->
  Cal.ltb (Cal.mkdate start_year 1 1) (Cal.min2 (Cal.mkdate stop_year 12 31) today) = true ->
  (forall n, exists rows, service w n = Answer rows) ->
  exists w',
    getDailyDataOnce (S fuel) today word start_year stop_year geo tz cat verbose wait_time w
    = (Raise ValueError, w') /\
    asked w' = (asked w + 4)%nat.
Proof.
  intros Hwait Hs He Hlt Hsrv. unfold getDailyDataOnce.
  rewrite !CalFacts.mk_ok by (try lia; vm_compute; intuition discriminate).
  rewrite !PaceFacts.bind_lift_ok.
  unfold TrendReq. rewrite PaceFacts.bind_emit.
  rewrite PaceFacts.bind_lift_ok.
  set (w1 := with_trace w _ _).
  destruct (Hsrv (asked w1)) as [rows0 H0]. destruct (Hsrv (S (asked w1))) as [rows1 H1].
  destruct (FetchFacts.fetchData_answers fuel word
              (getTimeframe (Cal.mkdate 2004 1 1) (Cal.min2 (Cal.mkdate stop_year 12 31) today))
              w1 rows0 rows1 H0 H1) as (monthly & Hfetch & _).
  rewrite (PaceFacts.bind_ok _ _ _ _ _ Hfetch). clear Hfetch.
  set (w2 := with_trace w1 _ _).
  assert (exists n, chunk_fuel start_year stop_year = S n) as [n ->].
  { unfold chunk_fuel. apply CalFacts.ltb_lt in Hlt.
    pose proof (ChunkFacts.min2_year_le (Cal.mkdate stop_year 12 31) today) as Hy.
    assert (Cal.year (Cal.min2 (Cal.mkdate stop_year 12 31) today) <= stop_year) as Hy'.
    { unfold Cal.min2. destruct (Cal.ltb _ _) eqn:E; [| simpl; lia].
      apply CalFacts.ltb_lt in E. simpl in E. lia. }
    simpl in Hlt.
    exists (Z.to_nat (12 * (stop_year - start_year + 1))). lia. }
  assert (exists w', once_loop (S fuel) (S n) word geo verbose wait_time
                       (Cal.min2 (Cal.mkdate stop_year 12 31) today)
                       (Cal.mkdate start_year 1 1) [] w2 = (Raise ValueError, w')
                     /\ asked w' = (asked w + 4)%nat) as (w' & Hloop & Hasked).
  { cbn [once_loop]. rewrite Hlt.
    assert (Cal.month_end (Cal.mkdate start_year 1 1) = Ok (Cal.mkdate start_year 1 31)) as ->.
    { unfold Cal.month_end. simpl.
      apply CalFacts.mk_ok; [lia | lia | vm_compute; intuition discriminate]. }
    rewrite PaceFacts.bind_lift_ok.
    set (tf := getTimeframe _ _).
    set (said := if verbose then _ else _).
    assert (exists w3, said w2 = (Ok tt, w3) /\ service w3 = service w /\ asked w3 = asked w2)
      as (w3 & Hsaid & Hsrv3 & Hask3).
    { unfold said. destruct verbose; eexists; (split; [reflexivity | done]). }
    rewrite (PaceFacts.bind_ok _ _ _ _ _ Hsaid).
    destruct (Hsrv (asked w3)) as [rows2 H2]. destruct (Hsrv (S (asked w3))) as [rows3 H3].
    rewrite <- Hsrv3 in H2, H3.
    destruct (FetchFacts.fetchData_answers fuel word tf w3 rows2 rows3 H2 H3)
      as (chunk & Hfetch & _).
    rewrite (PaceFacts.bind_ok _ _ _ _ _ Hfetch). clear Hfetch.
    assert (Cal.succ (Cal.mkdate start_year 1 31) = Ok (Cal.mkdate start_year 2 1)) as ->
      by reflexivity.
    rewrite PaceFacts.bind_lift_ok.
    eexists. split.
    - apply PaceFacts.bind_raise. apply PaceFacts.randrange_empty.
      change (inject_Z 10) with 10%Q. lra.
    - simpl. rewrite Hask3. simpl. lia. }
  exists w'. split; [| done]. by apply PaceFacts.bind_raise.
Qed.

Lemma pacing_fails_for_small_wait_time_witness :
  exists w',
    getDailyDataOnce 1 (Cal.mkdate 2026 11 4) "flu" 2020 2020 "US" 240 0 true 1
      (mkworld (fun _ => Answer []) 0 (fun _ => 0) 0 ∅ [])
    = (Raise ValueError, w') /\
    asked w' = 4%nat.
Proof.
  apply (pacing_fails_for_small_wait_time 0 (Cal.mkdate 2026 11 4) "flu" 2020 2020 "US"
           240 0 true 1 (mkworld (fun _ => Answer []) 0 (fun _ => 0) 0 ∅ [])).
  - vm_compute. discriminate.
  - lia.
  - lia.
  - reflexivity.
  - intros n. by exists [].
Defined.

(** ** The database: a second build on the same day *)

Module StoreFacts.
Import FetchFacts PaceFacts.

Lemma bind_ok_inv {A B} (m : M A) (k : A -> M B) w b w' :
  bind m k w = (Ok b, w') -> exists a w1, m w = (Ok a, w1) /\ k a w1 = (Ok b, w').
Proof.
  unfold bind. destruct (m w) as [[a | e |] w1]; [| done | done]. intros H. by exists a, w1.
Qed.

Lemma lift_ok_inv {A} (r : result A) w a w' :
  lift r w = (Ok a, w') -> r = Ok a /\ w' = w.
Proof. unfold lift. by intros [= -> ->]. Qed.

(** Requests are only ever added. *)
Definition mono {A} (m : M A) : Prop :=
  forall w r w', m w = (r, w') -> (asked w <= asked w')%nat.

Lemma mono_ret {A} (a : A) : mono (ret a).
Proof. intros w r w' [= _ <-]. lia. Qed.

Lemma mono_lift {A} (r : result A) : mono (lift r).
Proof. intros w r' w' [= _ <-]. lia. Qed.

Lemma mono_emit e : mono (emit e).
Proof. intros w r w' [= _ <-]. simpl. lia. Qed.

Lemma mono_bind {A B} (m : M A) (k : A -> M B) :
  mono m -> (forall a, mono (k a)) -> mono (bind m k).
Proof.
  intros Hm Hk w r w'. unfold bind.
  destruct (m w) as [[a | e |] w1] eqn:E; intros H.
  - apply Hm in E. apply Hk in H. lia.
  - injection H as _ <-. by apply Hm in E.
  - injection H as _ <-. by apply Hm in E.
Qed.

Lemma mono_request e : mono (request e).
Proof.
  intros w r w'. unfold request.
  destruct (service w (asked w)); intros [= _ <-]; simpl; lia.
Qed.

Lemma mono_randrange a b : mono (randrange a b).
Proof.
  intros w r w'. unfold randrange.
  destruct (negb _); [intros [= _ <-]; lia |].
  destruct (0 <? _); intros [= _ <-]; simpl; lia.
Qed.

Lemma mono_build_payload tf : mono (build_payload tf).
Proof. apply mono_bind; [apply mono_request | intros; apply mono_ret]. Qed.

Lemma mono_fetch_loop fuel : forall tf a, mono (fetch_loop fuel tf a).
Proof.
  induction fuel as [| fuel IH]; intros tf a w r w'; cbn [fetch_loop].
  - intros [= _ <-]. lia.
  - destruct (build_payload tf w) as [[[] | e |] w1] eqn:E; apply mono_build_payload in E.
    + intros [= _ <-]. lia.
    + destruct e; try (intros [= _ <-]; lia).
      intros H. unfold bind, print, sleep, emit in H. simpl in H.
      apply IH in H. simpl in H. lia.
    + intros [= _ <-]. lia.
Qed.

Lemma mono_interest word : mono (interest_over_time word).
Proof.
  apply mono_bind; [apply mono_request |]. intros [| r rows]; apply mono_ret.
Qed.

Lemma mono_fetchData fuel word tf : mono (_fetchData fuel word tf).
Proof. apply mono_bind; [apply mono_fetch_loop | intros; apply mono_interest]. Qed.

Lemma mono_raw_loop fuel n : forall word geo cat verbose hiprecision wait_time stop cur results,
  mono (raw_loop fuel n word geo cat verbose hiprecision wait_time stop cur results).
Proof.
  induction n as [| n IH]; intros; cbn [raw_loop];
    (destruct (Cal.ltb cur stop); [| apply mono_ret]).
  - apply mono_lift.
  - repeat first
      [ apply mono_lift | apply mono_fetchData | apply mono_randrange
      | apply mono_emit | apply mono_ret | apply IH
      | match goal with |- mono (if ?b then _ else _) => destruct b end
      | apply mono_bind; [| intros ?] ].
Qed.

Lemma mono_getRawDailyData fuel today word sy ey geo tz cat verbose hi wait :
  mono (_getRawDailyData fuel today word sy ey geo tz cat verbose hi wait).
Proof.
  unfold _getRawDailyData.
  repeat first
    [ apply mono_lift | apply mono_raw_loop | apply mono_emit | apply mono_ret
    | apply mono_bind; [| intros ?] ].
Qed.

(** A fetch that returns has made a request, and its table is empty or
    has the keyword's column and [isPartial]. *)
Lemma fetchData_ok fuel word tf w fr w' :
  _fetchData fuel word tf w = (Ok fr, w') ->
  (asked w < asked w')%nat /\ (fr = empty_frame \/ names fr = [word; "isPartial"%string]).
Proof.
  intros H. apply bind_ok_inv in H as ([] & w1 & Hloop & Hiot).
  apply mono_fetch_loop in Hloop.
  unfold interest_over_time in Hiot.
  apply bind_ok_inv in Hiot as (rows & w2 & Hreq & Hret).
  assert (asked w2 = S (asked w1)) as Hask.
  { unfold request in Hreq. destruct (service w1 (asked w1)); by injection Hreq as _ <-. }
  destruct rows as [| r rows]; injection Hret as <- <-; (split; [lia | auto]).
Qed.

Lemma drop_isPartial word idx c1 c2 :
  word <> "isPartial"%string ->
  drop_columns ["isPartial"%string] (mkframe idx [(word, c1); ("isPartial"%string, c2)])
  = Ok (mkframe idx [(word, c1)]).
Proof.
  intros Hne. unfold drop_columns, names, has_name. simpl.
  rewrite orb_true_r. simpl.
  rewrite !filter_cons, filter_nil. simpl.
  apply String.eqb_neq in Hne. by rewrite Hne.
Qed.

(** The first column of the table a build stores is labelled with the day. *)
Lemma names_join_outer l r fr :
  join_outer l r = Ok fr -> names fr = names l ++ names r.
Proof.
  unfold join_outer. destruct (overlap l r); [done |]. intros [= <-].
  unfold names, reindex. simpl. rewrite map_app, !map_map. done.
Qed.

Lemma has_name_app n l1 l2 : has_name n (l1 ++ l2) = has_name n l1 || has_name n l2.
Proof. unfold has_name. apply existsb_app. Qed.

Section Build.
Context (fuel : nat) (today : date) (dbpath word geo : string) (cat tz : Z).

Let path := db_file dbpath cat word geo.
Let label := pull_label word today.
Let said (w : world) := with_trace w (asked w) [EvPrint (already_present word geo)].

(** The guard of [buildMonthlyDatabase]: nothing but the message. *)
Lemma buildMonthlyDatabase_guard w book data_m :
  files w !! path = Some book -> book !! "monthly"%string = Some data_m ->
  has_name label (names data_m) = true ->
  buildMonthlyDatabase fuel today dbpath word geo cat tz w = (Ok tt, said w).
Proof.
  intros Hbook Hm Hguard. unfold buildMonthlyDatabase, bind at 1, isfile.
  fold path. rewrite Hbook, bool_decide_eq_true_2 by done.
  unfold bind at 1, read_excel. rewrite Hbook, Hm.
  fold label. by rewrite Hguard.
Qed.

(** The guard of [buildDatabase]. *)
Lemma buildDatabase_guard hiprecision w book data_m data_d :
  files w !! path = Some book -> book !! "monthly"%string = Some data_m ->
  book !! "daily"%string = Some data_d ->
  has_name label (names data_m) = true ->
  buildDatabase fuel today dbpath word geo cat tz hiprecision w = (Ok tt, said w).
Proof.
  intros Hbook Hm Hd Hguard. unfold buildDatabase, bind at 1, isfile.
  fold path. rewrite Hbook, bool_decide_eq_true_2 by done.
  unfold bind at 1, read_excel at 1. rewrite Hbook, Hm.
  unfold bind at 1, read_excel at 1. rewrite Hbook, Hd.
  fold label. by rewrite Hguard.
Qed.

(** [buildDatabase] reads the daily sheet, line 182, before it comes to its
    guard, line 187: on a workbook without that sheet it raises, whatever
    the monthly sheet holds. *)
Lemma buildDatabase_no_daily hiprecision w book data_m :
  files w !! path = Some book -> book !! "monthly"%string = Some data_m ->
  book !! "daily"%string = None ->
  buildDatabase fuel today dbpath word geo cat tz hiprecision w = (Raise ValueError, w).
Proof.
  intros Hbook Hm Hd. unfold buildDatabase, bind at 1, isfile.
  fold path. rewrite Hbook, bool_decide_eq_true_2 by done.
  unfold bind at 1, read_excel at 1. rewrite Hbook, Hm.
  unfold bind at 1, read_excel at 1. by rewrite Hbook, Hd.
Qed.

(** A build that returns either met the guard, or made a request and
    stored both sheets, the monthly one with a column labelled by the day. *)
Lemma buildDatabase_ok hiprecision w w1 :
  word <> "isPartial"%string ->
  buildDatabase fuel today dbpath word geo cat tz hiprecision w = (Ok tt, w1) ->
  (w1 = said w \/ (asked w < asked w1)%nat) /\
  exists book data_m data_d,
    files w1 !! path = Some book /\ book !! "monthly"%string = Some data_m /\
    book !! "daily"%string = Some data_d /\ has_name label (names data_m) = true.
Proof.
  intros Hword H. unfold buildDatabase in H. fold path label in H.
  apply bind_ok_inv in H as (present & w0 & Hp & H).
  unfold isfile in Hp. injection Hp as <- <-.
  apply bind_ok_inv in H as (data_m & wa & Hdm & H).
  apply bind_ok_inv in H as (data_d & wb & Hdd & H).
  destruct (has_name label (names data_m)) eqn:Hguard.
  - (* the guard *)
    destruct (files w !! path) as [book |] eqn:Hbook.
    2:{ rewrite bool_decide_eq_false_2 in Hdm by (by intros [? ?]).
        injection Hdm as <- <-. done. }
    rewrite bool_decide_eq_true_2 in Hdm, Hdd by done.
    unfold read_excel in Hdm, Hdd. rewrite Hbook in Hdm.
    destruct (book !! "monthly"%string) as [m |] eqn:Hm; [| done].
    injection Hdm as <- <-. rewrite Hbook in Hdd.
    destruct (book !! "daily"%string) as [d |] eqn:Hd; [| done].
    injection Hdd as <- <-.
    injection H as <-. split; [by left |].
    exists book, m, d. by repeat split.
  - (* the acquisition *)
    assert (asked wb = asked w) as Hwb.
    { destruct (bool_decide _).
      - unfold read_excel in Hdm, Hdd.
        destruct (files w !! path) as [book |]; [| done].
        destruct (book !! "monthly"%string); [| done]. injection Hdm as _ <-.
        destruct (files w !! path) as [book' |]; [| done].
        destruct (book' !! "daily"%string); [| done]. by injection Hdd as _ <-.
      - injection Hdm as _ <-. by injection Hdd as _ <-. }
    apply bind_ok_inv in H as (stop_date & w2 & Hstop & H). injection Hstop as <- <-.
    apply bind_ok_inv in H as ([] & w3 & Hclient & H). injection Hclient as <-.
    apply bind_ok_inv in H as (first_day & w4 & Hfirst & H).
    apply lift_ok_inv in Hfirst as [_ ->].
    apply bind_ok_inv in H as (fetched & w5 & Hfetch & H).
    apply fetchData_ok in Hfetch as [Hask5 Hshape]. simpl in Hask5.
    apply bind_ok_inv in H as (monthly & w6 & Hdrop & H).
    apply lift_ok_inv in Hdrop as [Hdrop ->].
    apply bind_ok_inv in H as (daily & w7 & Hraw & H).
    apply mono_getRawDailyData in Hraw.
    apply bind_ok_inv in H as (data_m' & w8 & Hjoin & H).
    apply lift_ok_inv in Hjoin as [Hjoin ->].
    destruct (join_outer data_d _) as [data_d' | e |] eqn:Hjoind;
      [| by destruct (save_excel _ _ _) | by destruct (save_excel _ _ _)].
    unfold save_excel in H. injection H as <-. simpl.
    split; [right; lia |].
    exists (<["daily"%string := data_d']> {["monthly"%string := data_m']}), data_m', data_d'.
    split; [by rewrite lookup_insert_eq |].
    split; [by rewrite lookup_insert_ne, lookup_singleton_eq |].
    split; [by rewrite lookup_insert_eq |].
    rewrite (names_join_outer _ _ _ Hjoin), has_name_app.
    apply orb_true_iff. right.
    destruct Hshape as [-> | Hnames]; [done |].
    destruct fetched as [idx cols]. unfold names in Hnames. simpl in Hnames.
    destruct cols as [| [n1 c1] [| [n2 c2] [| ? ?]]]; try done.
    simpl in Hnames. injection Hnames as -> ->.
    rewrite drop_isPartial in Hdrop by done. injection Hdrop as <-.
    unfold rename_column, names, has_name. simpl.
    by rewrite String.eqb_refl, String.eqb_refl.
Qed.

End Build.

End StoreFacts.

(** C6, as the claim states it, fails for [buildDatabase].  On 10 March 2004
    [buildMonthlyDatabase] fetches and stores the monthly table, whose
    column is labelled with that day; the workbook it writes has no daily
    sheet.  A [buildDatabase] on the same day does not return as a no-op:
    it raises when it reads the daily sheet, which it does before its
    guard. *)
Theorem same_day_build_after_monthly_build_raises :
  let today := Cal.mkdate 2004 3 10 in
  let rows := [(Cal.mkdate 2004 1 1, Fin (Qc_of_Z 10), false);
               (Cal.mkdate 2004 2 1, Fin (Qc_of_Z 20), false);
               (Cal.mkdate 2004 3 1, Fin (Qc_of_Z 30), true)] in
  let w := mkworld (fun _ => Answer rows) 0 (fun _ => 7) 0 ∅ [] in
  let w1 := snd (buildMonthlyDatabase 1 today "db" "flu" "US" 0 240 w) in
  fst (buildMonthlyDatabase 1 today "db" "flu" "US" 0 240 w) = Ok tt /\
  (exists (book : workbook) (data_m : frame),
     files w1 !! db_file "db" 0 "flu" "US" = Some book /\
     book !! "monthly"%string = Some data_m /\
     book !! "daily"%string = None /\
     has_name (pull_label "flu" today) (names data_m) = true) /\
  buildMonthlyDatabase 1 today "db" "flu" "US" 0 240 w1
  = (Ok tt, with_trace w1 (asked w1) [EvPrint (already_present "flu" "US")]) /\
  buildDatabase 1 today "db" "flu" "US" 0 240 false w1 = (Raise ValueError, w1).
Proof.
  intros today rows w w1. split; [vm_compute; reflexivity |]. split.
  - eexists _, _. split; [vm_compute; reflexivity |].
    split; [vm_compute; reflexivity |]. split; vm_compute; reflexivity.
  - split; vm_compute; reflexivity.
Qed.

(** C6 as amended: when the stored monthly table has a column labelled
    with today's date, [buildMonthlyDatabase] returns having done nothing
    but print a message: no client is made, no request is sent and the
    files are untouched.  So does [buildDatabase] when the workbook has a
    daily sheet as well; when it has none, [buildDatabase] raises on
    reading it, before the guard, and still nothing is requested or
    written.  Hence a [buildDatabase] that returned is followed, on the
    same day, by a [buildDatabase] that is such a no-op; the first of the
    two made at least one request unless it was a no-op itself. *)
Theorem same_day_build_is_noop
    (fuel : nat) (today : date) (dbpath word geo : string) (cat tz : Z)
    (hiprecision : bool) (w : world) :
  word <> "isPartial"%string ->
  let path := db_file dbpath cat word geo in
  let said (w : world) := with_trace w (asked w) [EvPrint (already_present word geo)] in
  (forall book data_m,
     files w !! path = Some book -> book !! "monthly"%string = Some data_m ->
     has_name (pull_label word today) (names data_m) = true ->
     buildMonthlyDatabase fuel today dbpath word geo cat tz w = (Ok tt, said w) /\
     (forall data_d, book !! "daily"%string = Some data_d ->
        buildDatabase fuel today dbpath word geo cat tz hiprecision w = (Ok tt, said w)) /\
     (book !! "daily"%string = None ->
        buildDatabase fuel today dbpath word geo cat tz hiprecision w
        = (Raise ValueError, w))) /\
  (forall w1,
     buildDatabase fuel today dbpath word geo cat tz hiprecision w = (Ok tt, w1) ->
     buildDatabase fuel today dbpath word geo cat tz hiprecision w1 = (Ok tt, said w1) /\
     (w1 = said w \/ (asked w < asked w1)%nat)).
Proof.
  intros Hword path said. split.
  - intros book data_m Hbook Hm Hguard. split; [| split].
    + by eapply StoreFacts.buildMonthlyDatabase_guard.
    + intros data_d Hd. by eapply StoreFacts.buildDatabase_guard.
    + intros Hd. by eapply StoreFacts.buildDatabase_no_daily.
  - intros w1 Hrun.
    destruct (StoreFacts.buildDatabase_ok _ _ _ _ _ _ _ _ _ _ Hword Hrun)
      as (Hasked & book & data_m & data_d & Hbook & Hm & Hd & Hguard).
    split; [| done]. by eapply StoreFacts.buildDatabase_guard.
Qed.

Lemma same_day_build_is_noop_witness :
  let today := Cal.mkdate 2004 3 10 in
  let rows := [(Cal.mkdate 2004 1 1, Fin (Qc_of_Z 10), false);
               (Cal.mkdate 2004 2 1, Fin (Qc_of_Z 20), false);
               (Cal.mkdate 2004 3 1, Fin (Qc_of_Z 30), true)] in
  let w := mkworld (fun _ => Answer rows) 0 (fun _ => 7) 0 ∅ [] in
  let w1 := snd (buildDatabase 1 today "db" "flu" "US" 0 240 false w) in
  fst (buildDatabase 1 today "db" "flu" "US" 0 240 false w) = Ok tt /\
  buildDatabase 1 today "db" "flu" "US" 0 240 false w1
  = (Ok tt, with_trace w1 (asked w1) [EvPrint (already_present "flu" "US")]) /\
  asked w = 0%nat /\ asked w1 = 4%nat.
Proof.
  intros today rows w w1.
  assert (buildDatabase 1 today "db" "flu" "US" 0 240 false w = (Ok tt, w1)) as Hrun
    by (vm_compute; reflexivity).
  split; [by rewrite Hrun |]. split; [| by vm_compute].
  assert ("flu"%string <> "isPartial"%string) as Hne by discriminate.
  exact (proj1 (proj2 (same_day_build_is_noop 1 today "db" "flu" "US" 0 240 false w Hne)
                  w1 Hrun)).
Defined.

(** ** Column names *)

Module NameFacts.
Local Open Scope string_scope.

Lemma append_nil s : "" ++ s = s.
Proof. done. Qed.

Lemma append_cons c p s : String c p ++ s = String c (p ++ s).
Proof. done. Qed.

Lemma eqb_cons c a b : String.eqb (String c a) (String c b) = String.eqb a b.
Proof. cbn [String.eqb]. by rewrite Ascii.eqb_refl. Qed.

Lemma eqb_app_l p a b : String.eqb (p ++ a) (p ++ b) = String.eqb a b.
Proof.
  induction p as [| c p IH]; [done |]. by rewrite !append_cons, eqb_cons.
Qed.

Lemma eqb_app_nil_r p a : String.eqb (p ++ a) p = String.eqb a "".
Proof.
  induction p as [| c p IH]; [done |]. by rewrite !append_cons, eqb_cons.
Qed.

Lemma eqb_app_nil_l p a : String.eqb p (p ++ a) = String.eqb "" a.
Proof.
  induction p as [| c p IH]; [done |]. by rewrite !append_cons, eqb_cons.
Qed.

(** A string without underscore. *)
Fixpoint plain (s : string) : bool :=
  match s with
  | EmptyString => true
  | String c s' => negb (Ascii.eqb c "_") && plain s'
  end.

Lemma eqb_underscore_l p t s :
  plain s = true -> String.eqb (p ++ String "_" t) s = false.
Proof.
  revert s.
  induction p as [| c p IH]; intros [| c' s] Hs;
    rewrite ?append_nil, ?append_cons; cbn [String.eqb plain] in *; try done.
  - apply andb_true_iff in Hs as [Hc _]. apply negb_true_iff in Hc.
    rewrite Ascii.eqb_sym. by rewrite Hc.
  - apply andb_true_iff in Hs as [_ Hs]. destruct (Ascii.eqb c c'); [by apply IH | done].
Qed.

Lemma eqb_underscore_r p t s :
  plain s = true -> String.eqb s (p ++ String "_" t) = false.
Proof. intros Hs. rewrite String.eqb_sym. by apply eqb_underscore_l. Qed.

End NameFacts.

(** Decide the comparisons of column names that a run of the engine makes:
    the names share the keyword as a prefix, or one of them is a literal
    without underscore. *)
Ltac eqb_literal :=
  match goal with
  | |- context [String.eqb ?a ?b] =>
      let v := eval vm_compute in (String.eqb a b) in
      match v with
      | true => change (String.eqb a b) with true
      | false => change (String.eqb a b) with false
      end
  end.

Ltac names_eqb :=
  repeat first
    [ rewrite String.eqb_refl
    | rewrite NameFacts.eqb_app_l
    | rewrite NameFacts.eqb_app_nil_r
    | rewrite NameFacts.eqb_app_nil_l
    | rewrite NameFacts.eqb_cons
    | rewrite NameFacts.eqb_underscore_l by reflexivity
    | rewrite NameFacts.eqb_underscore_r by reflexivity
    | rewrite NameFacts.append_cons
    | rewrite NameFacts.append_nil
    | eqb_literal
    | match goal with H : String.eqb _ _ = false |- _ => rewrite H end ].

Module FrameFacts.

Lemma assoc_cons n m c rest :
  assoc n ((m, c) :: rest) = if String.eqb m n then Some c else assoc n rest.
Proof. done. Qed.

Lemma set_assoc_nil n c : set_assoc n c [] = [(n, c)].
Proof. done. Qed.

Lemma set_assoc_cons n c m c' rest :
  set_assoc n c ((m, c') :: rest)
  = if String.eqb m n then (m, c) :: rest else (m, c') :: set_assoc n c rest.
Proof. done. Qed.

Lemma has_name_nil n : has_name n [] = false.
Proof. done. Qed.

Lemma has_name_cons n m ns : has_name n (m :: ns) = String.eqb n m || has_name n ns.
Proof. done. Qed.

Lemma keep_names_nil ns :
  filter (fun nc : string * column => has_name nc.1 ns = false) [] = [].
Proof. done. Qed.

Lemma keep_names_cons ns n c rest :
  filter (fun nc : string * column => has_name nc.1 ns = false) ((n, c) :: rest)
  = if has_name n ns
    then filter (fun nc : string * column => has_name nc.1 ns = false) rest
    else (n, c) :: filter (fun nc : string * column => has_name nc.1 ns = false) rest.
Proof.
  rewrite filter_cons. simpl. destruct (has_name n ns).
  - by rewrite decide_False.
  - by rewrite decide_True.
Qed.

End FrameFacts.

(** Run the table operations of the engine on tables whose columns are
    listed. *)
Ltac engine_step :=
  repeat first
    [ rewrite FrameFacts.assoc_cons
    | rewrite FrameFacts.set_assoc_cons
    | rewrite FrameFacts.set_assoc_nil
    | rewrite FrameFacts.has_name_cons
    | rewrite FrameFacts.has_name_nil
    | rewrite FrameFacts.keep_names_cons
    | rewrite FrameFacts.keep_names_nil
    | progress names_eqb
    | progress cbn [columns index map fst snd rbind existsb forallb app orb andb negb] ].

(** ** The scaling engine *)

Module ScaleFacts.
Local Open Scope string_scope.

(** The table [scale_once] returns, column by column. *)
Lemma scale_once_columns word geo results monthly daily0 raw part base mpart :
  word <> "isPartial" ->
  concat results = Ok daily0 ->
  columns daily0 = [(word, raw); ("isPartial", part)] ->
  columns monthly = [(word, base); ("isPartial", mpart)] ->
  scale_once word geo results monthly
  = Ok (mkframe (index daily0)
          [(col_unscaled word geo, raw);
           (col_monthly word geo, baseline_column (index daily0) (index monthly) base);
           ("scale", scale_column (index daily0) raw (index monthly) base);
           (col_scaled word geo, scaled_column (index daily0) raw (index monthly) base)]).
Proof.
  intros Hword Hconcat Hcols Hmcols.
  destruct daily0 as [idx cols], monthly as [midx mcols]. simpl in Hcols, Hmcols. subst.
  unfold scale_once. rewrite Hconcat. cbn [rbind].
  rewrite StoreFacts.drop_isPartial by done. cbn [rbind].
  pose proof Hword as Hw1%String.eqb_neq.
  pose proof Hword as Hw2%not_eq_sym%String.eqb_neq.
  unfold col_avg, col_unscaled, col_monthly, col_scaled,
    setcol_frame, resample_M_mean, truncate_index_to_month, ffill_column, getcol, setcol,
    join_left, overlap, names, suffixed, drop_columns.
  engine_step. unfold names. engine_step.
  reflexivity.
Qed.

(** *** Forward fill *)

Lemma ffill_from_length last col : length (ffill_from last col) = length col.
Proof. revert last. induction col as [| v col IH]; intros last; simpl; [done |]. by rewrite IH. Qed.

Lemma ffill_length col : length (ffill col) = length col.
Proof. apply ffill_from_length. Qed.

(** Below a value, missing cells take that value. *)
Lemma ffill_from_all_na col : forall last (i : nat),
  (i < length col)%nat ->
  (forall k : nat, (k <= i)%nat -> col !! k = Some NaN) ->
  ffill_from last col !! i = Some last.
Proof.
  induction col as [| v col IH]; intros last i Hi Hna; simpl in *; [lia |].
  pose proof (Hna 0%nat ltac:(lia)) as H0. injection H0 as ->. simpl.
  destruct i as [| i]; [done |]. simpl.
  apply IH; [lia |]. intros k Hk. apply (Hna (S k)). lia.
Qed.

Lemma ffill_from_hold col : forall last (j i : nat) v,
  col !! j = Some v -> isna v = false ->
  (j <= i < length col)%nat ->
  (forall k : nat, (j < k <= i)%nat -> col !! k = Some NaN) ->
  ffill_from last col !! i = Some v.
Proof.
  induction col as [| x col IH]; intros last j i v Hj Hv Hi Hna; simpl in *; [lia |].
  destruct j as [| j].
  - injection Hj as ->. rewrite Hv.
    destruct i as [| i]; [done |]. simpl.
    apply ffill_from_all_na; [lia |]. intros k Hk. apply (Hna (S k)). lia.
  - destruct i as [| i]; [lia |]. simpl.
    eapply IH; [done | done | lia |]. intros k Hk. apply (Hna (S k)). lia.
Qed.

(** Once a value has been seen, no cell below is missing. *)
Lemma ffill_from_seen col : forall last,
  isna last = false -> Forall (fun v => isna v = false) (ffill_from last col).
Proof.
  induction col as [| x col IH]; intros last Hlast; simpl; constructor.
  - by destruct (isna x) eqn:E.
  - apply IH. by destruct (isna x) eqn:E.
Qed.

Lemma ffill_from_no_gap col : forall last (i j : nat) v,
  ffill_from last col !! i = Some v -> isna v = false ->
  (i <= j < length col)%nat ->
  exists v', ffill_from last col !! j = Some v' /\ isna v' = false.
Proof.
  induction col as [| x col IH]; intros last i j v Hi Hv Hj; simpl in *; [lia |].
  destruct i as [| i].
  - injection Hi as Hx. rewrite Hx.
    destruct j as [| j]; [by exists v |]. simpl.
    pose proof (ffill_from_seen col v Hv) as Hall.
    destruct (lookup_lt_is_Some_2 (ffill_from v col) j) as [v' Hv'].
    { rewrite ffill_from_length. lia. }
    exists v'. split; [done |].
    by eapply (proj1 (Forall_lookup _ _) Hall).
  - destruct j as [| j]; [lia |]. simpl in *.
    eapply IH; [done | done | lia].
Qed.

(** A cell that is not missing is kept. *)
Lemma ffill_from_keeps col : forall last (i : nat) v,
  col !! i = Some v -> isna v = false -> ffill_from last col !! i = Some v.
Proof.
  induction col as [| x col IH]; intros last i v Hi Hv; [done |].
  destruct i as [| i]; simpl in *.
  - injection Hi as ->. by rewrite Hv.
  - by apply IH.
Qed.

(** *** Alignment by date *)

Lemma lookup_map {A B} (f : A -> B) (l : list A) (i : nat) :
  map f l !! i = f <$> l !! i.
Proof. revert i. induction l as [| x l IH]; intros [| i]; simpl; auto. Qed.

Lemma reindex_col_length sidx scol idx : length (reindex_col sidx scol idx) = length idx.
Proof. unfold reindex_col. by rewrite length_map. Qed.

Lemma reindex_col_lookup sidx scol idx (i : nat) d :
  idx !! i = Some d -> reindex_col sidx scol idx !! i = Some (find_date d sidx scol).
Proof. intros H. unfold reindex_col. by rewrite lookup_map, H. Qed.

Lemma find_date_absent d sidx : forall scol,
  Forall (fun s => Cal.eqb s d = false) sidx -> find_date d sidx scol = NaN.
Proof.
  induction sidx as [| s sidx IH]; intros scol Hall; [done |].
  destruct scol as [| v scol]; [done |]. simpl.
  apply Forall_cons in Hall as [-> Hall]. by apply IH.
Qed.

Lemma eqb_eq a b : Cal.eqb a b = true <-> a = b.
Proof.
  unfold Cal.eqb. rewrite !andb_true_iff, !Z.eqb_eq. split.
  - intros [[? ?] ?]. by apply CalFacts.date_eq.
  - by intros ->.
Qed.

Lemma chronological_lookup idx : chronological idx ->
  forall (i j : nat) a b, idx !! i = Some a -> idx !! j = Some b -> (i < j)%nat ->
  Cal.ltb a b = true.
Proof.
  induction 1 as [| x idx Hs IH Hall]; intros i j a b Hi Hj Hij; [done |].
  destruct j as [| j]; [lia |]. simpl in Hj.
  destruct i as [| i]; simpl in Hi.
  - injection Hi as <-. apply list_elem_of_lookup_2 in Hj.
    by apply (proj1 (Forall_forall _ _) Hall).
  - eapply (IH i j); [done | done | lia].
Qed.

(** A value that stands on the row of a month's first day reaches every
    row of that month: the rows in between are no month starts, so the
    series looked up has nothing for them. *)
Lemma forwarded sidx scol idx (i : nat) d f v :
  chronological idx -> Forall (fun s => Cal.day s = 1) sidx ->
  idx !! i = Some d -> f ∈ idx ->
  Cal.year f = Cal.year d -> Cal.month f = Cal.month d -> Cal.day f = 1 ->
  1 <= Cal.day d ->
  find_date f sidx scol = v -> isna v = false ->
  ffill (reindex_col sidx scol idx) !! i = Some v.
Proof.
  intros Hchr Hsidx Hi Hf Hy Hm Hd1 Hd Hfind Hv.
  apply list_elem_of_lookup_1 in Hf as [j Hj].
  assert (j <= i)%nat as Hji.
  { destruct (le_lt_dec j i) as [| Hlt]; [done |].
    pose proof (chronological_lookup _ Hchr _ _ _ _ Hi Hj Hlt) as H%CalFacts.ltb_lt. lia. }
  pose proof (lookup_lt_Some _ _ _ Hi) as Hlen.
  unfold ffill. apply (ffill_from_hold _ _ j).
  - rewrite (reindex_col_lookup _ _ _ _ _ Hj). by rewrite Hfind.
  - done.
  - rewrite reindex_col_length. lia.
  - intros k Hk.
    destruct (lookup_lt_is_Some_2 idx k ltac:(lia)) as [x Hx].
    rewrite (reindex_col_lookup _ _ _ _ _ Hx). f_equal.
    pose proof (chronological_lookup _ Hchr _ _ _ _ Hj Hx ltac:(lia)) as Hfx%CalFacts.ltb_lt.
    assert (Cal.leb x d = true) as Hxd%CalFacts.leb_le.
    { destruct (decide (k = i)) as [-> | Hne].
      - rewrite Hi in Hx. injection Hx as <-. apply CalFacts.leb_le. lia.
      - pose proof (chronological_lookup _ Hchr _ _ _ _ Hx Hi ltac:(lia)) as H%CalFacts.ltb_lt.
        apply CalFacts.leb_le. lia. }
    apply find_date_absent. apply Forall_forall. intros s Hs.
    pose proof (proj1 (Forall_forall _ _) Hsidx s Hs) as Hs1. simpl in Hs1.
    apply not_true_iff_false. intros ->%eqb_eq. lia.
Qed.

(** *** The month means *)

Lemma month_of_index k :
  month_index (month_start (month_end_of_index k)) = k.
Proof.
  unfold month_index, month_start, month_end_of_index. simpl.
  pose proof (Z.div_mod (k - 1) 12 ltac:(lia)). lia.
Qed.

Lemma index_of_month f :
  1 <= Cal.month f <= 12 -> Cal.day f = 1 ->
  month_start (month_end_of_index (month_index f)) = f.
Proof.
  intros Hm Hd. unfold month_index, month_start, month_end_of_index. simpl.
  replace (12 * Cal.year f + Cal.month f - 1) with (12 * Cal.year f + (Cal.month f - 1)) by lia.
  destruct (ChunkFacts.divmod12 (Cal.year f) (Cal.month f - 1)) as [-> ->]; [lia |].
  apply CalFacts.date_eq; simpl; lia.
Qed.

Lemma find_date_month_mean (g : Z -> value) f ks :
  1 <= Cal.month f <= 12 -> Cal.day f = 1 -> month_index f ∈ ks ->
  find_date f (map month_start (map month_end_of_index ks)) (map g ks) = g (month_index f).
Proof.
  intros Hm Hd. induction ks as [| k ks IH]; intros Hin; [by apply elem_of_nil in Hin |].
  simpl. destruct (Cal.eqb _ f) eqn:E.
  - apply eqb_eq in E. by rewrite <- E, month_of_index.
  - apply elem_of_cons in Hin as [Hk | Hin]; [| by apply IH].
    rewrite <- Hk, index_of_month in E by done.
    assert (Cal.eqb f f = true) by by apply eqb_eq. congruence.
Qed.

Lemma foldr_min_le a l x : x ∈ a :: l -> foldr Z.min a l <= x.
Proof.
  induction l as [| y l IH]; simpl; intros Hx.
  - apply list_elem_of_singleton in Hx. lia.
  - apply elem_of_cons in Hx as [-> | Hx].
    + assert (a ∈ a :: l) as H by left. specialize (IH H). lia.
    + apply elem_of_cons in Hx as [-> | Hx]; [lia |].
      assert (x ∈ a :: l) as H by by right. specialize (IH H). lia.
Qed.

Lemma foldr_max_ge a l x : x ∈ a :: l -> x <= foldr Z.max a l.
Proof.
  induction l as [| y l IH]; simpl; intros Hx.
  - apply list_elem_of_singleton in Hx. lia.
  - apply elem_of_cons in Hx as [-> | Hx].
    + assert (a ∈ a :: l) as H by left. specialize (IH H). lia.
    + apply elem_of_cons in Hx as [-> | Hx]; [lia |].
      assert (x ∈ a :: l) as H by by right. specialize (IH H). lia.
Qed.

(** The months of an index include the month of each of its dates. *)
Lemma month_span_elem idx d : d ∈ idx -> month_index d ∈ month_span idx.
Proof.
  destruct idx as [| d0 ds]; [by intros ?%elem_of_nil |]. intros Hd.
  unfold month_span.
  set (lo := foldr Z.min _ _). set (hi := foldr Z.max _ _).
  assert (month_index d ∈ month_index d0 :: map month_index ds) as Hin.
  { change (month_index d ∈ map month_index (d0 :: ds)).
    apply list_elem_of_In, in_map, list_elem_of_In, Hd. }
  pose proof (foldr_min_le _ _ _ Hin). pose proof (foldr_max_ge _ _ _ Hin).
  apply list_elem_of_In, in_map_iff.
  exists (Z.to_nat (month_index d - lo)). split; [lia |].
  apply in_seq. lia.
Qed.

(** *** Means *)

Local Open Scope Qc_scope.

Definition qsum (qs : list Qc) : Qc := foldr Qcplus (Q2Qc 0) qs.

(** The rational values of a list, in order. *)
Fixpoint fin_part (l : list value) : list Qc :=
  match l with
  | [] => []
  | Fin q :: l' => q :: fin_part l'
  | _ :: l' => fin_part l'
  end.

(** A list whose values are rationals or missing. *)
Definition clean (l : list value) : Prop :=
  Forall (fun v => match v with Fin _ | NaN => True | _ => False end) l.

Lemma vsum_map_fin qs : vsum (map Fin qs) = Fin (qsum qs).
Proof.
  induction qs as [| q qs IH]; [done |].
  change (vsum (map Fin (q :: qs))) with (vadd (Fin q) (vsum (map Fin qs))).
  by rewrite IH.
Qed.

Lemma vsum_fin_inv xs t :
  vsum xs = Fin t -> Forall (fun v => match v with Fin _ => True | _ => False end) xs.
Proof.
  revert t. induction xs as [| x xs IH]; intros t H; [constructor |].
  change (vsum (x :: xs)) with (vadd x (vsum xs)) in H.
  destruct x as [q | | |]; destruct (vsum xs) as [t' | | |] eqn:E; try done.
  constructor; [done | by eapply IH].
Qed.

Lemma filter_notna_clean l :
  clean l -> filter (fun v => notna v = true) l = map Fin (fin_part l).
Proof.
  induction 1 as [| v l Hv Hl IH]; [done |].
  rewrite filter_cons. destruct v as [q | | |]; try done; simpl; by rewrite ?IH.
Qed.

Lemma sgn_pos (n : nat) : (0 < n)%nat -> sgn (Qc_of_Z (Z.of_nat n)) = Gt.
Proof.
  intros Hn. unfold sgn, Qccompare, Qcompare. simpl. rewrite Z.mul_1_r.
  apply Z.compare_gt_iff. lia.
Qed.

Lemma sgn_eq q : sgn q = Eq <-> q = Q2Qc 0.
Proof. unfold sgn. symmetry. apply Qceq_alt. Qed.

Lemma mean_clean l :
  clean l -> fin_part l <> [] ->
  mean l = Fin (qsum (fin_part l) / Qc_of_Z (Z.of_nat (length (fin_part l)))).
Proof.
  intros Hc Hne. unfold mean. rewrite (filter_notna_clean _ Hc).
  destruct (fin_part l) as [| q qs] eqn:E; [done |].
  change (map Fin (q :: qs)) with (Fin q :: map Fin qs) at 1.
  cbv iota. rewrite vsum_map_fin, length_map. unfold vdiv.
  by rewrite sgn_pos by (simpl; lia).
Qed.

(** A list with a rational mean holds rationals and missing values only,
    and at least one rational. *)
Lemma mean_fin_inv l m :
  mean l = Fin m -> clean l /\ fin_part l <> [].
Proof.
  unfold mean. intros H.
  destruct (filter _ l) as [| x xs] eqn:E; [done |].
  set (n := Qc_of_Z _) in H.
  destruct (vsum (x :: xs)) as [t | | |] eqn:Es;
    try (simpl in H; by destruct (sgn n)).
  apply vsum_fin_inv in Es. rewrite <- E in Es.
  assert (clean l) as Hc.
  { unfold clean. apply Forall_forall. intros v Hv.
    destruct v as [q | | |]; try done.
    - assert (PInf ∈ filter (fun v => notna v = true) l) as Hin
        by (apply list_elem_of_filter; by split).
      by apply (proj1 (Forall_forall _ _) Es) in Hin.
    - assert (NInf ∈ filter (fun v => notna v = true) l) as Hin
        by (apply list_elem_of_filter; by split).
      by apply (proj1 (Forall_forall _ _) Es) in Hin. }
  split; [done |]. intros Hnil.
  rewrite (filter_notna_clean _ Hc), Hnil in E. done.
Qed.

Lemma qsum_scale qs s : qsum (map (fun q => q * s) qs) = qsum qs * s.
Proof.
  induction qs as [| q qs IH]; simpl; [ring |].
  unfold qsum in *. simpl. rewrite IH. ring.
Qed.

Lemma clean_scale l s : clean l -> clean (map (fun v => vmul v (Fin s)) l).
Proof.
  unfold clean. induction 1 as [| v l Hv Hl IH]; simpl; constructor; [| done].
  by destruct v.
Qed.

Lemma fin_part_scale l s :
  clean l -> fin_part (map (fun v => vmul v (Fin s)) l) = map (fun q => q * s) (fin_part l).
Proof.
  induction 1 as [| v l Hv Hl IH]; [done |].
  destruct v; try done; simpl; by rewrite IH.
Qed.

(** Scaling the values of a list with a rational mean scales its mean. *)
Lemma mean_scaled l m s :
  mean l = Fin m -> mean (map (fun v => vmul v (Fin s)) l) = Fin (m * s).
Proof.
  intros H. destruct (mean_fin_inv _ _ H) as [Hc Hne].
  rewrite (mean_clean _ Hc Hne) in H. injection H as <-.
  rewrite mean_clean.
  - rewrite (fin_part_scale _ _ Hc), qsum_scale, length_map. f_equal.
    field. destruct (fin_part l) as [| q qs]; [done |].
    intros Hz. assert (sgn (Qc_of_Z (Z.of_nat (length (q :: qs)))) = Eq) as E
      by by apply sgn_eq.
    rewrite sgn_pos in E by (simpl; lia). done.
  - by apply clean_scale.
  - rewrite (fin_part_scale _ _ Hc). by destruct (fin_part l).
Qed.

(** When every row of month [k] has the scale [s], the scaled cells of the
    month are its raw cells times [s]. *)
Lemma month_cells_scaled k s idx : forall raw sc,
  length raw = length idx -> length sc = length idx ->
  (forall (i : nat) d, idx !! i = Some d -> month_index d = k -> sc !! i = Some (Fin s)) ->
  month_cells k idx (zip_with vmul raw sc)
  = map (fun v => vmul v (Fin s)) (month_cells k idx raw).
Proof.
  induction idx as [| d idx IH]; intros raw sc Hraw Hsc Hrows; [by destruct (zip_with _ _ _) |].
  destruct raw as [| x raw]; [done |]. destruct sc as [| y sc]; [done |].
  simpl in *. destruct (Z.eqb_spec (month_index d) k) as [Hk | Hk].
  - pose proof (Hrows 0%nat d eq_refl Hk) as Hy. injection Hy as ->. simpl. f_equal.
    apply IH; [lia | lia |]. intros i d' Hi. by apply (Hrows (S i)).
  - apply IH; [lia | lia |]. intros i d' Hi. by apply (Hrows (S i)).
Qed.

Lemma vdiv_fin k m : m <> Q2Qc 0 -> vdiv (Fin k) (Fin m) = Fin (k / m).
Proof.
  intros Hm. unfold vdiv. destruct (sgn m) eqn:E; [| done | done].
  by apply sgn_eq in E.
Qed.

Local Close Scope Qc_scope.

Lemma scale_column_length idx raw midx base :
  length raw = length idx -> length (scale_column idx raw midx base) = length idx.
Proof.
  intros H. unfold scale_column, baseline_column, avg_column.
  rewrite length_zip_with, !ffill_length, !reindex_col_length. lia.
Qed.

Lemma same_month_valid d f :
  Cal.valid d -> Cal.valid f -> month_index d = month_index f ->
  Cal.year f = Cal.year d /\ Cal.month f = Cal.month d.
Proof.
  intros Hd%CalFacts.valid_iff Hf%CalFacts.valid_iff. unfold month_index. lia.
Qed.

(** The month-mean column on a row of the month of [first]. *)
Lemma avg_column_lookup idx raw (i : nat) d first v :
  chronological idx -> Forall Cal.valid idx ->
  idx !! i = Some d -> first ∈ idx -> Cal.day first = 1 ->
  month_index d = month_index first ->
  mean (month_cells (month_index first) idx raw) = v -> isna v = false ->
  avg_column idx raw !! i = Some v.
Proof.
  intros Hchr Hval Hi Hf Hf1 Hsame Hmean Hv.
  pose proof (proj1 (Forall_forall _ _) Hval _ Hf) as Hfv.
  pose proof (proj1 (Forall_forall _ _) Hval _ (list_elem_of_lookup_2 _ _ _ Hi)) as Hdv.
  destruct (same_month_valid _ _ Hdv Hfv Hsame) as [Hy Hm].
  apply CalFacts.valid_iff in Hfv as (_ & Hfm & _).
  apply CalFacts.valid_iff in Hdv as (_ & _ & Hdd).
  unfold avg_column. eapply forwarded; try done.
  - apply Forall_forall. intros s Hs.
    apply list_elem_of_In, in_map_iff in Hs as (x & <- & _). done.
  - lia.
  - rewrite find_date_month_mean; [done | done | done |]. by apply month_span_elem.
Qed.

(** The baseline column on a row of the month of [first]. *)
Lemma baseline_column_lookup idx midx base (i : nat) d first v :
  chronological idx -> Forall Cal.valid idx ->
  Forall (fun s => Cal.day s = 1) midx ->
  idx !! i = Some d -> first ∈ idx -> Cal.day first = 1 ->
  month_index d = month_index first ->
  find_date first midx base = v -> isna v = false ->
  baseline_column idx midx base !! i = Some v.
Proof.
  intros Hchr Hval Hmidx Hi Hf Hf1 Hsame Hfind Hv.
  pose proof (proj1 (Forall_forall _ _) Hval _ Hf) as Hfv.
  pose proof (proj1 (Forall_forall _ _) Hval _ (list_elem_of_lookup_2 _ _ _ Hi)) as Hdv.
  destruct (same_month_valid _ _ Hdv Hfv Hsame) as [Hy Hm].
  apply CalFacts.valid_iff in Hdv as (_ & _ & Hdd).
  unfold baseline_column. eapply forwarded; try done. lia.
Qed.

End ScaleFacts.

(** ** Outer joins *)

Module JoinFacts.
Import Cal CalFacts.

Lemma elem_of_insert_date d x : forall l, x ∈ insert_date d l <-> x = d \/ x ∈ l.
Proof.
  induction l as [| y l IH]; simpl.
  - rewrite elem_of_cons, !elem_of_nil. tauto.
  - destruct (ltb d y); [by rewrite elem_of_cons |].
    destruct (eqb d y) eqn:E.
    + apply ScaleFacts.eqb_eq in E as ->. rewrite elem_of_cons. tauto.
    + rewrite !elem_of_cons, IH. tauto.
Qed.

Lemma elem_of_union_index x a b : x ∈ union_index a b <-> x ∈ a \/ x ∈ b.
Proof.
  unfold union_index. rewrite <- elem_of_app.
  induction (a ++ b) as [| d l IH]; simpl; [done |].
  rewrite elem_of_insert_date, IH, elem_of_cons. tauto.
Qed.

(** A column aligned on an index is found again at every date of it. *)
Lemma find_date_reindex_col sidx scol d : forall idx,
  d ∈ idx -> find_date d idx (reindex_col sidx scol idx) = find_date d sidx scol.
Proof.
  induction idx as [| i idx IH]; intros Hd; [by apply elem_of_nil in Hd |].
  simpl. destruct (eqb i d) eqn:E.
  - by apply ScaleFacts.eqb_eq in E as ->.
  - apply IH. apply elem_of_cons in Hd as [-> | Hd]; [| done].
    by rewrite (proj2 (ScaleFacts.eqb_eq i i)) in E.
Qed.

Lemma assoc_reindex_app n c fr idx more :
  assoc n (columns fr) = Some c ->
  assoc n (reindex fr idx ++ more) = Some (reindex_col (index fr) c idx).
Proof.
  unfold reindex. induction (columns fr) as [| [m c'] cols IH]; [done |].
  simpl. destruct (String.eqb m n); [by intros [= ->] | done].
Qed.

(** The outer join keeps the rows and the values of its left table. *)
Lemma join_outer_keeps l r fr :
  join_outer l r = Ok fr ->
  (forall d, d ∈ index l -> d ∈ index fr) /\
  forall n c, assoc n (columns l) = Some c ->
    exists c', assoc n (columns fr) = Some c' /\
      forall d, d ∈ index l -> find_date d (index fr) c' = find_date d (index l) c.
Proof.
  unfold join_outer. destruct (overlap l r); [done |]. intros [= <-]. simpl.
  split; [intros d Hd; apply elem_of_union_index; by left |].
  intros n c Hn. eexists. split; [by apply assoc_reindex_app |].
  intros d Hd. apply find_date_reindex_col. apply elem_of_union_index. by left.
Qed.

End JoinFacts.

(** C1, as the claim states it, fails in two ways.

    In binary64 the mean of the scaled values is the baseline only up to
    rounding.  For a month with the rows 1, 5, 1 and the baseline 10 the
    average is 7/3 rounded, the scale 10 by that average, rounded, and the
    mean of the three scaled values is the binary64 number next below 10
    (9.999999999999998).  For a month of 31 rows that all hold 49, with the
    baseline 1, every scaled value is 49 times the rounded 1/49, which is
    the number next below 1: every scaled value is below the baseline.

    And for a month whose first day is not among the daily rows the scale
    is not [k / m]: January has the value 5 on every day and the baseline
    10, February the rows of the 2nd and the 3rd alone, both 4, and the
    baseline 20.  The month mean and the baseline of February stand on the
    row of 1 February, which the daily table does not have, so the rows of
    February take what is filled forward from January: their scale is 2,
    not 20 / 4, their scaled value is 8, and so is its mean, not 20. *)
Theorem scaled_mean_misses_baseline :
  (let raw := map F64.of_Z [1; 5; 1] in
   let k := F64.of_Z 10 in
   F64.mean (F64.scaled k raw) = PrimFloat.next_down k /\
   PrimFloat.eqb (F64.mean (F64.scaled k raw)) k = false) /\
  (let raw := repeat (F64.of_Z 49) 31 in
   let k := F64.of_Z 1 in
   F64.scaled k raw = repeat (PrimFloat.next_down k) 31 /\
   PrimFloat.eqb (PrimFloat.next_down k) k = false) /\
  (let february :=
     mkframe [Cal.mkdate 2020 2 2; Cal.mkdate 2020 2 3]
       [("flu"%string, [Fin (Qc_of_Z 4); Fin (Qc_of_Z 4)]);
        ("isPartial"%string, [flag false; flag false])] in
   let* out := scale_once "flu" "US" [constant_chunk "flu" 2020 1 5; february]
                 (monthly_table "flu" [(Cal.mkdate 2020 1 1, 10); (Cal.mkdate 2020 2 1, 20)]) in
   let* sc := getcol out "scale" in
   let* scaled := getcol out "flu_US" in
   Ok (index out !! 31%nat, rational <$> sc !! 31%nat, rational <$> scaled !! 31%nat,
       rational (mean (month_cells (month_index (Cal.mkdate 2020 2 1)) (index out) scaled))))
  = Ok (Some (Cal.mkdate 2020 2 2), Some (Some 2%Q), Some (Some 8%Q), Some 8%Q).
Proof.
  split; [| split].
  - split; vm_compute; reflexivity.
  - split; vm_compute; reflexivity.
  - vm_compute. reflexivity.
Qed.

(** The scenario of the claim is exact in binary64 as well: with the value
    5 on every day, the scale of January is 2 and that of February 4, and
    the scaled values of February are 20. *)
Example scenario_in_binary64 :
  F64.scale (F64.of_Z 10) (repeat (F64.of_Z 5) 31) = F64.of_Z 2 /\
  F64.scale (F64.of_Z 20) (repeat (F64.of_Z 5) 29) = F64.of_Z 4 /\
  F64.scaled (F64.of_Z 20) (repeat (F64.of_Z 5) 29) = repeat (F64.of_Z 20) 29.
Proof. repeat split; vm_compute; reflexivity. Qed.

(** C1 as amended, for the exact quotients and products, that is apart from
    the rounding of binary64: in the table [scale_once] returns, for a
    month whose first day is in the daily data, whose baseline value is [k]
    and whose daily values have the mean [m], [m] not zero: the scale is
    [k / m] on every row of the month, a scaled value is the raw value times
    [k / m], and the mean of the scaled values of the month is [k].  With a
    constant baseline this holds for every such month; the scenario of
    January and February is the witness. *)
Theorem scaling_recovers_baseline
    (word geo : string) (results : list frame) (monthly daily0 : frame)
    (raw part base mpart : column) (first : date) (k m : Qc) :
  word <> "isPartial"%string ->
  concat results = Ok daily0 ->
  columns daily0 = [(word, raw); ("isPartial"%string, part)] ->
  length raw = length (index daily0) ->
  columns monthly = [(word, base); ("isPartial"%string, mpart)] ->
  chronological (index daily0) -> Forall Cal.valid (index daily0) ->
  Forall (fun d => Cal.day d = 1) (index monthly) ->
  first ∈ index daily0 -> Cal.day first = 1 ->
  find_date first (index monthly) base = Fin k ->
  mean (month_cells (month_index first) (index daily0) raw) = Fin m ->
  m <> Q2Qc 0 ->
  exists out mon sc scaled,
    scale_once word geo results monthly = Ok out /\
    index out = index daily0 /\
    columns out = [(col_unscaled word geo, raw); (col_monthly word geo, mon);
                   ("scale"%string, sc); (col_scaled word geo, scaled)] /\
    (forall (i : nat) d x,
       index daily0 !! i = Some d -> month_index d = month_index first ->
       raw !! i = Some x ->
       sc !! i = Some (Fin (k / m)) /\ scaled !! i = Some (vmul x (Fin (k / m)))) /\
    mean (month_cells (month_index first) (index daily0) scaled) = Fin k.
Proof.
  intros Hword Hconcat Hcols Hlen Hmcols Hchr Hval Hmidx Hf Hf1 Hbase Hmean Hm.
  rewrite (ScaleFacts.scale_once_columns _ _ _ _ _ _ _ _ _ Hword Hconcat Hcols Hmcols).
  do 4 eexists. split; [done |]. split; [done |]. split; [done |].
  assert (forall (i : nat) d, index daily0 !! i = Some d ->
            month_index d = month_index first ->
            scale_column (index daily0) raw (index monthly) base !! i = Some (Fin (k / m)))
    as Hscale.
  { intros i d Hi Hsame. unfold scale_column. rewrite lookup_zip_with.
    rewrite (ScaleFacts.baseline_column_lookup _ _ _ _ _ _ _ Hchr Hval Hmidx Hi Hf Hf1 Hsame
               Hbase eq_refl).
    rewrite (ScaleFacts.avg_column_lookup _ _ _ _ _ _ Hchr Hval Hi Hf Hf1 Hsame Hmean eq_refl).
    simpl. f_equal. by apply ScaleFacts.vdiv_fin. }
  split.
  - intros i d x Hi Hsame Hx. split; [by eapply Hscale |].
    unfold scaled_column. rewrite lookup_zip_with, Hx. simpl.
    by rewrite (Hscale _ _ Hi Hsame).
  - unfold scaled_column.
    rewrite (ScaleFacts.month_cells_scaled _ (k / m)%Qc); try done.
    + rewrite (ScaleFacts.mean_scaled _ _ _ Hmean). f_equal. by field.
    + by apply ScaleFacts.scale_column_length.
Qed.

(** A cell is determined by the rational it holds. *)
Lemma fin_by_rational v q : rational v = Some (this q) -> v = Fin q.
Proof.
  destruct v as [p | | |]; try done. simpl. intros [= H]. f_equal.
  apply Qc_is_canon. by rewrite H.
Qed.

Lemma scaling_recovers_baseline_witness :
  let jan := constant_chunk "flu" 2020 1 5 in
  let feb := constant_chunk "flu" 2020 2 5 in
  let days := (month_days 2020 1 ++ month_days 2020 2)%list in
  let raw := map (fun _ => Fin (Qc_of_Z 5)) days in
  let monthly :=
    monthly_table "flu" [(Cal.mkdate 2020 1 1, 10); (Cal.mkdate 2020 2 1, 20)] in
  let february := month_index (Cal.mkdate 2020 2 1) in
  exists out mon sc scaled,
    scale_once "flu" "US" [jan; feb] monthly = Ok out /\
    index out = days /\
    columns out = [(col_unscaled "flu" "US", raw); (col_monthly "flu" "US", mon);
                   ("scale"%string, sc); (col_scaled "flu" "US", scaled)] /\
    (forall (i : nat) d x,
       days !! i = Some d -> month_index d = february -> raw !! i = Some x ->
       sc !! i = Some (Fin (Qc_of_Z 20 / Qc_of_Z 5)) /\
       scaled !! i = Some (vmul x (Fin (Qc_of_Z 20 / Qc_of_Z 5)))) /\
    mean (month_cells february days scaled) = Fin (Qc_of_Z 20).
Proof.
  intros jan feb days raw monthly february.
  apply (scaling_recovers_baseline "flu" "US" [jan; feb] monthly
           (mkframe days [("flu"%string, raw);
                          ("isPartial"%string, map (fun _ => flag false) days)])
           raw (map (fun _ => flag false) days)
           [Fin (Qc_of_Z 10); Fin (Qc_of_Z 20)] [flag false; flag false]
           (Cal.mkdate 2020 2 1) (Qc_of_Z 20) (Qc_of_Z 5)).
  - discriminate.
  - vm_compute. reflexivity.
  - reflexivity.
  - vm_compute. reflexivity.
  - reflexivity.
  - unfold chronological. apply (bool_decide_unpack _). by vm_compute.
  - unfold Cal.valid. apply (bool_decide_unpack _). by vm_compute.
  - apply (bool_decide_unpack _). by vm_compute.
  - apply (list_elem_of_lookup_2 _ 31%nat). vm_compute. reflexivity.
  - reflexivity.
  - reflexivity.
  - apply fin_by_rational. by vm_compute.
  - intros H. apply (f_equal this) in H. by vm_compute in H.
Defined.

(** The scenario in numbers: the scale is 2 on the days of January and 4 on
    the days of February, and the raw 5 of 10 February becomes 20. *)
Example scenario_scale :
  (let* out := scale_once "flu" "US"
                 [constant_chunk "flu" 2020 1 5; constant_chunk "flu" 2020 2 5]
                 (monthly_table "flu" [(Cal.mkdate 2020 1 1, 10); (Cal.mkdate 2020 2 1, 20)]) in
   let* sc := getcol out "scale" in
   Ok (map rational sc))
  = Ok (repeat (Some 2%Q) 31 ++ repeat (Some 4%Q) 29)%list.
Proof. vm_compute. reflexivity. Qed.

Example scenario_10_february :
  (let* out := scale_once "flu" "US"
                 [constant_chunk "flu" 2020 1 5; constant_chunk "flu" 2020 2 5]
                 (monthly_table "flu" [(Cal.mkdate 2020 1 1, 10); (Cal.mkdate 2020 2 1, 20)]) in
   let* raw := getcol out "flu_US_unscaled" in
   let* scaled := getcol out "flu_US" in
   Ok (index out !! 40%nat, rational <$> raw !! 40%nat, rational <$> scaled !! 40%nat))
  = Ok (Some (Cal.mkdate 2020 2 10), Some (Some 5%Q), Some (Some 20%Q)).
Proof. vm_compute. reflexivity. Qed.

(** ** A month whose daily values have the mean zero *)

(** C4, as the claim states it, fails.  January has the value 5 on every
    day and the baseline 10, February the value 0 on every day and the
    baseline 20: the scale is 2 on 31 January, and on 1 February it is not
    that 2 forwarded but the infinity of 20 / 0; the scaled value of
    1 February is missing. *)
Lemma zero_mean_scale_is_not_forward_filled :
  (let* out := scale_once "flu" "US"
                 [constant_chunk "flu" 2020 1 5; constant_chunk "flu" 2020 2 0]
                 (monthly_table "flu" [(Cal.mkdate 2020 1 1, 10); (Cal.mkdate 2020 2 1, 20)]) in
   let* sc := getcol out "scale" in
   let* scaled := getcol out "flu_US" in
   Ok (index out !! 31%nat, rational <$> sc !! 30%nat, sc !! 31%nat, scaled !! 31%nat))
  = Ok (Some (Cal.mkdate 2020 2 1), Some (Some 2%Q), Some PInf, Some NaN).
Proof. vm_compute. reflexivity. Qed.

Module ZeroFacts.
Import ScaleFacts JoinFacts.
Local Open Scope string_scope.

(** The single pull: the scale of a month of mean zero is the quotient of
    the baseline by zero. *)
Lemma scale_once_zero_mean word geo results monthly daily0 raw part base mpart first k :
  word <> "isPartial" ->
  concat results = Ok daily0 ->
  columns daily0 = [(word, raw); ("isPartial", part)] ->
  columns monthly = [(word, base); ("isPartial", mpart)] ->
  chronological (index daily0) -> Forall Cal.valid (index daily0) ->
  Forall (fun d => Cal.day d = 1) (index monthly) ->
  first ∈ index daily0 -> Cal.day first = 1 ->
  find_date first (index monthly) base = Fin k ->
  mean (month_cells (month_index first) (index daily0) raw) = Fin (Q2Qc 0) ->
  exists out mon sc scaled,
    scale_once word geo results monthly = Ok out /\
    columns out = [(col_unscaled word geo, raw); (col_monthly word geo, mon);
                   ("scale", sc); (col_scaled word geo, scaled)] /\
    (forall (i : nat) d x,
       index daily0 !! i = Some d -> month_index d = month_index first ->
       raw !! i = Some x ->
       sc !! i = Some (inf_of_sign (sgn k)) /\
       (x = Fin (Q2Qc 0) \/ x = NaN -> scaled !! i = Some NaN)).
Proof.
  intros Hword Hconcat Hcols Hmcols Hchr Hval Hmidx Hf Hf1 Hbase Hmean.
  rewrite (scale_once_columns _ _ _ _ _ _ _ _ _ Hword Hconcat Hcols Hmcols).
  do 4 eexists. split; [done |]. split; [done |].
  intros i d x Hi Hsame Hx.
  assert (scale_column (index daily0) raw (index monthly) base !! i
          = Some (inf_of_sign (sgn k))) as Hscale.
  { unfold scale_column. rewrite lookup_zip_with.
    rewrite (baseline_column_lookup _ _ _ _ _ _ _ Hchr Hval Hmidx Hi Hf Hf1 Hsame
               Hbase eq_refl).
    by rewrite (avg_column_lookup _ _ _ _ _ _ Hchr Hval Hi Hf Hf1 Hsame Hmean eq_refl). }
  split; [done |].
  intros Hzero. unfold scaled_column. rewrite lookup_zip_with, Hx, Hscale. simpl. f_equal.
  destruct Hzero as [-> | ->]; [| done].
  by destruct (sgn k).
Qed.

(** *** The stored pulls, [uniformdata=False] *)

Lemma robust_mixed_by_scale word geo data_d monthly_med :
  robust_mixed word geo data_d monthly_med
  = let* scale_d := mixed_scale data_d monthly_med in
    let* complete :=
      join_left (median_frame (div_frames data_d scale_d) (col_med word geo))
        monthly_med "" "_monthly" in
    ffill_column complete (col_med word geo ++ "_monthly").
Proof.
  unfold robust_mixed, mixed_scale.
  destruct (first_column monthly_med); [| done | done]. cbn [rbind].
  by destruct (join_left _ _ _ _).
Qed.



Lemma app_empty_r (s : string) : s ++ "" = s.
Proof. induction s as [| c s IH]; [done |]. by rewrite NameFacts.append_cons, IH. Qed.

(** Looking up a date in the quotient of two columns aligned on one index. *)
Lemma find_date_zip (f : value -> value -> value) d (g h : date -> value) : forall l,
  d ∈ l -> find_date d l (zip_with f (map g l) (map h l)) = f (g d) (h d).
Proof.
  induction l as [| x l IH]; intros Hd; [by apply elem_of_nil in Hd |].
  simpl. destruct (Cal.eqb x d) eqn:E.
  - by apply eqb_eq in E as ->.
  - apply IH. apply elem_of_cons in Hd as [-> | Hd]; [| done].
    by rewrite (proj2 (eqb_eq x x)) in E.
Qed.

(** In an index without repetition a date finds the cell of its own row. *)
Lemma find_date_at idx : chronological idx -> forall (i : nat) d col v,
  idx !! i = Some d -> col !! i = Some v -> find_date d idx col = v.
Proof.
  induction 1 as [| x idx Hs IH Hall]; intros i d col v Hi Hc; [done |].
  destruct col as [| c col]; [done |]. destruct i as [| i]; simpl in *.
  - injection Hi as ->. injection Hc as ->. by rewrite (proj2 (eqb_eq d d)).
  - assert (Cal.eqb x d = false) as ->.
    { apply not_true_iff_false. intros ->%eqb_eq.
      apply list_elem_of_lookup_2 in Hi.
      pose proof (proj1 (Forall_forall _ _) Hall _ Hi) as H%CalFacts.ltb_lt. lia. }
    by eapply IH.
Qed.

(** Missing cells from row [j] to row [i] take what stands above row [j]. *)
Lemma ffill_from_gap col : forall last (j i : nat),
  (j <= i < length col)%nat ->
  (forall k : nat, (j <= k <= i)%nat -> col !! k = Some NaN) ->
  ffill_from last col !! i
  = Some (match j with O => last | S j' => nth j' (ffill_from last col) NaN end).
Proof.
  induction col as [| x col IH]; intros last j i Hi Hna; [simpl in Hi; lia |].
  destruct j as [| j].
  - apply ffill_from_all_na; [lia | intros k Hk; apply Hna; lia].
  - destruct i as [| i]; [lia |]. cbn [ffill_from]. simpl in Hi.
    rewrite lookup_cons. 
    rewrite (IH _ j i); [| lia | intros k Hk; apply (Hna (S k)); lia].
    by destruct j.
Qed.

Lemma forwarded_gap sidx scol idx (i j : nat) d f :
  chronological idx -> Forall (fun s => Cal.day s = 1) sidx ->
  idx !! i = Some d -> idx !! j = Some f ->
  Cal.year f = Cal.year d -> Cal.month f = Cal.month d -> Cal.day f = 1 ->
  1 <= Cal.day d ->
  find_date f sidx scol = NaN ->
  ffill (reindex_col sidx scol idx) !! i
  = Some (match j with
          | O => NaN
          | S j' => nth j' (ffill (reindex_col sidx scol idx)) NaN
          end).
Proof.
  intros Hchr Hsidx Hi Hj Hy Hm Hd1 Hd Hfind.
  assert (j <= i)%nat as Hji.
  { destruct (le_lt_dec j i) as [| Hlt]; [done |].
    pose proof (chronological_lookup _ Hchr _ _ _ _ Hi Hj Hlt) as H%CalFacts.ltb_lt. lia. }
  pose proof (lookup_lt_Some _ _ _ Hi) as Hlen.
  unfold ffill. apply ffill_from_gap.
  - rewrite reindex_col_length. lia.
  - intros k Hk.
    destruct (lookup_lt_is_Some_2 idx k ltac:(lia)) as [x Hx].
    rewrite (reindex_col_lookup _ _ _ _ _ Hx). f_equal.
    destruct (decide (k = j)) as [-> | Hne].
    { rewrite Hj in Hx. by injection Hx as <-. }
    pose proof (chronological_lookup _ Hchr _ _ _ _ Hj Hx ltac:(lia)) as Hfx%CalFacts.ltb_lt.
    assert (Cal.leb x d = true) as Hxd%CalFacts.leb_le.
    { destruct (decide (k = i)) as [-> | Hne'].
      - rewrite Hi in Hx. injection Hx as <-. apply CalFacts.leb_le. lia.
      - pose proof (chronological_lookup _ Hchr _ _ _ _ Hx Hi ltac:(lia)) as H%CalFacts.ltb_lt.
        apply CalFacts.leb_le. lia. }
    apply find_date_absent. apply Forall_forall. intros s Hs.
    pose proof (proj1 (Forall_forall _ _) Hsidx s Hs) as Hs1. simpl in Hs1.
    apply not_true_iff_false. intros ->%eqb_eq. lia.
Qed.

Lemma assoc_map_elem n (g : string * column -> string * column) : forall cols sc,
  assoc n (map g cols) = Some sc -> exists nc, nc ∈ cols /\ sc = (g nc).2.
Proof.
  induction cols as [| a cols IH]; intros sc H; [done |].
  simpl in H. destruct (g a) as [m c] eqn:E.
  destruct (String.eqb m n).
  - injection H as <-. exists a. split; [by left |]. by rewrite E.
  - destruct (IH _ H) as (nc & Hnc & ->). exists nc. split; [by right | done].
Qed.

(** The month means of a pull by the baseline, on the month starts. *)
Definition month_quotients (idx : list date) (c : column) (midx : list date) (mmed : column)
  : list date * column :=
  let months := month_span idx in
  let starts := map month_start (map month_end_of_index months) in
  let uidx := union_index starts midx in
  (uidx,
   zip_with vdiv
     (reindex_col starts (map (fun k => mean (month_cells k idx c)) months) uidx)
     (reindex_col midx mmed uidx)).

Lemma drop_take_app {A B} (f : A -> B) (cols : list A) (X : list B) :
  length X = length cols -> drop 1 (map f (take 1 cols) ++ X) = X.
Proof. destruct cols, X; simpl; intros; done. Qed.

(** [scale_d], column by column: a column for each pull, under the pull's
    name. *)
Lemma mixed_scale_eq data_d midx nm mmed :
  mixed_scale data_d (mkframe midx [(nm, mmed)])
  = Ok (mkframe (index data_d)
          (map (fun nc =>
                  (suffixed (names (mkframe (index data_d) (take 1 (columns data_d)))) "" nc.1,
                   ffill (reindex_col (month_quotients (index data_d) nc.2 midx mmed).1
                            (month_quotients (index data_d) nc.2 midx mmed).2
                            (index data_d))))
             (columns data_d))).
Proof.
  unfold mixed_scale, first_column. cbn [columns index rbind].
  unfold join_left.
  replace (String.eqb "_d" "") with false by reflexivity.
  rewrite andb_false_r. cbn [andb rbind index columns].
  do 2 f_equal.
  rewrite drop_take_app
    by (unfold div_by_series, truncate_index_to_month, resample_M_mean;
        cbn [columns]; by rewrite !length_map).
  unfold div_by_series, truncate_index_to_month, resample_M_mean, month_quotients.
  cbn [columns index]. rewrite !map_map. apply map_ext. intros [m c].
  cbn [fst snd]. reflexivity.
Qed.

Lemma mixed_scale_cells data_d midx nm mmed scale_d n sc :
  mixed_scale data_d (mkframe midx [(nm, mmed)]) = Ok scale_d ->
  assoc n (columns scale_d) = Some sc ->
  exists nc, nc ∈ columns data_d /\
    sc = ffill (reindex_col (month_quotients (index data_d) nc.2 midx mmed).1
                  (month_quotients (index data_d) nc.2 midx mmed).2 (index data_d)).
Proof.
  rewrite mixed_scale_eq. intros [= <-] H. cbn [columns] in H.
  by apply assoc_map_elem in H as (nc & Hnc & ->); exists nc.
Qed.

(** On the row of a month start that is in the daily index stands the
    quotient of the month's mean by the month's baseline, and there are
    rows for month starts only. *)
Lemma month_quotients_first idx c midx mmed first :
  Forall Cal.valid idx -> Forall (fun s => Cal.day s = 1) midx ->
  first ∈ idx -> Cal.day first = 1 ->
  Forall (fun s => Cal.day s = 1) (month_quotients idx c midx mmed).1 /\
  find_date first (month_quotients idx c midx mmed).1 (month_quotients idx c midx mmed).2
  = vdiv (mean (month_cells (month_index first) idx c)) (find_date first midx mmed).
Proof.
  intros Hval Hmidx Hf Hf1. unfold month_quotients. cbn [fst snd].
  pose proof (proj1 (Forall_forall _ _) Hval _ Hf) as (_ & Hfm & _)%CalFacts.valid_iff.
  pose proof (month_span_elem _ _ Hf) as Hspan.
  split.
  - apply Forall_forall. intros s [Hs | Hs]%elem_of_union_index.
    + apply list_elem_of_In, in_map_iff in Hs as (x & <- & _). done.
    + by apply (proj1 (Forall_forall _ _) Hmidx).
  - unfold reindex_col.
    rewrite (find_date_zip vdiv first
               (fun d => find_date d (map month_start (map month_end_of_index (month_span idx)))
                           (map (fun k => mean (month_cells k idx c)) (month_span idx)))
               (fun d => find_date d midx mmed)).
    + by rewrite (find_date_month_mean (fun k => mean (month_cells k idx c))).
    + apply elem_of_union_index. left.
      apply list_elem_of_In, in_map_iff. exists (month_end_of_index (month_index first)).
      split; [by apply index_of_month |].
      apply in_map, list_elem_of_In, Hspan.
Qed.

Lemma median_all_na l : Forall (fun v => v = NaN) l -> median l = NaN.
Proof.
  intros H. unfold median.
  assert (filter (fun v => notna v = true) l = []) as ->; [| done].
  induction H as [| v l -> _ IH]; [done |]. by rewrite filter_cons_False.
Qed.

(** The table of [uniformdata=False] by the scale of its pulls. *)
Lemma robust_mixed_output word geo data_d midx mmed scale_d :
  mixed_scale data_d (mkframe midx [(col_med word geo, mmed)]) = Ok scale_d ->
  robust_mixed word geo data_d (mkframe midx [(col_med word geo, mmed)])
  = Ok (mkframe (index data_d)
          [(col_med word geo ++ "",
            map (fun i => median (row (div_frames data_d scale_d) i))
              (seq 0 (length (index data_d))));
           (col_med word geo ++ "_monthly", baseline_column (index data_d) midx mmed)]).
Proof.
  intros H. rewrite robust_mixed_by_scale, H. cbn [rbind].
  unfold median_frame.
  change (index (div_frames data_d scale_d)) with (index data_d).
  set (med := map _ (seq 0 _)).
  unfold join_left, overlap, names, suffixed, ffill_column, getcol, setcol.
  engine_step.
  reflexivity.
Qed.

(** Where the scale of every pull is zero, a row on which every pull is
    zero or missing has no scaled value at all. *)
Lemma scaled_row_missing data_d scale_d (i : nat) d :
  chronological (index data_d) -> index scale_d = index data_d ->
  index data_d !! i = Some d ->
  (forall n sc, assoc n (columns scale_d) = Some sc -> sc !! i = Some (Fin (Q2Qc 0))) ->
  (forall nc x, nc ∈ columns data_d -> nc.2 !! i = Some x -> x = Fin (Q2Qc 0) \/ x = NaN) ->
  median (row (div_frames data_d scale_d) i) = NaN.
Proof.
  intros Hchr Hidx Hi Hscale Hraw. apply median_all_na.
  unfold row, div_frames. cbn [columns index]. rewrite map_app, !map_map.
  apply Forall_app. split; apply Forall_forall; intros v Hv;
    apply list_elem_of_In, in_map_iff in Hv as (nc & <- & Hnc); cbn [snd].
  - rewrite nth_lookup.
    destruct (assoc nc.1 (columns scale_d)) as [sc |] eqn:Hsc.
    + rewrite lookup_zip_with.
      destruct (nc.2 !! i) as [x |] eqn:Hx; [| done]. cbn [mbind option_bind].
      rewrite (reindex_col_lookup _ _ _ _ _ Hi). cbn [mbind option_bind default].
      rewrite Hidx, (find_date_at _ Hchr _ _ _ _ Hi (Hscale _ _ Hsc)).
      by destruct (Hraw nc x ltac:(by apply list_elem_of_In) Hx) as [-> | ->].
    + rewrite list_lookup_fmap. by destruct (nc.2 !! i).
  - rewrite nth_lookup, list_lookup_fmap, Hi. done.
Qed.

End ZeroFacts.

(** C4 as amended.  No division faults: a float division by zero gives an
    infinity or NaN.  What the scale of a month of mean zero is depends on
    the path; below, the month is one whose first day is among the daily
    rows, and [k] is its baseline.

    In the single pull ([scale_once], lines 166 to 168) the scale on every
    row of the month is the quotient [k / 0], that is plus infinity for a
    positive [k], minus infinity for a negative one and NaN for zero; it is
    not taken from an earlier month.  The scaled value of a row of the month
    whose raw value is zero or missing is missing.

    In the read of mixed pulls ([robust_mixed], lines 269 to 276) the scale
    is the other quotient, month mean by baseline, and the daily values are
    divided by it.  When every pull has the mean zero in the month and [k]
    is not zero, the scale of every pull is 0 on every row of the month, and
    the row is missing in the table returned when every pull is zero or
    missing on it.  When [k] is zero as well, the quotient 0 / 0 is missing
    and line 273 fills it forward: the scale on every row of the month is
    the scale of the row above the month's first day, and it is missing
    when the month's first day is the first row. *)
Theorem zero_mean_scale_by_path
    (word geo : string) (results : list frame) (monthly daily0 : frame)
    (raw part base mpart : column) (data_d : frame) (midx : list date) (mmed : column)
    (first : date) (k : Qc) :
  word <> "isPartial"%string ->
  concat results = Ok daily0 ->
  columns daily0 = [(word, raw); ("isPartial"%string, part)] ->
  columns monthly = [(word, base); ("isPartial"%string, mpart)] ->
  chronological (index daily0) -> Forall Cal.valid (index daily0) ->
  Forall (fun d => Cal.day d = 1) (index monthly) ->
  first ∈ index daily0 -> Cal.day first = 1 ->
  find_date first (index monthly) base = Fin k ->
  mean (month_cells (month_index first) (index daily0) raw) = Fin (Q2Qc 0) ->
  chronological (index data_d) -> Forall Cal.valid (index data_d) ->
  Forall (fun d => Cal.day d = 1) midx ->
  first ∈ index data_d ->
  find_date first midx mmed = Fin k ->
  Forall (fun nc => mean (month_cells (month_index first) (index data_d) nc.2)
                    = Fin (Q2Qc 0)) (columns data_d) ->
  (exists out mon sc scaled,
     scale_once word geo results monthly = Ok out /\
     columns out = [(col_unscaled word geo, raw); (col_monthly word geo, mon);
                    ("scale"%string, sc); (col_scaled word geo, scaled)] /\
     (forall (i : nat) d x,
        index daily0 !! i = Some d -> month_index d = month_index first ->
        raw !! i = Some x ->
        sc !! i = Some (inf_of_sign (sgn k)) /\
        (x = Fin (Q2Qc 0) \/ x = NaN -> scaled !! i = Some NaN))) /\
  (exists scale_d out med mon,
     mixed_scale data_d (mkframe midx [(col_med word geo, mmed)]) = Ok scale_d /\
     names scale_d = names data_d /\
     robust_mixed word geo data_d (mkframe midx [(col_med word geo, mmed)]) = Ok out /\
     columns out = [((col_med word geo ++ "")%string, med);
                    ((col_med word geo ++ "_monthly")%string, mon)] /\
     (forall (i : nat) d,
        index data_d !! i = Some d -> month_index d = month_index first ->
        (k <> Q2Qc 0 ->
         (forall n sc, assoc n (columns scale_d) = Some sc ->
            sc !! i = Some (Fin (Q2Qc 0))) /\
         ((forall nc x, nc ∈ columns data_d -> nc.2 !! i = Some x ->
             x = Fin (Q2Qc 0) \/ x = NaN) ->
          med !! i = Some NaN)) /\
        (k = Q2Qc 0 ->
         forall (j : nat) n sc,
           index data_d !! j = Some first -> assoc n (columns scale_d) = Some sc ->
           sc !! i = Some (match j with O => NaN | S j' => nth j' sc NaN end)))).
Proof.
  intros Hword Hconcat Hcols Hmcols Hchr Hval Hmidx Hf Hf1 Hbase Hmean
    Hchr' Hval' Hmidx' Hf' Hbase' Hzero.
  split.
  { by eapply ZeroFacts.scale_once_zero_mean. }
  pose proof (ZeroFacts.mixed_scale_eq data_d midx (col_med word geo) mmed) as Hsc.
  match type of Hsc with _ = Ok ?fr => set (scale_d := fr) in Hsc end.
  exists scale_d. eexists _, _, _. split; [exact Hsc |].
  split.
  { unfold scale_d, names. cbn [columns]. rewrite map_map. apply map_ext.
    intros [n c]. cbn [fst]. unfold suffixed.
    destruct (has_name _ _); [apply ZeroFacts.app_empty_r | done]. }
  split; [exact (ZeroFacts.robust_mixed_output _ _ _ _ _ _ Hsc) |].
  split; [reflexivity |].
  intros i d Hi Hsame.
  pose proof (proj1 (Forall_forall _ _) Hval' _ Hf') as Hfv.
  pose proof (proj1 (Forall_forall _ _) Hval' _ (list_elem_of_lookup_2 _ _ _ Hi)) as Hdv.
  destruct (ScaleFacts.same_month_valid _ _ Hdv Hfv Hsame) as [Hy Hm].
  apply CalFacts.valid_iff in Hdv as (_ & _ & Hdd).
  assert (forall n sc, assoc n (columns scale_d) = Some sc ->
            exists qidx q,
              sc = ffill (reindex_col qidx q (index data_d)) /\
              Forall (fun s => Cal.day s = 1) qidx /\
              find_date first qidx q = vdiv (Fin (Q2Qc 0)) (Fin k)) as Hcell.
  { intros n sc Hassoc.
    destruct (ZeroFacts.mixed_scale_cells _ _ _ _ _ _ _ Hsc Hassoc) as (nc & Hnc & ->).
    destruct (ZeroFacts.month_quotients_first (index data_d) nc.2 midx mmed first
                Hval' Hmidx' Hf' Hf1) as [Hdays Hfind].
    rewrite (proj1 (Forall_forall _ _) Hzero _ Hnc), Hbase' in Hfind.
    by eexists _, _. }
  split.
  - intros Hk.
    assert (vdiv (Fin (Q2Qc 0)) (Fin k) = Fin (Q2Qc 0)) as Hq.
    { rewrite ScaleFacts.vdiv_fin by done. f_equal. unfold Qcdiv. ring. }
    assert (forall n sc, assoc n (columns scale_d) = Some sc ->
              sc !! i = Some (Fin (Q2Qc 0))) as Hscale.
    { intros n sc Hassoc.
      destruct (Hcell _ _ Hassoc) as (qidx & q & -> & Hdays & Hfind).
      rewrite Hq in Hfind.
      eapply ScaleFacts.forwarded; try done. lia. }
    split; [exact Hscale |].
    intros Hraw.
    rewrite ScaleFacts.lookup_map, lookup_seq_lt by (by eapply lookup_lt_Some).
    cbn [fmap option_fmap option_map]. f_equal.
    by eapply ZeroFacts.scaled_row_missing.
  - intros -> j n sc Hj Hassoc.
    destruct (Hcell _ _ Hassoc) as (qidx & q & -> & Hdays & Hfind).
    eapply ZeroFacts.forwarded_gap; try done. lia.
Qed.

Lemma zero_mean_scale_by_path_witness :
  let jan := constant_chunk "flu" 2020 1 5 in
  let feb := constant_chunk "flu" 2020 2 0 in
  let days := (month_days 2020 1 ++ month_days 2020 2)%list in
  let raw := (map (fun _ => Fin (Qc_of_Z 5)) (month_days 2020 1)
              ++ map (fun _ => Fin (Qc_of_Z 0)) (month_days 2020 2))%list in
  let monthly :=
    monthly_table "flu" [(Cal.mkdate 2020 1 1, 10); (Cal.mkdate 2020 2 1, 20)] in
  let data_d :=
    mkframe days [("flu_03_09_2020"%string, raw); ("flu_03_10_2020"%string, raw)] in
  let midx := [Cal.mkdate 2020 1 1; Cal.mkdate 2020 2 1] in
  let mmed := [Fin (Qc_of_Z 10); Fin (Qc_of_Z 20)] in
  let february := month_index (Cal.mkdate 2020 2 1) in
  (exists out mon sc scaled,
     scale_once "flu" "US" [jan; feb] monthly = Ok out /\
     columns out = [(col_unscaled "flu" "US", raw); (col_monthly "flu" "US", mon);
                    ("scale"%string, sc); (col_scaled "flu" "US", scaled)] /\
     (forall (i : nat) d x,
        days !! i = Some d -> month_index d = february -> raw !! i = Some x ->
        sc !! i = Some (inf_of_sign (sgn (Qc_of_Z 20))) /\
        (x = Fin (Q2Qc 0) \/ x = NaN -> scaled !! i = Some NaN))) /\
  (exists scale_d out med mon,
     mixed_scale data_d (mkframe midx [(col_med "flu" "US", mmed)]) = Ok scale_d /\
     names scale_d = names data_d /\
     robust_mixed "flu" "US" data_d (mkframe midx [(col_med "flu" "US", mmed)]) = Ok out /\
     columns out = [((col_med "flu" "US" ++ "")%string, med);
                    ((col_med "flu" "US" ++ "_monthly")%string, mon)] /\
     (forall (i : nat) d,
        days !! i = Some d -> month_index d = february ->
        (Qc_of_Z 20 <> Q2Qc 0 ->
         (forall n sc, assoc n (columns scale_d) = Some sc ->
            sc !! i = Some (Fin (Q2Qc 0))) /\
         ((forall nc x, nc ∈ columns data_d -> nc.2 !! i = Some x ->
             x = Fin (Q2Qc 0) \/ x = NaN) ->
          med !! i = Some NaN)) /\
        (Qc_of_Z 20 = Q2Qc 0 ->
         forall (j : nat) n sc,
           days !! j = Some (Cal.mkdate 2020 2 1) -> assoc n (columns scale_d) = Some sc ->
           sc !! i = Some (match j with O => NaN | S j' => nth j' sc NaN end)))).
Proof.
  intros jan feb days raw monthly data_d midx mmed february.
  apply (zero_mean_scale_by_path "flu" "US" [jan; feb] monthly
           (mkframe days [("flu"%string, raw);
                          ("isPartial"%string, map (fun _ => flag false) days)])
           raw (map (fun _ => flag false) days)
           [Fin (Qc_of_Z 10); Fin (Qc_of_Z 20)] [flag false; flag false]
           data_d midx mmed (Cal.mkdate 2020 2 1) (Qc_of_Z 20)).
  - discriminate.
  - vm_compute. reflexivity.
  - reflexivity.
  - reflexivity.
  - unfold chronological. apply (bool_decide_unpack _). by vm_compute.
  - unfold Cal.valid. apply (bool_decide_unpack _). by vm_compute.
  - apply (bool_decide_unpack _). by vm_compute.
  - apply (list_elem_of_lookup_2 _ 31%nat). vm_compute. reflexivity.
  - reflexivity.
  - reflexivity.
  - apply fin_by_rational. by vm_compute.
  - unfold chronological. apply (bool_decide_unpack _). by vm_compute.
  - unfold Cal.valid. apply (bool_decide_unpack _). by vm_compute.
  - apply (bool_decide_unpack _). by vm_compute.
  - apply (list_elem_of_lookup_2 _ 31%nat). vm_compute. reflexivity.
  - reflexivity.
  - repeat constructor; apply fin_by_rational; by vm_compute.
Defined.

(** The read of mixed pulls in numbers, for one pull with the value 5 on
    every day of January and 0 on every day of February, and the baseline
    10 in January: with the baseline 20 in February the scale of February
    is 0 and the row of 1 February is missing in the table returned; with
    the baseline 0 the scale of February is the 1/2 of January, filled
    forward, and the row of 1 February holds 0. *)
Example zero_mean_in_mixed_pulls :
  let pulls :=
    mkframe (month_days 2020 1 ++ month_days 2020 2)%list
      [("flu_03_10_2020"%string,
        (map (fun _ => Fin (Qc_of_Z 5)) (month_days 2020 1)
         ++ map (fun _ => Fin (Qc_of_Z 0)) (month_days 2020 2))%list)] in
  let see (february : Z) :=
    let monthly_med :=
      mkframe [Cal.mkdate 2020 1 1; Cal.mkdate 2020 2 1]
        [(col_med "flu" "US", [Fin (Qc_of_Z 10); Fin (Qc_of_Z february)])] in
    let* scale_d := mixed_scale pulls monthly_med in
    let* out := robust_mixed "flu" "US" pulls monthly_med in
    let* sc := first_column scale_d in
    let* med := first_column out in
    Ok (rational <$> sc !! 30%nat, rational <$> sc !! 31%nat,
        rational <$> (med !! 31%nat)) in
  see 20 = Ok (Some (Some (1 # 2)%Q), Some (Some 0%Q), Some None) /\
  see 0 = Ok (Some (Some (1 # 2)%Q), Some (Some (1 # 2)%Q), Some (Some 0%Q)).
Proof. split; vm_compute; reflexivity. Qed.

(** ** The read path: what the two aggregations return *)

Module RobustFacts.
Local Open Scope string_scope.

Lemma ffill_gap_free col : gap_free (ffill col).
Proof.
  intros i j v Hi Hv Hj. rewrite ScaleFacts.ffill_length in Hj.
  by eapply ScaleFacts.ffill_from_no_gap.
Qed.

(** A forwarded column keeps every value the baseline has for a row. *)
Lemma baseline_column_keeps idx midx base (i : nat) d v :
  idx !! i = Some d -> find_date d midx base = v -> isna v = false ->
  baseline_column idx midx base !! i = Some v.
Proof.
  intros Hi Hfind Hv. unfold baseline_column, ffill.
  apply ScaleFacts.ffill_from_keeps; [| done].
  by rewrite (ScaleFacts.reindex_col_lookup _ _ _ _ _ Hi), Hfind.
Qed.

Lemma baseline_column_length idx midx base :
  length (baseline_column idx midx base) = length idx.
Proof.
  unfold baseline_column. by rewrite ScaleFacts.ffill_length, ScaleFacts.reindex_col_length.
Qed.

(** The table of [uniformdata=True]: the forwarded monthly medians and the
    scaled daily medians. *)
Lemma robust_uniform_columns word geo data_d midx mmed start stop :
  let daily_med := median_frame (slice data_d start stop) (col_med word geo) in
  exists med,
    columns daily_med = [(col_med word geo, med)] /\
    robust_uniform word geo data_d (mkframe midx [(col_med word geo, mmed)]) start stop
    = Ok (mkframe (index daily_med)
            [(col_med word geo ++ "_monthly", baseline_column (index daily_med) midx mmed);
             (col_med word geo, scaled_column (index daily_med) med midx mmed)]).
Proof.
  intros daily_med. unfold robust_uniform. fold daily_med.
  destruct daily_med as [idx cols] eqn:E.
  assert (exists med, cols = [(col_med word geo, med)]) as [med ->].
  { unfold median_frame in E. injection E as _ <-. by eexists. }
  exists med. split; [done |].
  unfold col_med,
    setcol_frame, resample_M_mean, truncate_index_to_month, ffill_column, getcol, setcol,
    join_left, overlap, names, suffixed, drop_columns.
  engine_step. unfold names. engine_step.
  reflexivity.
Qed.

(** The table of [uniformdata=False]: the medians of the rescaled pulls and
    the forwarded monthly medians. *)
Lemma robust_mixed_columns word geo data_d midx mmed :
  exists med,
    robust_mixed word geo data_d (mkframe midx [(col_med word geo, mmed)])
    = Ok (mkframe (index data_d)
            [(col_med word geo ++ "", med);
             (col_med word geo ++ "_monthly", baseline_column (index data_d) midx mmed)]).
Proof.
  unfold robust_mixed, first_column. cbn [columns index rbind].
  unfold join_left at 1.
  replace (String.eqb "_d" "") with false by reflexivity.
  rewrite andb_false_r. cbn [andb rbind index columns].
  set (scaled := div_frames _ _).
  unfold median_frame.
  assert (index scaled = index data_d) as -> by done.
  set (med := map _ (seq 0 _)). exists med.
  unfold join_left, overlap, names, suffixed, ffill_column, getcol, setcol.
  engine_step.
  reflexivity.
Qed.

End RobustFacts.

(** C7: the monthly baseline column of each of the three tables has no
    missing cell below a cell that is not missing, and on every row for
    whose date the baseline has a value it holds that value.  The single
    pull is [scale_once], the two aggregations are [robust_uniform] and
    [robust_mixed] on the medians of the stored monthly table. *)
Theorem baseline_column_has_no_gap
    (word geo : string) (results : list frame) (monthly daily0 : frame)
    (raw part base mpart : column) (data_d data_m : frame) (start_date stop_date : date) :
  word <> "isPartial"%string ->
  concat results = Ok daily0 ->
  columns daily0 = [(word, raw); ("isPartial"%string, part)] ->
  columns monthly = [(word, base); ("isPartial"%string, mpart)] ->
  let follows (out : frame) (mon : column) (midx : list date) (b : column) :=
    length mon = length (index out) /\ gap_free mon /\
    forall (i : nat) d v,
      index out !! i = Some d -> find_date d midx b = v -> isna v = false ->
      mon !! i = Some v in
  let monthly_med := median_frame data_m (col_med word geo) in
  (exists out mon,
     scale_once word geo results monthly = Ok out /\
     getcol out (col_monthly word geo) = Ok mon /\
     follows out mon (index monthly) base) /\
  (exists out mon b,
     robust_uniform word geo data_d monthly_med start_date stop_date = Ok out /\
     getcol out (col_med word geo ++ "_monthly")%string = Ok mon /\
     getcol monthly_med (col_med word geo) = Ok b /\
     follows out mon (index monthly_med) b) /\
  (exists out mon b,
     robust_mixed word geo data_d monthly_med = Ok out /\
     getcol out (col_med word geo ++ "_monthly")%string = Ok mon /\
     getcol monthly_med (col_med word geo) = Ok b /\
     follows out mon (index monthly_med) b).
Proof.
  intros Hword Hconcat Hcols Hmcols follows monthly_med.
  subst monthly_med. unfold median_frame.
  assert (forall idx midx b,
            follows (mkframe idx []) (baseline_column idx midx b) midx b) as Hfollows.
  { intros idx midx b. split; [apply RobustFacts.baseline_column_length |].
    split; [apply RobustFacts.ffill_gap_free |].
    intros i d v Hi Hfind Hv. by eapply RobustFacts.baseline_column_keeps. }
  split; [| split].
  - rewrite (ScaleFacts.scale_once_columns _ _ _ _ _ _ _ _ _ Hword Hconcat Hcols Hmcols).
    do 2 eexists. split; [done |]. split; [| apply (Hfollows (index daily0))].
    unfold getcol, col_unscaled, col_monthly. cbn [columns]. by engine_step.
  - destruct (RobustFacts.robust_uniform_columns word geo data_d (index data_m)
                (map (fun i => median (row data_m i)) (seq 0 (length (index data_m))))
                start_date stop_date) as (med & _ & ->).
    do 3 eexists. split; [done |]. split; [| split].
    + unfold getcol. cbn [columns]. by engine_step.
    + unfold getcol. cbn [columns]. by engine_step.
    + apply (Hfollows (index (median_frame (slice data_d start_date stop_date)
                                (col_med word geo)))).
  - destruct (RobustFacts.robust_mixed_columns word geo data_d (index data_m)
                (map (fun i => median (row data_m i)) (seq 0 (length (index data_m)))))
      as (med & ->).
    do 3 eexists. split; [done |]. split; [| split].
    + unfold getcol. cbn [columns]. by engine_step.
    + unfold getcol. cbn [columns]. by engine_step.
    + apply (Hfollows (index data_d)).
Qed.

Lemma baseline_column_has_no_gap_witness :
  let word := "flu"%string in
  let geo := "US"%string in
  let results := [constant_chunk "flu" 2020 1 5; constant_chunk "flu" 2020 2 5] in
  let monthly :=
    monthly_table "flu" [(Cal.mkdate 2020 1 1, 10); (Cal.mkdate 2020 2 1, 20)] in
  let base := [Fin (Qc_of_Z 10); Fin (Qc_of_Z 20)] in
  let data_d := mkframe [Cal.mkdate 2020 1 1; Cal.mkdate 2020 1 2]
                  [("flu_01_05_2020"%string, [Fin (Qc_of_Z 4); Fin (Qc_of_Z 6)])] in
  let data_m := mkframe [Cal.mkdate 2020 1 1]
                  [("flu_01_05_2020"%string, [Fin (Qc_of_Z 50)])] in
  let start_date := Cal.mkdate 2020 1 1 in
  let stop_date := Cal.mkdate 2020 12 31 in
  let follows (out : frame) (mon : column) (midx : list date) (b : column) :=
    length mon = length (index out) /\ gap_free mon /\
    forall (i : nat) d v,
      index out !! i = Some d -> find_date d midx b = v -> isna v = false ->
      mon !! i = Some v in
  let monthly_med := median_frame data_m (col_med word geo) in
  (exists out mon,
     scale_once word geo results monthly = Ok out /\
     getcol out (col_monthly word geo) = Ok mon /\
     follows out mon (index monthly) base) /\
  (exists out mon b,
     robust_uniform word geo data_d monthly_med start_date stop_date = Ok out /\
     getcol out (col_med word geo ++ "_monthly")%string = Ok mon /\
     getcol monthly_med (col_med word geo) = Ok b /\
     follows out mon (index monthly_med) b) /\
  (exists out mon b,
     robust_mixed word geo data_d monthly_med = Ok out /\
     getcol out (col_med word geo ++ "_monthly")%string = Ok mon /\
     getcol monthly_med (col_med word geo) = Ok b /\
     follows out mon (index monthly_med) b).
Proof.
  intros word geo results monthly base data_d data_m start_date stop_date.
  apply (baseline_column_has_no_gap word geo results monthly
           (mkframe (month_days 2020 1 ++ month_days 2020 2)
              [("flu"%string,
                map (fun _ => Fin (Qc_of_Z 5)) (month_days 2020 1 ++ month_days 2020 2));
               ("isPartial"%string,
                map (fun _ => flag false) (month_days 2020 1 ++ month_days 2020 2))])
           (map (fun _ => Fin (Qc_of_Z 5)) (month_days 2020 1 ++ month_days 2020 2))
           (map (fun _ => flag false) (month_days 2020 1 ++ month_days 2020 2))
           base [flag false; flag false] data_d data_m start_date stop_date).
  - discriminate.
  - vm_compute. reflexivity.
  - reflexivity.
  - reflexivity.
Defined.

(** ** The median of a row does not depend on the order of the columns *)

Module MedianFacts.

Lemma vleb_fin x y : vleb (Fin x) (Fin y) = true <-> (x <= y)%Qc.
Proof.
  simpl. rewrite Qcle_alt. destruct (x ?= y)%Qc; intuition congruence.
Qed.

#[local] Instance vle_total : Total vle.
Proof.
  intros a b. unfold vle.
  destruct a as [x | | |], b as [y | | |]; simpl; auto.
  fold (vleb (Fin x) (Fin y)). fold (vleb (Fin y) (Fin x)).
  rewrite !vleb_fin. destruct (Qclt_le_dec x y) as [H | H]; auto using Qclt_le_weak.
Qed.

#[local] Instance vle_trans : Transitive vle.
Proof.
  intros a b c. unfold vle.
  destruct a as [x | | |], b as [y | | |], c as [z | | |]; simpl; try done.
  fold (vleb (Fin x) (Fin y)). fold (vleb (Fin y) (Fin z)). fold (vleb (Fin x) (Fin z)).
  rewrite !vleb_fin. apply Qcle_trans.
Qed.

#[local] Instance vle_antisym : AntiSymm (=) vle.
Proof.
  intros a b. unfold vle.
  destruct a as [x | | |], b as [y | | |]; simpl; try done.
  fold (vleb (Fin x) (Fin y)). fold (vleb (Fin y) (Fin x)).
  rewrite !vleb_fin. intros H1 H2. f_equal. by apply Qcle_antisym.
Qed.

Lemma merge_sort_perm (l l' : list value) :
  l ≡ₚ l' -> merge_sort vle l = merge_sort vle l'.
Proof.
  intros H. apply (Sorted_unique vle).
  - apply Sorted_merge_sort, _.
  - apply Sorted_merge_sort, _.
  - by rewrite !merge_sort_Permutation.
Qed.

Lemma median_perm (l l' : list value) : l ≡ₚ l' -> median l = median l'.
Proof.
  intros H. unfold median.
  assert (filter (fun v => notna v = true) l ≡ₚ filter (fun v => notna v = true) l') as Hf
    by by rewrite H.
  by rewrite (merge_sort_perm _ _ Hf).
Qed.

(** Two tables with the same index and the same columns in another order. *)
Definition reordered (a b : frame) : Prop :=
  index a = index b /\ columns a ≡ₚ columns b.

Lemma slice_reordered a b start stop :
  reordered a b -> reordered (slice a start stop) (slice b start stop).
Proof.
  intros [Hi Hc]. unfold reordered, slice. simpl. rewrite Hi. split; [done |].
  by apply Permutation_map.
Qed.

Lemma median_frame_reordered a b n :
  reordered a b -> median_frame a n = median_frame b n.
Proof.
  intros [Hi Hc]. unfold median_frame. rewrite Hi. do 3 f_equal.
  apply map_ext. intros i. apply median_perm. unfold row.
  by apply Permutation_map.
Qed.

End MedianFacts.

Module ReadFacts.

(** The read path on a workbook that has both sheets. *)
Lemma getDailyDataFromDB_sheets today dbpath word geo cat start_year stop_year w
    start_date stop_end book sheet_m sheet_d :
  Cal.mk start_year 1 1 = Ok start_date -> Cal.mk stop_year 12 31 = Ok stop_end ->
  files w !! db_file dbpath cat word geo = Some book ->
  book !! "monthly"%string = Some sheet_m -> book !! "daily"%string = Some sheet_d ->
  let stop_date := Cal.min2 stop_end today in
  getDailyDataFromDB today dbpath word geo cat start_year stop_year true w
  = (let* complete :=
       robust_uniform word geo (slice sheet_d start_date stop_date)
         (median_frame (slice sheet_m start_date stop_date) (col_med word geo))
         start_date stop_date in
     Ok (Some complete), w).
Proof.
  intros Hs He Hbook Hm Hd stop_date.
  unfold getDailyDataFromDB, bind, lift, isfile, read_excel.
  rewrite Hs, He, Hbook. rewrite bool_decide_eq_true_2 by done.
  cbv beta iota. rewrite Hbook, Hm. cbv beta iota. rewrite Hbook, Hd. cbv beta iota.
  fold stop_date. by destruct (robust_uniform _ _ _ _ _ _).
Qed.

(** The read path on a workbook without its monthly sheet. *)
Lemma getDailyDataFromDB_no_monthly today dbpath word geo cat start_year stop_year
    uniformdata w start_date stop_end book :
  Cal.mk start_year 1 1 = Ok start_date -> Cal.mk stop_year 12 31 = Ok stop_end ->
  files w !! db_file dbpath cat word geo = Some book ->
  book !! "monthly"%string = None ->
  getDailyDataFromDB today dbpath word geo cat start_year stop_year uniformdata w
  = (Raise ValueError, w).
Proof.
  intros Hs He Hbook Hm.
  unfold getDailyDataFromDB, bind, lift, isfile, read_excel.
  rewrite Hs, He, Hbook. rewrite bool_decide_eq_true_2 by done.
  cbv beta iota. by rewrite Hbook, Hm.
Qed.

(** The read path on a workbook without its daily sheet. *)
Lemma getDailyDataFromDB_no_daily today dbpath word geo cat start_year stop_year
    uniformdata w start_date stop_end book sheet_m :
  Cal.mk start_year 1 1 = Ok start_date -> Cal.mk stop_year 12 31 = Ok stop_end ->
  files w !! db_file dbpath cat word geo = Some book ->
  book !! "monthly"%string = Some sheet_m -> book !! "daily"%string = None ->
  getDailyDataFromDB today dbpath word geo cat start_year stop_year uniformdata w
  = (Raise ValueError, w).
Proof.
  intros Hs He Hbook Hm Hd.
  unfold getDailyDataFromDB, bind, lift, isfile, read_excel.
  rewrite Hs, He, Hbook. rewrite bool_decide_eq_true_2 by done.
  cbv beta iota. rewrite Hbook, Hm. cbv beta iota. by rewrite Hbook, Hd.
Qed.

(** A year outside 1..9999 is refused before anything is read. *)
Lemma getDailyDataFromDB_bad_year today dbpath word geo cat start_year stop_year
    uniformdata w :
  ~ (1 <= start_year <= 9999 /\ 1 <= stop_year <= 9999) ->
  getDailyDataFromDB today dbpath word geo cat start_year stop_year uniformdata w
  = (Raise ValueError, w).
Proof.
  intros Hbad. unfold getDailyDataFromDB, bind, lift, Cal.mk.
  destruct (Cal.valid_ymd start_year 1 1) eqn:E1; [| done].
  destruct (Cal.valid_ymd stop_year 12 31) eqn:E2; [| done].
  exfalso. apply Hbad. unfold Cal.valid_ymd in *.
  rewrite !andb_true_iff, !Z.leb_le in E1, E2. lia.
Qed.

End ReadFacts.

(** C8: [getDailyDataFromDB] with [uniformdata=True] returns the same table
    when the columns of the stored daily table are put in another order. *)
Theorem uniform_read_is_column_order_independent
    (today : date) (dbpath word geo : string) (cat start_year stop_year : Z) (w : world)
    (book : workbook) (data_d : frame) (cols' : list (string * column)) :
  files w !! db_file dbpath cat word geo = Some book ->
  book !! "daily"%string = Some data_d ->
  columns data_d ≡ₚ cols' ->
  let book' := <["daily"%string := mkframe (index data_d) cols']> book in
  let w' := mkworld (service w) (asked w) (entropy w) (drawn w)
              (<[db_file dbpath cat word geo := book']> (files w)) (trace w) in
  fst (getDailyDataFromDB today dbpath word geo cat start_year stop_year true w)
  = fst (getDailyDataFromDB today dbpath word geo cat start_year stop_year true w').
Proof.
  intros Hbook Hd Hperm book' w'.
  assert (files w' !! db_file dbpath cat word geo = Some book') as Hbook'
    by apply lookup_insert_eq.
  assert (book' !! "daily"%string = Some (mkframe (index data_d) cols')) as Hd'
    by apply lookup_insert_eq.
  assert (book' !! "monthly"%string = book !! "monthly"%string) as Hm'
    by by apply lookup_insert_ne.
  destruct (decide (1 <= start_year <= 9999 /\ 1 <= stop_year <= 9999)) as [[Hs He] | Hbad].
  2:{ by rewrite !ReadFacts.getDailyDataFromDB_bad_year. }
  pose proof (CalFacts.mk_ok start_year 1 1 Hs ltac:(lia) ltac:(vm_compute; intuition discriminate))
    as Hmks.
  pose proof (CalFacts.mk_ok stop_year 12 31 He ltac:(lia) ltac:(vm_compute; intuition discriminate))
    as Hmke.
  destruct (book !! "monthly"%string) as [sheet_m |] eqn:Hm.
  2:{ rewrite (ReadFacts.getDailyDataFromDB_no_monthly _ _ _ _ _ _ _ _ w _ _ book Hmks Hmke)
        by done.
      by rewrite (ReadFacts.getDailyDataFromDB_no_monthly _ _ _ _ _ _ _ _ w' _ _ book' Hmks Hmke)
        by done. }
  rewrite (ReadFacts.getDailyDataFromDB_sheets _ _ _ _ _ _ _ w _ _ _ _ _ Hmks Hmke Hbook Hm Hd).
  rewrite (ReadFacts.getDailyDataFromDB_sheets _ _ _ _ _ _ _ w' _ _ _ _ _ Hmks Hmke Hbook' Hm' Hd').
  cbn [fst]. unfold robust_uniform.
  assert (MedianFacts.reordered data_d (mkframe (index data_d) cols')) as Hre by done.
  by rewrite (MedianFacts.median_frame_reordered _ _ (col_med word geo)
                (MedianFacts.slice_reordered _ _ _ _
                   (MedianFacts.slice_reordered _ _
                      (Cal.mkdate start_year 1 1)
                      (Cal.min2 (Cal.mkdate stop_year 12 31) today) Hre))).
Qed.

Lemma uniform_read_is_column_order_independent_witness :
  let today := Cal.mkdate 2020 3 1 in
  let days := [Cal.mkdate 2020 1 1; Cal.mkdate 2020 1 2; Cal.mkdate 2020 2 1] in
  let a := ("flu_01_05_2020"%string, [Fin (Qc_of_Z 4); Fin (Qc_of_Z 6); Fin (Qc_of_Z 8)]) in
  let b := ("flu_01_06_2020"%string, [Fin (Qc_of_Z 2); NaN; Fin (Qc_of_Z 9)]) in
  let c := ("flu_01_07_2020"%string, [Fin (Qc_of_Z 7); Fin (Qc_of_Z 1); Fin (Qc_of_Z 3)]) in
  let data_m := mkframe [Cal.mkdate 2020 1 1; Cal.mkdate 2020 2 1]
                  [("flu_01_05_2020"%string, [Fin (Qc_of_Z 50); Fin (Qc_of_Z 60)])] in
  let book : workbook :=
    <["daily"%string := mkframe days [a; b; c]]> {["monthly"%string := data_m]} in
  let book' : workbook := <["daily"%string := mkframe days [c; a; b]]> book in
  let w := mkworld (fun _ => Answer []) 0 (fun _ => 0) 0 {["db/0_flu_US.xlsx"%string := book]} [] in
  let w' := mkworld (fun _ => Answer []) 0 (fun _ => 0) 0
              (<["db/0_flu_US.xlsx"%string := book']> {["db/0_flu_US.xlsx"%string := book]}) [] in
  fst (getDailyDataFromDB today "db" "flu" "US" 0 2020 2020 true w)
  = fst (getDailyDataFromDB today "db" "flu" "US" 0 2020 2020 true w').
Proof.
  intros today days a b c data_m book book' w w'.
  apply (uniform_read_is_column_order_independent today "db" "flu" "US" 0 2020 2020 w
           book (mkframe days [a; b; c]) [c; a; b]).
  - by vm_compute.
  - by vm_compute.
  - simpl. by rewrite (Permutation_cons_append [a; b] c).
Defined.

(* ================================================================== *)
(** * Further properties of the code *)

(** ** [_fetchData]: the schedule of the retries *)

(** The seconds slept, in order. *)
Fixpoint sleeps (evs : list event) : list Q :=
  match evs with
  | [] => []
  | EvSleep s :: rest => s :: sleeps rest
  | _ :: rest => sleeps rest
  end.

Lemma sleeps_app a b : sleeps (a ++ b) = sleeps a ++ sleeps b.
Proof.
  induction a as [| e a IH]; [done |]. destruct e; simpl; by rewrite ?IH.
Qed.

Lemma sleeps_retries timeframe k : forall a,
  sleeps (FetchFacts.retries timeframe a k)
  = map (fun i => inject_Z (60 + 5 * (a + Z.of_nat i))) (seq 0 k).
Proof.
  induction k as [| k IH]; intros a; [done |].
  cbn [FetchFacts.retries app sleeps]. rewrite IH. cbn [seq map].
  rewrite Z.add_0_r. f_equal.
  rewrite <- seq_shift, map_map. apply map_ext. intros i. f_equal. lia.
Qed.

(** When [build_payload] is rate-limited [k] times and then answered,
    [_fetchData] returns the table of [interest_over_time]: it has made
    [k + 2] requests and slept 60, 65, ..., 60 + 5 (k - 1) seconds, once
    after each rate limit and in that order. *)
Theorem fetchData_retry_schedule
    (fuel : nat) (word timeframe : string) (w : world) (k : nat)
    (rows rows' : list (date * value * bool)) :
  (forall i, (i < k)%nat -> service w (asked w + i) = Failure ResponseError) ->
  service w (asked w + k) = Answer rows ->
  service w (asked w + k + 1) = Answer rows' ->
  exists fr w',
    _fetchData (k + S fuel) word timeframe w = (Ok fr, w') /\
    (fr = empty_frame \/ names fr = [word; "isPartial"%string]) /\
    asked w' = (asked w + k + 2)%nat /\
    trace w' = trace w ++ FetchFacts.retries timeframe 0 k
                 ++ [EvBuildPayload timeframe; EvInterestOverTime] /\
    sleeps (trace w') = sleeps (trace w)
                        ++ map (fun i => inject_Z (60 + 5 * Z.of_nat i)) (seq 0 k).
Proof.
  intros Hfail Hans Hans'.
  unfold _fetchData, bind at 1.
  rewrite (FetchFacts.fetch_loop_retries _ _ _ _ _ Hfail).
  set (w1 := with_trace w _ _).
  destruct (FetchFacts.fetchData_answers fuel word timeframe w1 rows rows' Hans)
    as (fr & Hrun & Hshape).
  { simpl. by replace (S (asked w + k)) with (asked w + k + 1)%nat by lia. }
  unfold _fetchData, bind at 1 in Hrun.
  assert (service w1 (asked w1) = Answer rows) as H0 by exact Hans.
  rewrite (FetchFacts.fetch_loop_answer _ _ 0 _ _ H0) in Hrun.
  rewrite (FetchFacts.fetch_loop_answer _ _ (0 + Z.of_nat k) _ _ H0), Hrun.
  do 2 eexists. split; [done |]. split; [done |].
  split; [simpl; lia |].
  assert (trace (with_trace w1 (S (S (asked w1))) [EvBuildPayload timeframe; EvInterestOverTime])
          = trace w ++ FetchFacts.retries timeframe 0 k
              ++ [EvBuildPayload timeframe; EvInterestOverTime]) as Htrace
    by (simpl; by rewrite <- app_assoc).
  split; [done |]. rewrite Htrace.
  rewrite !sleeps_app, sleeps_retries. simpl. by rewrite app_nil_r.
Qed.

Lemma fetchData_retry_schedule_witness :
  let w := mkworld (fun n => if (n <? 3)%nat then Failure ResponseError else Answer [])
             0 (fun _ => 0) 0 ∅ [] in
  exists fr w',
    _fetchData 4 "flu" "2020-01-01 2020-08-31" w = (Ok fr, w') /\
    (fr = empty_frame \/ names fr = ["flu"%string; "isPartial"%string]) /\
    asked w' = 5%nat /\
    trace w' = FetchFacts.retries "2020-01-01 2020-08-31" 0 3
                 ++ [EvBuildPayload "2020-01-01 2020-08-31"; EvInterestOverTime] /\
    sleeps (trace w') = [inject_Z 60; inject_Z 65; inject_Z 70].
Proof.
  intros w.
  apply (fetchData_retry_schedule 0 "flu" "2020-01-01 2020-08-31" w 3 [] []).
  - intros i Hi. simpl. destruct i as [| [| [| i]]]; [done | done | done | lia].
  - reflexivity.
  - reflexivity.
Defined.

(** An error of [build_payload] that is not a [ResponseError] ends
    [_fetchData] at once, also after rate limits: the error is raised, no
    sleep follows it and [interest_over_time] is not called. *)
Theorem fetchData_other_error_propagates
    (fuel : nat) (word timeframe : string) (w : world) (k : nat) (e : exn) :
  (forall i, (i < k)%nat -> service w (asked w + i) = Failure ResponseError) ->
  service w (asked w + k) = Failure e -> e <> ResponseError ->
  _fetchData (k + S fuel) word timeframe w
  = (Raise e,
     with_trace w (asked w + k + 1)
       (FetchFacts.retries timeframe 0 k ++ [EvBuildPayload timeframe])).
Proof.
  intros Hfail Herr He.
  unfold _fetchData, bind.
  rewrite (FetchFacts.fetch_loop_retries _ _ _ _ _ Hfail).
  rewrite (FetchFacts.fetch_loop_other _ _ _ _ e); [| done | done].
  rewrite FetchFacts.with_trace_trace. simpl. do 2 f_equal. lia.
Qed.

Lemma fetchData_other_error_propagates_witness :
  let w := mkworld (fun n => if (n <? 2)%nat then Failure ResponseError
                             else Failure (OtherError 7))
             0 (fun _ => 0) 0 ∅ [] in
  _fetchData 3 "flu" "2020-01-01 2020-08-31" w
  = (Raise (OtherError 7),
     with_trace w 3
       (FetchFacts.retries "2020-01-01 2020-08-31" 0 2
        ++ [EvBuildPayload "2020-01-01 2020-08-31"])).
Proof.
  intros w.
  apply (fetchData_other_error_propagates 0 "flu" "2020-01-01 2020-08-31" w 2 (OtherError 7)).
  - intros i Hi. simpl. destruct i as [| [| i]]; [done | done | lia].
  - reflexivity.
  - discriminate.
Defined.

(** The retry loop has no ceiling: while the service keeps rate-limiting,
    [_fetchData] has, after any number [n] of attempts, slept [n] times and
    not returned. *)
Theorem fetchData_never_gives_up
    (n : nat) (word timeframe : string) (w : world) :
  (forall i, service w i = Failure ResponseError) ->
  _fetchData n word timeframe w
  = (OutOfFuel, with_trace w (asked w + n) (FetchFacts.retries timeframe 0 n)) /\
  length (sleeps (FetchFacts.retries timeframe 0 n)) = n.
Proof.
  intros Hfail. split.
  - unfold _fetchData, bind.
    replace n with (n + 0)%nat at 1 by lia.
    by rewrite (FetchFacts.fetch_loop_retries timeframe n 0 0 w (fun i _ => Hfail _)).
  - by rewrite sleeps_retries, length_map, length_seq.
Qed.

Lemma fetchData_never_gives_up_witness :
  let w := mkworld (fun _ => Failure ResponseError) 0 (fun _ => 0) 0 ∅ [] in
  _fetchData 100 "flu" "2020-01-01 2020-08-31" w
  = (OutOfFuel, with_trace w 100 (FetchFacts.retries "2020-01-01 2020-08-31" 0 100)) /\
  length (sleeps (FetchFacts.retries "2020-01-01 2020-08-31" 0 100)) = 100%nat.
Proof.
  intros w. by apply (fetchData_never_gives_up 100 "flu" "2020-01-01 2020-08-31" w).
Defined.

(** ** What touches the files *)

Module FileFacts.
Import StoreFacts.

(** A computation that leaves every workbook as it is, except perhaps the
    one at [path]. *)
Definition writes_only (path : string) {A} (m : M A) : Prop :=
  forall w r w', m w = (r, w') -> forall p, p <> path -> files w' !! p = files w !! p.

(** A computation that writes nothing. *)
Definition reads_only {A} (m : M A) : Prop :=
  forall w r w', m w = (r, w') -> files w' = files w.

Lemma reads_writes path {A} (m : M A) : reads_only m -> writes_only path m.
Proof. intros H w r w' Hrun p _. by rewrite (H _ _ _ Hrun). Qed.

Lemma ro_ret {A} (a : A) : reads_only (ret a).
Proof. by intros w r w' [= _ <-]. Qed.

Lemma ro_lift {A} (r : result A) : reads_only (lift r).
Proof. by intros w r' w' [= _ <-]. Qed.

Lemma ro_emit e : reads_only (emit e).
Proof. by intros w r w' [= _ <-]. Qed.

Lemma ro_bind {A B} (m : M A) (k : A -> M B) :
  reads_only m -> (forall a, reads_only (k a)) -> reads_only (bind m k).
Proof.
  intros Hm Hk w r w'. unfold bind.
  destruct (m w) as [[a | e |] w1] eqn:E; intros H.
  - apply Hm in E. apply Hk in H. congruence.
  - injection H as _ <-. by apply Hm in E.
  - injection H as _ <-. by apply Hm in E.
Qed.

Lemma wo_bind path {A B} (m : M A) (k : A -> M B) :
  writes_only path m -> (forall a, writes_only path (k a)) -> writes_only path (bind m k).
Proof.
  intros Hm Hk w r w'. unfold bind.
  destruct (m w) as [[a | e |] w1] eqn:E; intros H p Hp.
  - rewrite (Hk _ _ _ _ H p Hp). by apply (Hm _ _ _ E).
  - injection H as _ <-. by apply (Hm _ _ _ E).
  - injection H as _ <-. by apply (Hm _ _ _ E).
Qed.

Lemma ro_request e : reads_only (request e).
Proof.
  intros w r w'. unfold request. by destruct (service w (asked w)); intros [= _ <-].
Qed.

Lemma ro_randrange a b : reads_only (randrange a b).
Proof.
  intros w r w'. unfold randrange.
  destruct (negb _); [by intros [= _ <-] |].
  by destruct (0 <? _); intros [= _ <-].
Qed.

Lemma ro_isfile path : reads_only (isfile path).
Proof. by intros w r w' [= _ <-]. Qed.

Lemma ro_read_excel path sheet : reads_only (read_excel path sheet).
Proof.
  intros w r w'. unfold read_excel.
  destruct (files w !! path) as [book |]; [| by intros [= _ <-]].
  by destruct (book !! sheet); intros [= _ <-].
Qed.

Lemma ro_fetch_loop fuel : forall tf a, reads_only (fetch_loop fuel tf a).
Proof.
  induction fuel as [| fuel IH]; intros tf a w r w'; cbn [fetch_loop].
  - by intros [= _ <-].
  - destruct (build_payload tf w) as [[[] | e |] w1] eqn:E.
    + intros [= _ <-]. revert E. apply ro_bind; [apply ro_request | intros; apply ro_ret].
    + assert (files w1 = files w) as Hw1
        by (revert E; apply ro_bind; [apply ro_request | intros; apply ro_ret]).
      destruct e; try (by intros [= _ <-]).
      intros H. unfold bind, print, sleep, emit in H. simpl in H.
      apply IH in H. simpl in H. congruence.
    + intros [= _ <-]. revert E. apply ro_bind; [apply ro_request | intros; apply ro_ret].
Qed.

Lemma ro_interest word : reads_only (interest_over_time word).
Proof. apply ro_bind; [apply ro_request |]. intros [| r rows]; apply ro_ret. Qed.

Lemma ro_fetchData fuel word tf : reads_only (_fetchData fuel word tf).
Proof. apply ro_bind; [apply ro_fetch_loop | intros; apply ro_interest]. Qed.

Ltac ro_step IH :=
  repeat first
    [ apply ro_lift | apply ro_fetchData | apply ro_randrange | apply ro_isfile
    | apply ro_read_excel | apply ro_emit | apply ro_ret | apply IH
    | match goal with |- reads_only (if ?b then _ else _) => destruct b end
    | apply ro_bind; [| intros ?] ].

Lemma ro_raw_loop fuel n : forall word geo cat verbose hiprecision wait_time stop cur results,
  reads_only (raw_loop fuel n word geo cat verbose hiprecision wait_time stop cur results).
Proof.
  induction n as [| n IH]; intros; cbn [raw_loop];
    (destruct (Cal.ltb cur stop); [| apply ro_ret]).
  - apply ro_lift.
  - ro_step IH.
Qed.

Lemma ro_once_loop fuel n : forall word geo verbose wait_time stop cur results,
  reads_only (once_loop fuel n word geo verbose wait_time stop cur results).
Proof.
  induction n as [| n IH]; intros; cbn [once_loop];
    (destruct (Cal.ltb cur stop); [| apply ro_ret]).
  - apply ro_lift.
  - ro_step IH.
Qed.

Lemma ro_getRawDailyData fuel today word sy ey geo tz cat verbose hi wait :
  reads_only (_getRawDailyData fuel today word sy ey geo tz cat verbose hi wait).
Proof. unfold _getRawDailyData. ro_step ro_raw_loop. Qed.

Lemma wo_save path book : writes_only path (save_excel path book).
Proof.
  intros w r w' [= _ <-] p Hp. simpl. by rewrite lookup_insert_ne.
Qed.

(** The end of [buildDatabase]: the [with pd.ExcelWriter] block. *)
Lemma wo_save_daily path (book : workbook) data_d daily :
  writes_only path
    (fun w =>
       match join_outer data_d daily with
       | Ok data_d => save_excel path (<["daily"%string := data_d]> book) w
       | other =>
           let '(_, w') := save_excel path book w in
           (match other with Raise e => Raise e | _ => OutOfFuel end, w')
       end).
Proof.
  intros w0 r w' H p Hp.
  destruct (join_outer _ _) as [dd | e |].
  - by apply (wo_save _ _ _ _ _ H).
  - destruct (save_excel _ _ w0) as [r0 w1] eqn:E. injection H as _ <-.
    by apply (wo_save _ _ _ _ _ E).
  - destruct (save_excel _ _ w0) as [r0 w1] eqn:E. injection H as _ <-.
    by apply (wo_save _ _ _ _ _ E).
Qed.

End FileFacts.

(** The functions that fetch or read never write: whatever
    [getDailyDataOnce], [getDailyDataFromDB] and [getMonthlyDataFromDB]
    return or raise, the files are as before.  [buildDatabase] and
    [buildMonthlyDatabase] change no workbook but the one of their own
    category, keyword and region. *)
Theorem only_builds_write_and_only_their_file
    (fuel : nat) (today : date) (dbpath word geo : string)
    (cat tz start_year stop_year : Z) (verbose hiprecision uniformdata : bool)
    (wait_time : Q) (w : world) :
  files (snd (getDailyDataOnce fuel today word start_year stop_year geo tz cat verbose
                wait_time w)) = files w /\
  files (snd (getDailyDataFromDB today dbpath word geo cat start_year stop_year
                uniformdata w)) = files w /\
  files (snd (getMonthlyDataFromDB today dbpath word geo cat start_year stop_year
                uniformdata w)) = files w /\
  (forall p, p <> db_file dbpath cat word geo ->
     files (snd (buildDatabase fuel today dbpath word geo cat tz hiprecision w)) !! p
     = files w !! p) /\
  (forall p, p <> db_file dbpath cat word geo ->
     files (snd (buildMonthlyDatabase fuel today dbpath word geo cat tz w)) !! p
     = files w !! p).
Proof.
  assert (forall A (m : M A), FileFacts.reads_only m -> files (snd (m w)) = files w) as Hro.
  { intros A m Hm. destruct (m w) as [r w'] eqn:E. by apply Hm in E. }
  assert (forall A (m : M A) path, FileFacts.writes_only path m ->
            forall p, p <> path -> files (snd (m w)) !! p = files w !! p) as Hwo.
  { intros A m path Hm p Hp. destruct (m w) as [r w'] eqn:E. by apply (Hm _ _ _ E). }
  split; [| split; [| split; [| split]]].
  - apply Hro. unfold getDailyDataOnce. FileFacts.ro_step FileFacts.ro_once_loop.
  - apply Hro. unfold getDailyDataFromDB. FileFacts.ro_step FileFacts.ro_once_loop.
  - apply Hro. unfold getMonthlyDataFromDB. FileFacts.ro_step FileFacts.ro_once_loop.
  - apply Hwo. unfold buildDatabase.
    repeat (first
      [ match goal with
        | |- FileFacts.writes_only _ (if ?b then _ else _) => destruct b
        end
      | apply FileFacts.wo_bind;
        [ solve [apply FileFacts.reads_writes;
                 FileFacts.ro_step FileFacts.ro_getRawDailyData]
        | intros ? ] ]).
    + apply FileFacts.reads_writes, FileFacts.ro_emit.
    + apply FileFacts.wo_save_daily.
  - apply Hwo. unfold buildMonthlyDatabase.
    repeat (first
      [ match goal with
        | |- FileFacts.writes_only _ (if ?b then _ else _) => destruct b
        end
      | apply FileFacts.wo_bind;
        [ solve [apply FileFacts.reads_writes;
                 FileFacts.ro_step FileFacts.ro_getRawDailyData]
        | intros ? ] ]).
    + apply FileFacts.reads_writes, FileFacts.ro_emit.
    + apply FileFacts.wo_save.
Qed.

(** ** Reading a dataset that is not there *)

(** Without a workbook for the category, keyword and region, both read
    functions print that no data was found and return [None]; nothing else
    happens. *)
Theorem read_of_missing_dataset_is_none
    (today : date) (dbpath word geo : string) (cat start_year stop_year : Z)
    (uniformdata : bool) (w : world) :
  1 <= start_year <= 9999 -> 1 <= stop_year <= 9999 ->
  files w !! db_file dbpath cat word geo = None ->
  getDailyDataFromDB today dbpath word geo cat start_year stop_year uniformdata w
  = (Ok None, with_trace w (asked w) [EvPrint (no_data word geo cat)]) /\
  getMonthlyDataFromDB today dbpath word geo cat start_year stop_year uniformdata w
  = (Ok None, with_trace w (asked w) [EvPrint (no_data word geo cat)]).
Proof.
  intros Hs He Hnone.
  unfold getDailyDataFromDB, getMonthlyDataFromDB, bind, lift, isfile.
  rewrite !CalFacts.mk_ok by (try lia; vm_compute; intuition discriminate).
  rewrite Hnone. rewrite bool_decide_eq_false_2 by (by intros [? ?]).
  done.
Qed.

Lemma read_of_missing_dataset_is_none_witness :
  let w := mkworld (fun _ => Answer []) 0 (fun _ => 0) 0 ∅ [] in
  getDailyDataFromDB (Cal.mkdate 2026 11 4) "db" "flu" "US" 0 2004 2026 true w
  = (Ok None, with_trace w (asked w) [EvPrint (no_data "flu" "US" 0)]) /\
  getMonthlyDataFromDB (Cal.mkdate 2026 11 4) "db" "flu" "US" 0 2004 2026 true w
  = (Ok None, with_trace w (asked w) [EvPrint (no_data "flu" "US" 0)]).
Proof.
  intros w.
  apply (read_of_missing_dataset_is_none (Cal.mkdate 2026 11 4) "db" "flu" "US" 0 2004 2026
           true w); [lia | lia | reflexivity].
Defined.

(** ** The read path returns a table of two columns *)

Lemma append_empty (s : string) : (s ++ "")%string = s.
Proof. induction s as [| c s IH]; [done |]. by rewrite NameFacts.append_cons, IH. Qed.

(** With both sheets in the workbook, [getDailyDataFromDB] returns a table,
    whatever is stored: no column is ever missing on the way.  The table
    has the rows of the stored daily table that lie in the range and two
    columns, the daily series under the name word_geo and the monthly
    medians under word_geo_monthly, in this order for [uniformdata=False]
    and in the other for [uniformdata=True].  The world stays as it is. *)
Theorem daily_read_returns_two_columns
    (today : date) (dbpath word geo : string) (cat start_year stop_year : Z)
    (uniformdata : bool) (w : world) (book : workbook) (sheet_m sheet_d : frame) :
  1 <= start_year <= 9999 -> 1 <= stop_year <= 9999 ->
  files w !! db_file dbpath cat word geo = Some book ->
  book !! "monthly"%string = Some sheet_m -> book !! "daily"%string = Some sheet_d ->
  let start_date := Cal.mkdate start_year 1 1 in
  let stop_date := Cal.min2 (Cal.mkdate stop_year 12 31) today in
  exists out,
    getDailyDataFromDB today dbpath word geo cat start_year stop_year uniformdata w
    = (Ok (Some out), w) /\
    index out = index (slice sheet_d start_date stop_date) /\
    names out = (if uniformdata
                 then [(col_med word geo ++ "_monthly")%string; col_med word geo]
                 else [col_med word geo; (col_med word geo ++ "_monthly")%string]).
Proof.
  intros Hs He Hbook Hm Hd start_date stop_date.
  unfold getDailyDataFromDB, bind, lift, isfile, read_excel.
  rewrite !CalFacts.mk_ok by (try lia; vm_compute; intuition discriminate).
  rewrite Hbook. rewrite bool_decide_eq_true_2 by done.
  cbv beta iota. rewrite Hbook, Hm. cbv beta iota. rewrite Hbook, Hd. cbv beta iota.
  fold start_date stop_date.
  destruct uniformdata; unfold median_frame.
  - destruct (RobustFacts.robust_uniform_columns word geo
                (slice sheet_d start_date stop_date)
                (index (slice sheet_m start_date stop_date))
                (map (fun i => median (row (slice sheet_m start_date stop_date) i))
                   (seq 0 (length (index (slice sheet_m start_date stop_date)))))
                start_date stop_date) as (med & _ & ->).
    eexists. split; [done |]. split; [| done].
    simpl. rewrite list_filter_filter. apply list_filter_iff. tauto.
  - destruct (RobustFacts.robust_mixed_columns word geo
                (slice sheet_d start_date stop_date)
                (index (slice sheet_m start_date stop_date))
                (map (fun i => median (row (slice sheet_m start_date stop_date) i))
                   (seq 0 (length (index (slice sheet_m start_date stop_date))))))
      as (med & ->).
    eexists. split; [done |]. split; [done |].
    unfold names. simpl. by rewrite append_empty.
Qed.

Lemma daily_read_returns_two_columns_witness :
  let today := Cal.mkdate 2020 3 1 in
  let data_d := mkframe [Cal.mkdate 2020 1 1; Cal.mkdate 2020 1 2]
                  [("flu_01_05_2020"%string, [Fin (Qc_of_Z 4); Fin (Qc_of_Z 6)])] in
  let data_m := mkframe [Cal.mkdate 2020 1 1]
                  [("flu_01_05_2020"%string, [Fin (Qc_of_Z 50)])] in
  let book : workbook := <["daily"%string := data_d]> {["monthly"%string := data_m]} in
  let w := mkworld (fun _ => Answer []) 0 (fun _ => 0) 0
             {["db/0_flu_US.xlsx"%string := book]} [] in
  exists out,
    getDailyDataFromDB today "db" "flu" "US" 0 2020 2020 false w = (Ok (Some out), w) /\
    index out = index (slice data_d (Cal.mkdate 2020 1 1)
                         (Cal.min2 (Cal.mkdate 2020 12 31) today)) /\
    names out = [col_med "flu" "US"; (col_med "flu" "US" ++ "_monthly")%string].
Proof.
  intros today data_d data_m book w.
  apply (daily_read_returns_two_columns today "db" "flu" "US" 0 2020 2020 false w book
           data_m data_d); [lia | lia | by vm_compute | by vm_compute | by vm_compute].
Defined.

(** ** An empty range *)

(** When the first of January of [start_year] is not before
    [min(31 December of stop_year, today)], no daily chunk is fetched and
    [pd.concat] of nothing raises: [getDailyDataOnce] ends in a ValueError
    after the two requests of its monthly query, and [_getRawDailyData]
    after making its client and no request. *)
Theorem empty_range_raises
    (fuel : nat) (today : date) (word : string) (start_year stop_year : Z) (geo : string)
    (tz cat : Z) (verbose hiprecision : bool) (wait_time : Q) (w : world)
    (rows rows' : list (date * value * bool)) :
  1 <= start_year <= 9999 -> 1 <= stop_year <= 9999 ->
  Cal.ltb (Cal.mkdate start_year 1 1) (Cal.min2 (Cal.mkdate stop_year 12 31) today) = false ->
  service w (asked w) = Answer rows -> service w (S (asked w)) = Answer rows' ->
  getDailyDataOnce (S fuel) today word start_year stop_year geo tz cat verbose wait_time w
  = (Raise ValueError,
     with_trace w (S (S (asked w)))
       [EvTrendReq;
        EvBuildPayload (getTimeframe (Cal.mkdate 2004 1 1)
                          (Cal.min2 (Cal.mkdate stop_year 12 31) today));
        EvInterestOverTime]) /\
  _getRawDailyData fuel today word start_year stop_year geo tz cat verbose hiprecision
    wait_time w
  = (Raise ValueError, with_trace w (asked w) [EvTrendReq]).
Proof.
  intros Hs He Hlt H0 H1. split.
  - unfold getDailyDataOnce.
    rewrite !CalFacts.mk_ok by (try lia; vm_compute; intuition discriminate).
    rewrite !PaceFacts.bind_lift_ok.
    unfold TrendReq. rewrite PaceFacts.bind_emit, PaceFacts.bind_lift_ok.
    set (w1 := with_trace w _ _).
    destruct (FetchFacts.fetchData_answers fuel word
                (getTimeframe (Cal.mkdate 2004 1 1)
                   (Cal.min2 (Cal.mkdate stop_year 12 31) today))
                w1 rows rows' H0 H1) as (monthly & Hfetch & _).
    rewrite (PaceFacts.bind_ok _ _ _ _ _ Hfetch).
    assert (forall n w2,
              once_loop (S fuel) n word geo verbose wait_time
                (Cal.min2 (Cal.mkdate stop_year 12 31) today)
                (Cal.mkdate start_year 1 1) [] w2 = (Ok [], w2)) as Hloop
      by (intros [| n] w2; cbn [once_loop]; by rewrite Hlt).
    rewrite (PaceFacts.bind_ok _ _ _ _ _ (Hloop _ _)).
    unfold lift, w1. simpl. by rewrite FetchFacts.with_trace_trace.
  - unfold _getRawDailyData.
    rewrite !CalFacts.mk_ok by (try lia; vm_compute; intuition discriminate).
    rewrite !PaceFacts.bind_lift_ok.
    unfold TrendReq. rewrite PaceFacts.bind_emit.
    assert (forall n w2,
              raw_loop fuel n word geo cat verbose hiprecision wait_time
                (Cal.min2 (Cal.mkdate stop_year 12 31) today)
                (Cal.mkdate start_year 1 1) [] w2 = (Ok [], w2)) as Hloop
      by (intros [| n] w2; cbn [raw_loop]; by rewrite Hlt).
    by rewrite (PaceFacts.bind_ok _ _ _ _ _ (Hloop _ _)).
Qed.

Lemma empty_range_raises_witness :
  let today := Cal.mkdate 2026 11 4 in
  let w := mkworld (fun _ => Answer []) 0 (fun _ => 0) 0 ∅ [] in
  getDailyDataOnce 1 today "flu" 2027 2027 "US" 240 0 true 5 w
  = (Raise ValueError,
     with_trace w 2
       [EvTrendReq;
        EvBuildPayload (getTimeframe (Cal.mkdate 2004 1 1)
                          (Cal.min2 (Cal.mkdate 2027 12 31) today));
        EvInterestOverTime]) /\
  _getRawDailyData 0 today "flu" 2027 2027 "US" 240 0 true false 5 w
  = (Raise ValueError, with_trace w 0 [EvTrendReq]).
Proof.
  intros today w.
  apply (empty_range_raises 0 today "flu" 2027 2027 "US" 240 0 true false 5 w [] []);
    [lia | lia | reflexivity | reflexivity | reflexivity].
Defined.

(** ** [buildMonthlyDatabase] and the daily sheet *)

Module MonthlyBuildFacts.
Import StoreFacts FileFacts.

(** A [buildMonthlyDatabase] that returns has met its guard, or it has made
    a request and put in place of the workbook one with the monthly sheet
    alone. *)
Lemma buildMonthlyDatabase_ok fuel today dbpath word geo cat tz w w1 :
  buildMonthlyDatabase fuel today dbpath word geo cat tz w = (Ok tt, w1) ->
  w1 = with_trace w (asked w) [EvPrint (already_present word geo)] \/
  ((asked w < asked w1)%nat /\
   exists data_m : frame,
     files w1 = <[db_file dbpath cat word geo := {["monthly"%string := data_m]}]> (files w)).
Proof.
  intros H. unfold buildMonthlyDatabase in H.
  apply bind_ok_inv in H as (present & w0 & Hp & H).
  unfold isfile in Hp. injection Hp as <- <-.
  apply bind_ok_inv in H as (data_m & wa & Hdm & H).
  assert (wa = w) as ->.
  { destruct (bool_decide _); [| by injection Hdm as _ <-].
    unfold read_excel in Hdm. destruct (files w !! _) as [book |]; [| done].
    destruct (book !! "monthly"%string); [| done]. by injection Hdm as _ <-. }
  destruct (has_name _ _).
  - left. by injection H as <-.
  - right.
    apply bind_ok_inv in H as (start_date & w2 & Hstart & H).
    apply lift_ok_inv in Hstart as [_ ->].
    apply bind_ok_inv in H as (stop_date & w3 & Hstop & H). injection Hstop as <- <-.
    apply bind_ok_inv in H as ([] & w4 & Hclient & H). injection Hclient as <-.
    apply bind_ok_inv in H as (fetched & w5 & Hfetch & H).
    pose proof (ro_fetchData _ _ _ _ _ _ Hfetch) as Hfiles.
    apply fetchData_ok in Hfetch as [Hask5 _]. simpl in Hask5, Hfiles.
    apply bind_ok_inv in H as (monthly & w6 & Hdrop & H).
    apply lift_ok_inv in Hdrop as [_ ->].
    apply bind_ok_inv in H as (data_m' & w7 & Hjoin & H).
    apply lift_ok_inv in Hjoin as [_ ->].
    unfold save_excel in H. injection H as <-. simpl.
    split; [lia |]. exists data_m'. by rewrite Hfiles.
Qed.

End MonthlyBuildFacts.

(** A [buildMonthlyDatabase] that fetched leaves a workbook with the
    monthly sheet alone: a daily sheet stored before is gone.  On that
    workbook [buildDatabase] raises when it reads the daily sheet, before
    its guard and on any day, and [getDailyDataFromDB] raises too. *)
Theorem monthly_build_drops_daily_sheet
    (fuel : nat) (today : date) (dbpath word geo : string) (cat tz : Z) (w w1 : world) :
  buildMonthlyDatabase fuel today dbpath word geo cat tz w = (Ok tt, w1) ->
  (asked w < asked w1)%nat ->
  exists data_m : frame,
    files w1 !! db_file dbpath cat word geo
    = Some ({["monthly"%string := data_m]} : workbook) /\
    (forall fuel' today' tz' hiprecision,
       buildDatabase fuel' today' dbpath word geo cat tz' hiprecision w1
       = (Raise ValueError, w1)) /\
    (forall today' start_year stop_year uniformdata,
       1 <= start_year <= 9999 -> 1 <= stop_year <= 9999 ->
       getDailyDataFromDB today' dbpath word geo cat start_year stop_year uniformdata w1
       = (Raise ValueError, w1)).
Proof.
  intros Hrun Hasked.
  destruct (MonthlyBuildFacts.buildMonthlyDatabase_ok _ _ _ _ _ _ _ _ _ Hrun)
    as [-> | (_ & data_m & Hfiles)]; [simpl in Hasked; lia |].
  exists data_m.
  assert (files w1 !! db_file dbpath cat word geo
          = Some ({["monthly"%string := data_m]} : workbook)) as Hbook
    by (rewrite Hfiles; apply lookup_insert_eq).
  split; [done |]. split.
  - intros fuel' today' tz' hiprecision.
    unfold buildDatabase, bind, isfile, read_excel.
    rewrite Hbook. rewrite bool_decide_eq_true_2 by done.
    cbv beta iota. rewrite Hbook, lookup_singleton_eq. cbv beta iota.
    by rewrite Hbook, lookup_singleton_ne.
  - intros today' start_year stop_year uniformdata Hs He.
    apply (ReadFacts.getDailyDataFromDB_no_daily today' dbpath word geo cat start_year
             stop_year uniformdata w1 (Cal.mkdate start_year 1 1)
             (Cal.mkdate stop_year 12 31) {["monthly"%string := data_m]} data_m).
    + apply CalFacts.mk_ok; [lia | lia | vm_compute; intuition discriminate].
    + apply CalFacts.mk_ok; [lia | lia | vm_compute; intuition discriminate].
    + exact Hbook.
    + apply lookup_singleton_eq.
    + by apply lookup_singleton_ne.
Qed.

Lemma monthly_build_drops_daily_sheet_witness :
  let today := Cal.mkdate 2004 3 10 in
  let rows := [(Cal.mkdate 2004 1 1, Fin (Qc_of_Z 10), false);
               (Cal.mkdate 2004 2 1, Fin (Qc_of_Z 20), false)] in
  let old : workbook :=
    <["daily"%string := mkframe [Cal.mkdate 2004 1 1] [("flu_03_09_2004"%string, [Fin (Qc_of_Z 3)])]]>
      {["monthly"%string := mkframe [Cal.mkdate 2004 1 1]
                              [("flu_03_09_2004"%string, [Fin (Qc_of_Z 9)])]]} in
  let w := mkworld (fun _ => Answer rows) 0 (fun _ => 7) 0
             {["db/0_flu_US.xlsx"%string := old]} [] in
  let w1 := snd (buildMonthlyDatabase 1 today "db" "flu" "US" 0 240 w) in
  exists data_m : frame,
    files w1 !! db_file "db" 0 "flu" "US" = Some ({["monthly"%string := data_m]} : workbook) /\
    (forall fuel' today' tz' hiprecision,
       buildDatabase fuel' today' "db" "flu" "US" 0 tz' hiprecision w1
       = (Raise ValueError, w1)) /\
    (forall today' start_year stop_year uniformdata,
       1 <= start_year <= 9999 -> 1 <= stop_year <= 9999 ->
       getDailyDataFromDB today' "db" "flu" "US" 0 start_year stop_year uniformdata w1
       = (Raise ValueError, w1)).
Proof.
  intros today rows old w w1.
  apply (monthly_build_drops_daily_sheet 1 today "db" "flu" "US" 0 240 w w1).
  - vm_compute. reflexivity.
  - vm_compute. lia.
Defined.


(** ** The requests of [_getRawDailyData] are the chunks *)

(** The timeframes whose table was fetched, in order: at each
    [interest_over_time] the payload that was built last. *)
Fixpoint fetched_with (last : option string) (evs : list event) : list string :=
  match evs with
  | [] => []
  | EvBuildPayload tf :: rest => fetched_with (Some tf) rest
  | EvInterestOverTime :: rest =>
      match last with Some tf => [tf] | None => [] end ++ fetched_with last rest
  | _ :: rest => fetched_with last rest
  end.

Fixpoint payload_after (last : option string) (evs : list event) : option string :=
  match evs with
  | [] => last
  | EvBuildPayload tf :: rest => payload_after (Some tf) rest
  | _ :: rest => payload_after last rest
  end.

Module RequestFacts.
Import StoreFacts.

Lemma fetched_with_app a : forall last b,
  fetched_with last (a ++ b)
  = fetched_with last a ++ fetched_with (payload_after last a) b.
Proof.
  induction a as [| e a IH]; intros last b; [done |].
  destruct e; simpl; rewrite ?IH; try done. by rewrite app_assoc.
Qed.

Lemma payload_after_app a : forall last b,
  payload_after last (a ++ b) = payload_after (payload_after last a) b.
Proof.
  induction a as [| e a IH]; intros last b; [done |]. destruct e; simpl; by rewrite ?IH.
Qed.

(** The retry loop, when it ends, has fetched nothing yet, and the payload
    in place is its timeframe. *)
Lemma fetch_loop_log tf : forall fuel a w w',
  fetch_loop fuel tf a w = (Ok tt, w') ->
  exists es, trace w' = trace w ++ es /\
    forall last, fetched_with last es = [] /\ payload_after last es = Some tf.
Proof.
  induction fuel as [| fuel IH]; intros a w w' H; [done |].
  cbn [fetch_loop] in H. unfold build_payload, bind at 1, request in H.
  destruct (service w (asked w)) as [rows | err].
  - unfold ret in H. injection H as <-. simpl. by exists [EvBuildPayload tf].
  - destruct err; try done.
    unfold bind, print, sleep, emit in H. cbn [service asked entropy drawn files trace] in H.
    apply IH in H as (es & Htr & Hes). cbn [trace] in Htr.
    eexists. split; [rewrite Htr, <- !app_assoc; reflexivity |].
    intros last. simpl. apply Hes.
Qed.

(** A fetch that returns has fetched its timeframe, once. *)
Lemma fetchData_log fuel word tf w fr w' :
  _fetchData fuel word tf w = (Ok fr, w') ->
  exists es, trace w' = trace w ++ es /\
    forall last, fetched_with last es = [tf] /\ payload_after last es = Some tf.
Proof.
  intros H. apply bind_ok_inv in H as ([] & w1 & Hloop & Hiot).
  apply fetch_loop_log in Hloop as (es & Htr & Hes).
  unfold interest_over_time in Hiot.
  apply bind_ok_inv in Hiot as (rows & w2 & Hreq & Hret).
  assert (trace w2 = trace w1 ++ [EvInterestOverTime]) as Htr2.
  { unfold request in Hreq. destruct (service w1 (asked w1)); by injection Hreq as _ <-. }
  assert (w' = w2) as -> by (destruct rows; by injection Hret as _ <-).
  exists (es ++ [EvInterestOverTime]). split; [by rewrite Htr2, Htr, app_assoc |].
  intros last. destruct (Hes last) as [Hf Hp].
  rewrite fetched_with_app, payload_after_app, Hf, Hp. done.
Qed.

Lemma randrange_trace start stop w r w' :
  randrange start stop w = (r, w') -> trace w' = trace w.
Proof.
  unfold randrange. destruct (negb _); [by intros [= _ <-] |].
  destruct (_ <? _); by intros [= _ <-].
Qed.

(** The loop of [_getRawDailyData] follows the loop over the dates: when it
    returns, the timeframes it has fetched are those of the chunks. *)
Lemma raw_loop_log fuel word geo cat verbose hiprecision wait_time stop :
  forall n cur results w rs w',
    raw_loop fuel n word geo cat verbose hiprecision wait_time stop cur results w
    = (Ok rs, w') ->
    exists chunks es,
      chunk_loop n hiprecision stop cur = Ok chunks /\
      trace w' = trace w ++ es /\
      map fst rs = (map fst results ++ map fst chunks)%list /\
      forall last, fetched_with last es = map (fun c => getTimeframe c.1 c.2) chunks.
Proof.
  induction n as [| n IH]; intros cur results w rs w' H.
  - simpl in H. simpl. destruct (Cal.ltb cur stop); [done |].
    injection H as <- <-. exists [], []. by rewrite !app_nil_r.
  - cbn [raw_loop] in H. cbn [chunk_loop]. destruct (Cal.ltb cur stop).
    + apply bind_ok_inv in H as (month_last & w1 & Hml & H).
      apply lift_ok_inv in Hml as [Hml ->]. rewrite Hml. cbn [rbind].
      apply bind_ok_inv in H as (tentative & w1 & Htent & H).
      apply lift_ok_inv in Htent as [Htent ->]. rewrite Htent. cbn [rbind].
      apply bind_ok_inv in H as ([] & w1 & Hprint & H).
      assert (exists pr, trace w1 = trace w ++ pr /\
                forall last, fetched_with last pr = [] /\ payload_after last pr = last)
        as (pr & Hpr & Hquiet).
      { destruct verbose.
        - injection Hprint as <-. simpl. by eexists [_].
        - injection Hprint as <-. exists []. by rewrite app_nil_r. }
      apply bind_ok_inv in H as (fetched & w2 & Hfetch & H).
      apply fetchData_log in Hfetch as (fs & Hfs & Hfetched).
      apply bind_ok_inv in H as (next & w3 & Hnext & H).
      apply lift_ok_inv in Hnext as [Hnext ->]. rewrite Hnext. cbn [rbind].
      apply bind_ok_inv in H as (pause & w3 & Hpause & H).
      apply randrange_trace in Hpause.
      apply bind_ok_inv in H as ([] & w4 & Hsleep & H).
      injection Hsleep as <-.
      apply IH in H as (chunks & es & Hchunks & Htr & Hkeys & Hes).
      cbn [trace] in Htr. cbn [rbind]. rewrite Hchunks.
      eexists _, (pr ++ fs ++ [_] ++ es). split; [reflexivity |]. split; [| split].
      * rewrite Htr, Hpause, Hfs, Hpr, <- !app_assoc. reflexivity.
      * rewrite Hkeys, map_app, <- app_assoc. reflexivity.
      * intros last. destruct (Hquiet last) as [Hq1 Hq2].
        destruct (Hfetched last) as [Hf1 Hf2].
        rewrite fetched_with_app, Hq1, Hq2, fetched_with_app, Hf1, Hf2. simpl.
        by rewrite Hes.
    + injection H as <- <-. exists [], []. by rewrite !app_nil_r.
Qed.

End RequestFacts.

(** Whenever [_getRawDailyData] returns, the loop over the dates has given
    its chunks, and the tables it has fetched are those of the timeframes
    of these chunks, one for each and in their order, whatever was retried
    in between. *)
Theorem raw_daily_data_fetches_the_chunks
    (fuel : nat) (today : date) (word : string) (start_year stop_year : Z) (geo : string)
    (tz cat : Z) (verbose hiprecision : bool) (wait_time : Q) (w w' : world) (out : frame) :
  _getRawDailyData fuel today word start_year stop_year geo tz cat verbose hiprecision
    wait_time w = (Ok out, w') ->
  exists chunks es,
    daily_chunks hiprecision start_year stop_year today = Ok chunks /\
    trace w' = trace w ++ es /\
    fetched_with None es = map (fun c => getTimeframe c.1 c.2) chunks.
Proof.
  intros H. unfold _getRawDailyData in H. unfold daily_chunks.
  apply StoreFacts.bind_ok_inv in H as (start_date & w1 & Hs & H).
  apply StoreFacts.lift_ok_inv in Hs as [-> ->].
  apply StoreFacts.bind_ok_inv in H as (stop_end & w1 & He & H).
  apply StoreFacts.lift_ok_inv in He as [-> ->].
  apply StoreFacts.bind_ok_inv in H as ([] & w1 & Hclient & H).
  injection Hclient as <-.
  apply StoreFacts.bind_ok_inv in H as (results & w2 & Hloop & H).
  apply RequestFacts.raw_loop_log in Hloop as (chunks & es & Hchunks & Htr & _ & Hes).
  apply StoreFacts.bind_ok_inv in H as (fetched & w3 & Hcat & H).
  apply StoreFacts.lift_ok_inv in Hcat as [_ ->].
  apply StoreFacts.lift_ok_inv in H as [_ ->].
  cbn [rbind]. exists chunks, (EvTrendReq :: es). split; [done |]. split.
  - rewrite Htr. cbn [trace]. by rewrite <- app_assoc.
  - simpl. apply Hes.
Qed.

Lemma raw_daily_data_fetches_the_chunks_witness :
  let today := Cal.mkdate 2020 10 5 in
  let rows := [(Cal.mkdate 2020 1 1, Fin (Qc_of_Z 10), false)] in
  let w := mkworld (fun _ => Answer rows) 0 (fun _ => 7) 0 ∅ [] in
  let run := _getRawDailyData 1 today "flu" 2020 2020 "US" 240 0 false false 1 w in
  exists chunks es,
    daily_chunks false 2020 2020 today = Ok chunks /\
    trace run.2 = trace w ++ es /\
    fetched_with None es = map (fun c => getTimeframe c.1 c.2) chunks.
Proof.
  intros today rows w run.
  apply (raw_daily_data_fetches_the_chunks 1 today "flu" 2020 2020 "US" 240 0 false false 1
           w run.2 (mkframe [Cal.mkdate 2020 1 1; Cal.mkdate 2020 1 1]
                      [("flu"%string, [Fin (Qc_of_Z 10); Fin (Qc_of_Z 10)])])).
  vm_compute. reflexivity.
Defined.


(** ** Where the chunks start and how far they reach *)

Module SpanFacts.
Import Cal CalFacts ChunkFacts.

Lemma month_index_le a b :
  1 <= month a <= 12 -> 1 <= month b <= 12 -> leb a b = true ->
  month_index a <= month_index b.
Proof. intros Ha Hb Hle%leb_le. unfold month_index. lia. Qed.

(** The day after a month end that is before [stop] is the first of a month. *)
Lemma succ_of_month_end hiprecision cur e next :
  start_inv hiprecision cur ->
  e = month_end_after cur (max_span_months hiprecision - 1) ->
  succ e = Ok next -> start_inv hiprecision next.
Proof.
  intros Hinv He Hsucc.
  pose proof (month_end_after_shape hiprecision cur Hinv e He) as (Hem & Hed & Hei & Hel).
  destruct Hinv as (_ & Hy & Hcm & _).
  assert (year cur <= year e)
    by (unfold month_index, max_span_months in Hei; destruct hiprecision; lia).
  unfold succ in Hsucc. rewrite Hed, Z.ltb_irrefl in Hsucc.
  unfold start_inv.
  destruct (Z.ltb_spec (month e) 12).
  - injection Hsucc as <-. simpl. repeat split; try lia.
    intros Hlow. specialize (Hel Hlow). lia.
  - destruct (Z.ltb_spec (year e) 9999); [| done].
    injection Hsucc as <-. simpl. repeat split; try lia.
Qed.

Lemma chain_starts hiprecision stop cur chunks :
  valid stop ->
  chain (max_span_months hiprecision - 1) stop cur chunks ->
  start_inv hiprecision cur ->
  forall c, c ∈ chunks ->
    start_inv hiprecision c.1 /\
    month_index c.1 <= month_index c.2
                    <= month_index c.1 + (max_span_months hiprecision - 1).
Proof.
  intros Hstop Hchain.
  induction Hchain as [| cur next rest Hlt Hle Hsucc Hchain IH]; intros Hinv c Hc.
  - by apply elem_of_nil in Hc.
  - remember (month_end_after cur (max_span_months hiprecision - 1)) as e eqn:He.
    pose proof (month_end_after_shape hiprecision cur Hinv e He) as (Hem & Hed & Hei & Hel).
    apply valid_iff in Hstop as Hstop'.
    apply elem_of_cons in Hc as [-> | Hc].
    + split; [done |]. simpl.
      assert (1 <= month cur <= 12) as Hcm by (by destruct Hinv as (_ & _ & ? & _)).
      split.
      * apply month_index_le; [done | | done].
        unfold min2. destruct (ltb e stop); lia.
      * unfold min2. destruct (ltb e stop) eqn:Hes; [lia |].
        apply ltb_ge in Hes. unfold month_index in *. lia.
    + apply IH; [| done].
      destruct Hchain as [| next next' rest' Hlt' _ _ _]; [by apply elem_of_nil in Hc |].
      unfold min2 in Hsucc. destruct (ltb e stop) eqn:Hes.
      * by eapply succ_of_month_end.
      * apply succ_spec in Hsucc. apply ltb_lt in Hsucc, Hlt'. lia.
Qed.

End SpanFacts.

(** Every request of [_getRawDailyData] starts on the first day of a month
    and ends in that month (one month at a time), or starts on the first
    of January, May or September and ends at most seven months later
    (eight months at a time); the first one starts on the first of January
    of [start_year]. *)
Theorem chunks_start_on_first_days (hiprecision : bool) (start_year stop_year : Z)
    (today : date) :
  1 <= start_year <= 9999 -> 1 <= stop_year <= 9999 ->
  Cal.valid today -> Cal.year today <= 9998 ->
  exists chunks,
    daily_chunks hiprecision start_year stop_year today = Ok chunks /\
    (forall c, chunks !! 0%nat = Some c -> c.1 = Cal.mkdate start_year 1 1) /\
    (forall c, c ∈ chunks ->
       Cal.day c.1 = 1 /\
       (if hiprecision
        then Cal.year c.2 = Cal.year c.1 /\ Cal.month c.2 = Cal.month c.1
        else (Cal.month c.1 = 1 \/ Cal.month c.1 = 5 \/ Cal.month c.1 = 9) /\
             month_index c.1 <= month_index c.2 <= month_index c.1 + 7)).
Proof.
  intros Hs He Ht Hty.
  destruct (ChunkFacts.daily_chunks_chain hiprecision start_year stop_year today)
    as (chunks & Hrun & Hchain); try done.
  exists chunks. split; [done |]. split.
  - intros c Hc. by apply (ChunkFacts.chain_head _ _ _ _ _ Hchain).
  - intros c Hc.
    assert (Cal.valid (Cal.min2 (Cal.mkdate stop_year 12 31) today)) as Hstop.
    { apply ChunkFacts.min2_valid; [| done]. apply CalFacts.valid_iff. simpl.
      split; [lia |]. vm_compute; intuition discriminate. }
    assert (start_inv hiprecision (Cal.mkdate start_year 1 1)) as Hinv.
    { unfold start_inv. simpl. split; [done |]. split; [lia |]. split; [lia |]. by left. }
    destruct (SpanFacts.chain_starts _ _ _ _ Hstop Hchain Hinv c Hc)
      as ((Hd & Hy & Hm & Hlow) & Hspan).
    split; [done |].
    destruct (ChunkFacts.chain_bounds _ _ _ _ Hchain c Hc) as (_ & Hle & Hend).
    destruct hiprecision.
    + simpl in Hspan. apply CalFacts.leb_le in Hle, Hend.
      apply CalFacts.valid_iff in Hstop.
      assert (1 <= Cal.month c.2 <= 12) as Hm2.
      { rewrite (ChunkFacts.chain_ends _ _ _ _ Hchain c Hc).
        pose proof (ChunkFacts.month_end_after_shape true c.1
                      ltac:(by unfold start_inv) _ eq_refl) as (Hem & _).
        remember (Cal.min2 (Cal.mkdate stop_year 12 31) today) as stop.
        unfold Cal.min2. destruct (Cal.ltb _ stop); [done | lia]. }
      unfold month_index in Hspan. lia.
    + split; [by apply Hlow | exact Hspan].
Qed.

Lemma chunks_start_on_first_days_witness :
  exists chunks,
    daily_chunks false 2019 2020 (Cal.mkdate 2020 10 5) = Ok chunks /\
    (forall c, chunks !! 0%nat = Some c -> c.1 = Cal.mkdate 2019 1 1) /\
    (forall c, c ∈ chunks ->
       Cal.day c.1 = 1 /\
       (Cal.month c.1 = 1 \/ Cal.month c.1 = 5 \/ Cal.month c.1 = 9) /\
       month_index c.1 <= month_index c.2 <= month_index c.1 + 7).
Proof.
  apply (chunks_start_on_first_days false 2019 2020 (Cal.mkdate 2020 10 5));
    [lia | lia | reflexivity | simpl; lia].
Defined.

Lemma daily_chunks_cover_witness :
  let start_date := Cal.mkdate 2019 1 1 in
  let stop_date := Cal.min2 (Cal.mkdate 2020 12 31) (Cal.mkdate 2020 10 5) in
  exists chunks,
    daily_chunks true 2019 2020 (Cal.mkdate 2020 10 5) = Ok chunks /\
    (forall c, c ∈ chunks -> Cal.leb c.1 c.2 = true) /\
    (forall (i j : nat) c c', (i < j)%nat -> chunks !! i = Some c -> chunks !! j = Some c' ->
       Cal.ltb c.2 c'.1 = true) /\
    (forall d, covered chunks d = true ->
       Cal.leb start_date d = true /\ Cal.leb d stop_date = true) /\
    (forall d, Cal.valid d -> Cal.leb start_date d = true -> Cal.ltb d stop_date = true ->
       covered chunks d = true).
Proof.
  apply (daily_chunks_cover true 2019 2020 (Cal.mkdate 2020 10 5));
    [lia | lia | reflexivity | simpl; lia].
Defined.


(** ** What a build keeps of the stored pulls *)


Module KeepFacts.
Import StoreFacts FileFacts.

(** A [buildDatabase] that returns on a stored dataset has met its guard,
    or has stored the outer joins of the two sheets with what it pulled. *)
Lemma buildDatabase_stores fuel today dbpath word geo cat tz hiprecision w w1 book :
  buildDatabase fuel today dbpath word geo cat tz hiprecision w = (Ok tt, w1) ->
  files w !! db_file dbpath cat word geo = Some book ->
  exists data_m data_d,
    book !! "monthly"%string = Some data_m /\ book !! "daily"%string = Some data_d /\
    (files w1 = files w \/
     exists pulled_m pulled_d data_m' data_d',
       join_outer data_m pulled_m = Ok data_m' /\
       join_outer data_d pulled_d = Ok data_d' /\
       files w1 !! db_file dbpath cat word geo
       = Some (<["daily"%string := data_d']> {["monthly"%string := data_m']})).
Proof.
  intros H Hbook. unfold buildDatabase in H.
  apply bind_ok_inv in H as (present & w0 & Hp & H).
  unfold isfile in Hp. injection Hp as <- <-.
  rewrite Hbook, bool_decide_eq_true_2 in H by done.
  apply bind_ok_inv in H as (data_m & wa & Hdm & H).
  unfold read_excel in Hdm. rewrite Hbook in Hdm.
  destruct (book !! "monthly"%string) as [m |] eqn:Hm; [| done].
  injection Hdm as <- <-.
  apply bind_ok_inv in H as (data_d & wb & Hdd & H).
  unfold read_excel in Hdd. rewrite Hbook in Hdd.
  destruct (book !! "daily"%string) as [d |] eqn:Hd; [| done].
  injection Hdd as <- <-.
  exists m, d. split; [done |]. split; [done |].
  destruct (has_name _ _).
  - left. by injection H as <-.
  - right.
    apply bind_ok_inv in H as (stop_date & w2 & Hstop & H). injection Hstop as <- <-.
    apply bind_ok_inv in H as ([] & w3 & Hclient & H). injection Hclient as <-.
    apply bind_ok_inv in H as (first_day & w4 & Hfirst & H).
    apply lift_ok_inv in Hfirst as [_ ->].
    apply bind_ok_inv in H as (fetched & w5 & Hfetch & H).
    apply bind_ok_inv in H as (monthly & w6 & Hdrop & H).
    apply lift_ok_inv in Hdrop as [Hdrop ->].
    apply bind_ok_inv in H as (daily & w7 & Hraw & H).
    apply bind_ok_inv in H as (data_m' & w8 & Hjoin & H).
    apply lift_ok_inv in Hjoin as [Hjoin ->].
    destruct (join_outer d _) as [data_d' | e |] eqn:Hjoind;
      [| by destruct (save_excel _ _ _) | by destruct (save_excel _ _ _)].
    unfold save_excel in H. injection H as <-. simpl.
    eexists _, _, data_m', data_d'. split; [exact Hjoin |]. split; [exact Hjoind |].
    apply lookup_insert_eq.
Qed.

End KeepFacts.

(** [buildDatabase] only ever adds to a stored dataset: when it returns, the
    monthly and the daily sheet are still there, every date and every
    column they had is still there, and every stored value is found where
    it was. *)
Theorem build_keeps_stored_pulls
    (fuel : nat) (today : date) (dbpath word geo : string) (cat tz : Z)
    (hiprecision : bool) (w w1 : world) (book : workbook) (sheet : string) (old : frame) :
  buildDatabase fuel today dbpath word geo cat tz hiprecision w = (Ok tt, w1) ->
  files w !! db_file dbpath cat word geo = Some book ->
  sheet = "monthly"%string \/ sheet = "daily"%string ->
  book !! sheet = Some old ->
  exists (book' : workbook) (new : frame),
    files w1 !! db_file dbpath cat word geo = Some book' /\
    book' !! sheet = Some new /\
    (forall d, d ∈ index old -> d ∈ index new) /\
    forall n c, assoc n (columns old) = Some c ->
      exists c', assoc n (columns new) = Some c' /\
        forall d, d ∈ index old -> find_date d (index new) c' = find_date d (index old) c.
Proof.
  intros Hrun Hbook Hsheet Hold.
  destruct (KeepFacts.buildDatabase_stores _ _ _ _ _ _ _ _ _ _ _ Hrun Hbook)
    as (data_m & data_d & Hm & Hd & [Hsame | Hnew]).
  - exists book, old. rewrite Hsame. split; [done |]. split; [done |].
    split; [done |]. intros n c Hn. by exists c.
  - destruct Hnew as (pulled_m & pulled_d & data_m' & data_d' & Hjm & Hjd & Hfiles).
    destruct Hsheet as [-> | ->].
    + rewrite Hm in Hold. injection Hold as <-.
      destruct (JoinFacts.join_outer_keeps _ _ _ Hjm) as (Hrows & Hcols).
      eexists _, data_m'. split; [exact Hfiles |].
      split; [by rewrite lookup_insert_ne, lookup_singleton_eq |]. by split.
    + rewrite Hd in Hold. injection Hold as <-.
      destruct (JoinFacts.join_outer_keeps _ _ _ Hjd) as (Hrows & Hcols).
      eexists _, data_d'. split; [exact Hfiles |].
      split; [by rewrite lookup_insert_eq |]. by split.
Qed.

Lemma build_keeps_stored_pulls_witness :
  let today := Cal.mkdate 2004 3 10 in
  let rows := [(Cal.mkdate 2004 1 1, Fin (Qc_of_Z 10), false);
               (Cal.mkdate 2004 2 1, Fin (Qc_of_Z 20), false)] in
  let old := mkframe [Cal.mkdate 2004 1 1] [("flu_03_09_2004"%string, [Fin (Qc_of_Z 3)])] in
  let book : workbook :=
    <["daily"%string := old]>
      {["monthly"%string := mkframe [Cal.mkdate 2004 1 1]
                              [("flu_03_09_2004"%string, [Fin (Qc_of_Z 9)])]]} in
  let w := mkworld (fun _ => Answer rows) 0 (fun _ => 7) 0
             {["db/0_flu_US.xlsx"%string := book]} [] in
  let w1 := (buildDatabase 1 today "db" "flu" "US" 0 240 false w).2 in
  exists (book' : workbook) (new : frame),
    files w1 !! db_file "db" 0 "flu" "US" = Some book' /\
    book' !! "daily"%string = Some new /\
    (forall d, d ∈ index old -> d ∈ index new) /\
    forall n c, assoc n (columns old) = Some c ->
      exists c', assoc n (columns new) = Some c' /\
        forall d, d ∈ index old -> find_date d (index new) c' = find_date d (index old) c.
Proof.
  intros today rows old book w w1.
  apply (build_keeps_stored_pulls 1 today "db" "flu" "US" 0 240 false w w1 book
           "daily" old).
  - vm_compute. reflexivity.
  - vm_compute. reflexivity.
  - by right.
  - vm_compute. reflexivity.
Defined.


(** ** The requests of [getDailyDataOnce] are whole months *)

Module OnceFacts.
Import Cal CalFacts ChunkFacts StoreFacts RequestFacts.

Lemma month_end_ok cur ml :
  month_end cur = Ok ml ->
  ml = month_end_after cur 0 /\ year ml <= 9999 /\
  1 <= month ml <= 12 /\ day ml = monthrange (year ml) (month ml).
Proof.
  unfold month_end, mk. destruct (valid_ymd _ _ _) eqn:Hv; [| done]. intros [= <-].
  pose proof (proj1 (valid_iff (mkdate (year cur) (month cur)
                                  (monthrange (year cur) (month cur)))) Hv)
    as (Hy & Hm & _). simpl in Hy, Hm.
  split; [| simpl; lia].
  destruct cur as [y m d]. simpl in *.
  rewrite month_end_after_eq by lia.
  destruct (Z.ltb_spec 12 (m + 0)); [lia |]. by rewrite Z.add_0_r.
Qed.

(** The loop of [getDailyDataOnce] starts its requests where the
    one-month-at-a-time loop over the dates starts its chunks, and asks for
    the month up to its last day each time. *)
Lemma once_loop_log fuel word geo verbose wait_time stop :
  forall n cur results w rs w',
    once_loop fuel n word geo verbose wait_time stop cur results w = (Ok rs, w') ->
    exists chunks es,
      chunk_loop n true stop cur = Ok chunks /\
      trace w' = trace w ++ es /\
      forall last,
        fetched_with last es
        = map (fun c => getTimeframe c.1 (month_end_after c.1 0)) chunks.
Proof.
  induction n as [| n IH]; intros cur results w rs w' H.
  - simpl in H. simpl. destruct (ltb cur stop); [done |].
    injection H as <- <-. exists [], []. by rewrite !app_nil_r.
  - cbn [once_loop] in H. cbn [chunk_loop]. destruct (ltb cur stop) eqn:Hcur.
    2:{ injection H as <- <-. exists [], []. by rewrite !app_nil_r. }
    apply bind_ok_inv in H as (ml & w1 & Hml & H).
    apply lift_ok_inv in Hml as [Hml ->]. rewrite Hml. cbn [rbind negb].
    apply month_end_ok in Hml as (Hshape & Hmly & Hmlm & Hmld).
    apply bind_ok_inv in H as ([] & w1 & Hprint & H).
    assert (exists pr, trace w1 = trace w ++ pr /\
              forall last, fetched_with last pr = [] /\ payload_after last pr = last)
      as (pr & Hpr & Hquiet).
    { destruct verbose.
      - injection Hprint as <-. simpl. by eexists [_].
      - injection Hprint as <-. exists []. by rewrite app_nil_r. }
    apply bind_ok_inv in H as (fetched & w2 & Hfetch & H).
    apply fetchData_log in Hfetch as (fs & Hfs & Hfetched).
    apply bind_ok_inv in H as (next & w3 & Hnext & H).
    apply lift_ok_inv in Hnext as [Hnext ->].
    apply bind_ok_inv in H as (pause & w3 & Hpause & H).
    apply randrange_trace in Hpause.
    apply bind_ok_inv in H as ([] & w4 & Hsleep & H).
    injection Hsleep as <-.
    apply IH in H as (chunks & es & Hchunks & Htr & Hes).
    cbn [trace] in Htr.
    assert (forall last,
              fetched_with last (pr ++ fs ++ [EvSleep (Qmake pause 10)] ++ es)
              = getTimeframe cur ml
                :: map (fun c => getTimeframe c.1 (month_end_after c.1 0)) chunks) as Hall.
    { intros last. destruct (Hquiet last) as [Hq1 Hq2].
      destruct (Hfetched last) as [Hf1 Hf2].
      rewrite fetched_with_app, Hq1, Hq2, fetched_with_app, Hf1, Hf2. simpl.
      by rewrite Hes. }
    assert (trace w' = trace w ++ pr ++ fs ++ [EvSleep (Qmake pause 10)] ++ es) as Htrace
      by (rewrite Htr, Hpause, Hfs, Hpr, <- !app_assoc; reflexivity).
    unfold min2. destruct (ltb ml stop) eqn:Hclamp.
    + (* the month ends before [stop]: both loops go on from the next day *)
      rewrite Hnext. cbn [rbind]. rewrite Hchunks.
      eexists _, _. split; [reflexivity |]. split; [exact Htrace |].
      intros last. rewrite Hall. simpl. by rewrite Hshape.
    + (* the month reaches [stop]: both loops end here *)
      pose proof (succ_spec _ _ Hnext) as Hlater.
      assert (ltb next stop = false) as Hend
        by (apply ltb_ge; apply ltb_lt in Hlater; apply ltb_ge in Hclamp; lia).
      assert (chunks = []) as ->.
      { destruct n; simpl in Hchunks; rewrite Hend in Hchunks; by injection Hchunks as <-. }
      assert (exists next', succ stop = Ok next' /\ ltb next' stop = false)
        as (next' & Hnext' & Hend').
      { assert (exists next', succ stop = Ok next') as [next' Hn'].
        { unfold succ in Hnext |- *. rewrite Hmld, Z.ltb_irrefl in Hnext.
          apply ltb_ge in Hclamp.
          destruct (Z.ltb_spec (day stop) (monthrange (year stop) (month stop)));
            [by eexists |].
          destruct (Z.ltb_spec (month stop) 12); [by eexists |].
          destruct (Z.ltb_spec (year stop) 9999); [by eexists |].
          destruct (Z.ltb_spec (month ml) 12); [lia |].
          destruct (Z.ltb_spec (year ml) 9999); [lia | done]. }
        exists next'. split; [done |].
        apply succ_spec in Hn'. by apply ltb_asym. }
      rewrite Hnext'. cbn [rbind].
      assert (chunk_loop n true stop next' = Ok []) as ->
        by (destruct n; simpl; by rewrite Hend').
      eexists _, _. split; [reflexivity |]. split; [exact Htrace |].
      intros last. rewrite Hall. simpl. by rewrite Hshape.
Qed.

End OnceFacts.

(** Whenever [getDailyDataOnce] returns, it has fetched the monthly table
    from the first of January 2004 to [stop_date], and then one table for
    each chunk of the one-month-at-a-time loop over the dates, from the
    start of the chunk to the last day of its month: the end of the request
    is not clamped to [stop_date] as the end of the chunk is. *)
Theorem once_fetches_whole_months
    (fuel : nat) (today : date) (word : string) (start_year stop_year : Z) (geo : string)
    (tz cat : Z) (verbose : bool) (wait_time : Q) (w w' : world) (out : frame) :
  getDailyDataOnce fuel today word start_year stop_year geo tz cat verbose wait_time w
  = (Ok out, w') ->
  exists chunks es,
    daily_chunks true start_year stop_year today = Ok chunks /\
    trace w' = trace w ++ es /\
    fetched_with None es
    = getTimeframe (Cal.mkdate 2004 1 1) (Cal.min2 (Cal.mkdate stop_year 12 31) today)
      :: map (fun c => getTimeframe c.1 (month_end_after c.1 0)) chunks.
Proof.
  intros H. unfold getDailyDataOnce in H. unfold daily_chunks.
  apply StoreFacts.bind_ok_inv in H as (start_date & w1 & Hs & H).
  apply StoreFacts.lift_ok_inv in Hs as [-> ->].
  apply StoreFacts.bind_ok_inv in H as (stop_end & w1 & He & H).
  apply StoreFacts.lift_ok_inv in He as [He ->]. rewrite He.
  assert (stop_end = Cal.mkdate stop_year 12 31) as ->.
  { unfold Cal.mk in He. destruct (Cal.valid_ymd _ _ _); [by injection He as <- | done]. }
  apply StoreFacts.bind_ok_inv in H as ([] & w1 & Hclient & H).
  injection Hclient as <-.
  apply StoreFacts.bind_ok_inv in H as (first_day & w2 & Hfirst & H).
  apply StoreFacts.lift_ok_inv in Hfirst as [Hfirst ->].
  injection Hfirst as <-.
  apply StoreFacts.bind_ok_inv in H as (fetched & w2 & Hfetch & H).
  apply RequestFacts.fetchData_log in Hfetch as (fs & Hfs & Hfetched).
  apply StoreFacts.bind_ok_inv in H as (results & w3 & Hloop & H).
  apply OnceFacts.once_loop_log in Hloop as (chunks & es & Hchunks & Htr & Hes).
  apply StoreFacts.lift_ok_inv in H as [_ ->].
  cbn [rbind]. exists chunks, (EvTrendReq :: fs ++ es). split; [done |]. split.
  - rewrite Htr, Hfs. cbn [trace]. by rewrite <- !app_assoc.
  - simpl. destruct (Hfetched None) as [Hf1 Hf2].
    by rewrite RequestFacts.fetched_with_app, Hf1, Hf2, Hes.
Qed.

Lemma once_fetches_whole_months_witness :
  let today := Cal.mkdate 2004 2 10 in
  let rows := [(Cal.mkdate 2004 1 1, Fin (Qc_of_Z 10), false)] in
  let w := mkworld (fun _ => Answer rows) 0 (fun _ => 7) 0 ∅ [] in
  let run := getDailyDataOnce 1 today "flu" 2004 2004 "US" 240 0 false 5 w in
  exists chunks es,
    daily_chunks true 2004 2004 today = Ok chunks /\
    trace run.2 = trace w ++ es /\
    fetched_with None es
    = getTimeframe (Cal.mkdate 2004 1 1) (Cal.min2 (Cal.mkdate 2004 12 31) today)
      :: map (fun c => getTimeframe c.1 (month_end_after c.1 0)) chunks.
Proof.
  intros today rows w run.
  apply (once_fetches_whole_months 1 today "flu" 2004 2004 "US" 240 0 false 5 w run.2
           (match run.1 with Ok fr => fr | _ => empty_frame end)).
  vm_compute. reflexivity.
Defined.
